(** * A shallow embedding of the XRootD client core (XrdCl)

    This development models, from the C++ sources:
    - [XRootDMsgHandler] (XrdClXRootDMsgHandler.cc/.hh): the per-request
      state machine ([OnIncoming], [HandleError], [HandleResponse],
      [ParseResponse], [UnpackVectorRead], the request rewrites);
    - [Stream::Send] and [Stream::EnableLink] (XrdClStream.cc);
    - [DeepLocateHandler] (XrdClFileSystem.cc).

    Collaborators whose code is not part of these files (the transport,
    the URL parser, the post master, the SID manager) are taken as
    parameters, or modelled from the spec where a claim depends on them. *)

From Stdlib Require Import NArith ZArith List String Bool Lia.
From Stdlib Require Import Strings.Byte Permutation.
Import ListNotations.
Open Scope N_scope.

(* ------------------------------------------------------------------ *)
(** ** Status (XrdClStatus.hh) *)

Inductive StLevel := stOK | stError | stFatal.

(** Error and success codes used by the modelled files. *)
Inductive ErrCode :=
  | errNone | suXRDRedirect
  | errErrorResponse | errOperationExpired | errRedirectLimit
  | errInvalidRedirectURL | errInvalidResponse | errInvalidMessage
  | errInvalidSession | errConnectionError | errSocketTimeout
  | errSocketError | errNotFound | errNoMoreFreeSIDs | errOtherCode (n : N).

Record Status := mkStatus {
  status : StLevel;
  code   : ErrCode;
  errNo  : N
}.

Definition IsOK (s : Status) : bool :=
  match status s with stOK => true | _ => false end.

Definition IsFatal (s : Status) : bool :=
  match status s with stFatal => true | _ => false end.

Definition code_eqb (a b : ErrCode) : bool :=
  match a, b with
  | errNone, errNone | suXRDRedirect, suXRDRedirect
  | errErrorResponse, errErrorResponse
  | errOperationExpired, errOperationExpired
  | errRedirectLimit, errRedirectLimit
  | errInvalidRedirectURL, errInvalidRedirectURL
  | errInvalidResponse, errInvalidResponse
  | errInvalidMessage, errInvalidMessage
  | errInvalidSession, errInvalidSession
  | errConnectionError, errConnectionError
  | errSocketTimeout, errSocketTimeout
  | errSocketError, errSocketError
  | errNotFound, errNotFound
  | errNoMoreFreeSIDs, errNoMoreFreeSIDs => true
  | errOtherCode m, errOtherCode n => N.eqb m n
  | _, _ => false
  end.

(** Server error numbers and protocol constants (XProtocol). *)
Definition kXR_ArgInvalid  : N := 3000.
Definition kXR_FSError     : N := 3005.
Definition kXR_IOError     : N := 3007.
Definition kXR_NotFound    : N := 3011.
Definition kXR_ServerError : N := 3012.
Definition kXR_asynresp    : N := 5008.
Definition kXR_refresh     : N := 128.
Definition kXR_retstat     : N := 1024.
Definition kXR_vfs         : N := 1.
Definition kXR_isManager   : N := 2.
Definition kXR_attrMeta    : N := 256.

(** The actions an incoming-message handler returns (a bit mask). *)
Definition Take          : N := 1.
Definition Ignore        : N := 2.
Definition RemoveHandler : N := 4.

(* ------------------------------------------------------------------ *)
(** ** URLs and host records *)

Record URL := mkURL {
  url_host  : string;
  url_port  : N;
  url_valid : bool
}.

(** [URL::GetHostId] compares host and port. *)
Definition hostid_eqb (a b : URL) : bool :=
  String.eqb (url_host a) (url_host b) && N.eqb (url_port a) (url_port b).

Definition noURL : URL := mkURL "" 0 false.

Record HostInfo := mkHostInfo {
  hi_url      : URL;
  hi_flags    : N;
  hi_protocol : N;
  hi_lb       : bool
}.

Definition host_of (u : URL) : HostInfo := mkHostInfo u 0 0 false.

(* ------------------------------------------------------------------ *)
(** ** Requests and responses *)

Inductive ReqId :=
  | kXR_mv | kXR_truncate | kXR_rm | kXR_mkdir | kXR_rmdir | kXR_chmod
  | kXR_ping | kXR_close | kXR_write | kXR_sync | kXR_locate | kXR_stat
  | kXR_protocol | kXR_dirlist | kXR_open | kXR_read | kXR_readv
  | kXR_query | kXR_set | kXR_prepare | kXR_otherreq (n : N).

(** The request header and opaque tail, with the union views the handler
    reads or writes kept under the names the code uses for them
    ([req->locate.options], [req->open.options], [req->stat.options],
    [req->open.dlen]). In the [ClientRequest] union of the protocol
    header (XProtocol.hh) the views overlap: [locate_options] is the
    16-bit word at bytes 4-5, which a [ClientOpenRequest] calls
    [open.mode] (see [open_mode]); [open_options] is the word at bytes
    6-7, [open.options]. *)
Record ClientRequest := mkRequest {
  streamid       : N;
  requestid      : ReqId;
  locate_options : N;
  open_options   : N;
  stat_options   : N;
  req_dlen       : N;
  req_cgi        : list (string * string);
  req_session    : N
}.

(** A response message: the 8-byte header (stream id, status, dlen)
    and the status-specific body, after [UnMarshallBody]. *)
Inductive ServerResponse :=
  | mkRsp (sid : N) (body : RspBody) (session : N)
with RspBody :=
  | Rok       (data : list byte)
  | Roksofar  (data : list byte)
  | Rerror    (errnum : N) (errmsg : string)
  (** [host] is [urlComponents[0]] and [cgi] the optional
      [urlComponents[1]] of the redirect target split at ['?'], with the
      parameters the URL parser reads from it *)
  | Rredirect (port : N) (host : string)
              (cgi : option (string * list (string * string)))
  | Rwait     (seconds : Z) (infomsg : string)
  | Rwaitresp (seconds : Z)
  | Rattn     (actnum : N) (embedded : ServerResponse)
  | Rother    (st : N).

Definition rsp_sid (r : ServerResponse) : N :=
  match r with mkRsp s _ _ => s end.
Definition rsp_body (r : ServerResponse) : RspBody :=
  match r with mkRsp _ b _ => b end.
Definition rsp_session (r : ServerResponse) : N :=
  match r with mkRsp _ _ s => s end.

(** [rsp->body.buffer.data] with [rsp->hdr.dlen] bytes, for the bodies the
    handler reads as raw data. *)
Definition rsp_data (r : ServerResponse) : list byte :=
  match rsp_body r with Rok d | Roksofar d => d | _ => [] end.

Definition rsp_dlen (r : ServerResponse) : N := N.of_nat (List.length (rsp_data r)).

(* ------------------------------------------------------------------ *)
(** ** Chunks and decoded responses (XrdClXRootDResponses.hh) *)

(** A [ChunkInfo]: offset (uint64), length (uint32) and the caller's
    buffer, [None] for a null pointer; buffers are named by numbers. *)
Record ChunkInfo := mkChunk {
  ck_offset : N;
  ck_length : N;
  ck_buffer : option N
}.

Inductive AnyObject :=
  | ORedirectInfo   (host : string) (port : N) (cgi : string)
  | OLocationInfo   (data : list byte)
  | OStatInfo       (data : list byte)
  | OStatInfoVFS    (data : list byte)
  | OProtocolInfo   (pval flags : list byte)
  | ODirectoryList  (host : URL) (path_len : N) (data : option (list byte))
  | OOpenInfo       (data : list byte) (session : N) (stat : option (list byte))
  | OChunkInfo      (offset length : N) (buffer : option N)
  | OVectorReadInfo (chunks : list ChunkInfo) (size : N)
  | OBinaryData     (data : list byte).

(** A [memcpy] into a caller-supplied buffer. *)
Definition Copy := (N * list byte)%type.

Definition StatusOK : Status := mkStatus stOK errNone 0.

(* ------------------------------------------------------------------ *)
(** ** Byte-level helpers *)

(** Network-order unsigned integer from a byte string ([ntohl], [ntohll]). *)
Definition be_N (bs : list byte) : N :=
  fold_left (fun acc b => acc * 256 + Byte.to_N b) bs 0.

Definition bytes_at (src : list byte) (off n : N) : list byte :=
  firstn (N.to_nat n) (skipn (N.to_nat off) src).

Definition two32 : N := 4294967296.

(* ------------------------------------------------------------------ *)
(** ** [XRootDMsgHandler::UnpackVectorRead] *)

Record VReadResult := mkVRead {
  vr_status : Status;
  vr_chunks : list ChunkInfo;   (* vReadInfo->GetChunks() *)
  vr_size   : N;                (* vReadInfo->SetSize( size ) *)
  vr_copies : list Copy         (* data written to the caller's buffers *)
}.

Section UnpackVectorRead.
Variable sourceBuffer : list byte.
(** [int64_t len = sourceBufferSize] *)
Variable len : Z.

(** One turn of the [while( 1 )] loop per requested chunk: [rest] is
    the requested chunks from [reqCurrent] on, [offset] and [size] are the [uint32_t]
    cursors. *)
Fixpoint unpack_loop (rest : list ChunkInfo) (offset size : N)
         (chunks : list ChunkInfo) (copies : list Copy) : VReadResult :=
  if (len - 16 <? Z.of_N offset)%Z then
    mkVRead StatusOK chunks size copies
  else
    match rest with
    | [] => mkVRead (mkStatus stFatal errInvalidResponse 0) chunks size copies
    | req :: rest' =>
        let rlen   := be_N (bytes_at sourceBuffer (offset + 4) 4) in
        let coff   := be_N (bytes_at sourceBuffer (offset + 8) 8) in
        let size'  := (size + rlen) mod two32 in
        if negb (N.eqb rlen (ck_length req)) || negb (N.eqb coff (ck_offset req))
        then mkVRead (mkStatus stFatal errInvalidResponse 0) chunks size' copies
        else
          let copies' :=
            match ck_buffer req with
            | None => copies
            | Some b => copies ++ [(b, bytes_at sourceBuffer (offset + 16) rlen)]
            end in
          unpack_loop rest' ((offset + 16 + rlen) mod two32) size'
                      (chunks ++ [mkChunk coff rlen (ck_buffer req)]) copies'
    end.
End UnpackVectorRead.

Definition UnpackVectorRead (chunkList : list ChunkInfo) (sourceBuffer : list byte)
           (sourceBufferSize : N) : VReadResult :=
  unpack_loop sourceBuffer (Z.of_N sourceBufferSize) chunkList 0 0 [] [].

(* ------------------------------------------------------------------ *)
(** ** [kXR_readv] replies *)

(** The low byte of [n]. *)
Definition byte_of_N (n : N) : byte :=
  match Byte.of_N (n mod 256) with Some b => b | None => x00 end.

(** [n] as a [k]-byte network-order integer ([htonl], [htonll]). *)
Fixpoint enc_be (k : nat) (n : N) : list byte :=
  match k with
  | O => []
  | S k' => enc_be k' (n / 256) ++ [byte_of_N n]
  end.

Definition two64 : N := 18446744073709551616.

(** One chunk of a [kXR_readv] reply: a [readahead_list] header (file
    handle, [rlen], [offset]) and [rlen] bytes of data. *)
Record RChunk := mkRChunk {
  rc_fhandle : list byte;
  rc_offset  : N;
  rc_data    : list byte
}.

Definition rc_rlen (c : RChunk) : N := N.of_nat (List.length (rc_data c)).

Definition enc_rchunk (c : RChunk) : list byte :=
  rc_fhandle c ++ enc_be 4 (rc_rlen c) ++ enc_be 8 (rc_offset c) ++ rc_data c.

(** The reply body: the chunks one after the other. *)
Definition readv_body (rs : list RChunk) : list byte := List.concat (map enc_rchunk rs).

(** The reply chunk [c] answers the requested chunk [req]. *)
Definition chunk_matches (req : ChunkInfo) (c : RChunk) : bool :=
  N.eqb (rc_rlen c) (ck_length req) && N.eqb (rc_offset c) (ck_offset req).

(** The reply chunks answer the requested ones element-wise, in order,
    and there are no more of them than were requested. *)
Fixpoint matches_prefix (cl : list ChunkInfo) (rs : list RChunk) : bool :=
  match rs, cl with
  | [], _ => true
  | _ :: _, [] => false
  | c :: rs', req :: cl' => chunk_matches req c && matches_prefix cl' rs'
  end.

(** The data of each reply chunk, copied to the buffer of the requested
    chunk it answers, when there is one. *)
Fixpoint expected_copies (cl : list ChunkInfo) (rs : list RChunk) : list Copy :=
  match rs, cl with
  | c :: rs', req :: cl' =>
      match ck_buffer req with
      | Some b => (b, rc_data c) :: expected_copies cl' rs'
      | None => expected_copies cl' rs'
      end
  | _, _ => []
  end.

(** The sum of the [rlen]s of the reply chunks. *)
Definition sumlen (rs : list RChunk) : N := fold_right (fun c acc => rc_rlen c + acc) 0 rs.

(** A requested chunk comes with a buffer to copy its data to. *)
Definition has_buffer (c : ChunkInfo) : bool :=
  match ck_buffer c with Some _ => true | None => false end.

(** The sum of the lengths of requested chunks. *)
Definition sum_lengths (cl : list ChunkInfo) : N := fold_right (fun c acc => ck_length c + acc) 0 cl.

(** The copy [cp] goes to the buffer of the chunk [c] and holds at most
    [c]'s length in bytes. *)
Definition copy_fits (c : ChunkInfo) (cp : Copy) : Prop :=
  ck_buffer c = Some (fst cp) /\ N.of_nat (List.length (snd cp)) <= ck_length c.

(* ------------------------------------------------------------------ *)
(** ** The per-request handler state (XrdClXRootDMsgHandler.hh) *)

Record Handler := mkHandler {
  pRequest          : ClientRequest;
  pResponse         : option ServerResponse;
  pPartialResps     : list ServerResponse;
  pUrl              : URL;
  pSidMgr           : URL;          (* the channel whose SIDManager owns the SID *)
  pStatus           : Status;
  pExpiration       : Z;
  pRedirectAsAnswer : bool;
  pHosts            : list HostInfo;
  pHasLoadBalancer  : bool;
  pLoadBalancer     : HostInfo;
  pRedirectCgi      : string;
  pChunkList        : list ChunkInfo;
  pRedirectCounter  : N
}.

Definition set_pRequest r h := mkHandler r (pResponse h) (pPartialResps h) (pUrl h)
  (pSidMgr h) (pStatus h) (pExpiration h) (pRedirectAsAnswer h) (pHosts h)
  (pHasLoadBalancer h) (pLoadBalancer h) (pRedirectCgi h) (pChunkList h) (pRedirectCounter h).
Definition set_pResponse r h := mkHandler (pRequest h) r (pPartialResps h) (pUrl h)
  (pSidMgr h) (pStatus h) (pExpiration h) (pRedirectAsAnswer h) (pHosts h)
  (pHasLoadBalancer h) (pLoadBalancer h) (pRedirectCgi h) (pChunkList h) (pRedirectCounter h).
Definition set_pPartialResps p h := mkHandler (pRequest h) (pResponse h) p (pUrl h)
  (pSidMgr h) (pStatus h) (pExpiration h) (pRedirectAsAnswer h) (pHosts h)
  (pHasLoadBalancer h) (pLoadBalancer h) (pRedirectCgi h) (pChunkList h) (pRedirectCounter h).
Definition set_pUrl u h := mkHandler (pRequest h) (pResponse h) (pPartialResps h) u
  (pSidMgr h) (pStatus h) (pExpiration h) (pRedirectAsAnswer h) (pHosts h)
  (pHasLoadBalancer h) (pLoadBalancer h) (pRedirectCgi h) (pChunkList h) (pRedirectCounter h).
Definition set_pSidMgr m h := mkHandler (pRequest h) (pResponse h) (pPartialResps h) (pUrl h)
  m (pStatus h) (pExpiration h) (pRedirectAsAnswer h) (pHosts h)
  (pHasLoadBalancer h) (pLoadBalancer h) (pRedirectCgi h) (pChunkList h) (pRedirectCounter h).
Definition set_pStatus st h := mkHandler (pRequest h) (pResponse h) (pPartialResps h) (pUrl h)
  (pSidMgr h) st (pExpiration h) (pRedirectAsAnswer h) (pHosts h)
  (pHasLoadBalancer h) (pLoadBalancer h) (pRedirectCgi h) (pChunkList h) (pRedirectCounter h).
Definition set_pHosts l h := mkHandler (pRequest h) (pResponse h) (pPartialResps h) (pUrl h)
  (pSidMgr h) (pStatus h) (pExpiration h) (pRedirectAsAnswer h) l
  (pHasLoadBalancer h) (pLoadBalancer h) (pRedirectCgi h) (pChunkList h) (pRedirectCounter h).
Definition set_pLoadBalancer lb h := mkHandler (pRequest h) (pResponse h) (pPartialResps h) (pUrl h)
  (pSidMgr h) (pStatus h) (pExpiration h) (pRedirectAsAnswer h) (pHosts h)
  (pHasLoadBalancer h) lb (pRedirectCgi h) (pChunkList h) (pRedirectCounter h).
Definition set_pRedirectCgi c h := mkHandler (pRequest h) (pResponse h) (pPartialResps h) (pUrl h)
  (pSidMgr h) (pStatus h) (pExpiration h) (pRedirectAsAnswer h) (pHosts h)
  (pHasLoadBalancer h) (pLoadBalancer h) c (pChunkList h) (pRedirectCounter h).
Definition set_pRedirectCounter n h := mkHandler (pRequest h) (pResponse h) (pPartialResps h) (pUrl h)
  (pSidMgr h) (pStatus h) (pExpiration h) (pRedirectAsAnswer h) (pHosts h)
  (pHasLoadBalancer h) (pLoadBalancer h) (pRedirectCgi h) (pChunkList h) n.

Definition set_streamid sid r := mkRequest sid (requestid r) (locate_options r)
  (open_options r) (stat_options r) (req_dlen r) (req_cgi r) (req_session r).
Definition set_locate_options o r := mkRequest (streamid r) (requestid r) o
  (open_options r) (stat_options r) (req_dlen r) (req_cgi r) (req_session r).
Definition set_req_cgi c r := mkRequest (streamid r) (requestid r) (locate_options r)
  (open_options r) (stat_options r) (req_dlen r) c (req_session r).

(** [req->open.mode]: the same bytes as [req->locate.options]. *)
Definition open_mode (r : ClientRequest) : N := locate_options r.

(** What the handler does to the outside world, in order. *)
Inductive Effect :=
  | ESend         (url : URL) (sid : N) (ok : bool)  (* PostMaster::Send and its result *)
  | EReceive      (url : URL)                        (* PostMaster::Receive *)
  | ERegisterTask (at_time : Z)                      (* a WaitTask for WaitDone *)
  | EReleaseSID   (mgr : URL) (sid : N)
  | ETimeOutSID   (mgr : URL) (sid : N)
  | EAllocSID     (mgr : URL) (sid : N)
  | ECopy         (c : Copy)                         (* memcpy into a user buffer *)
  | EDeliver      (st : Status) (resp : option AnyObject) (hosts : list HostInfo).
                  (* pResponseHandler->HandleResponseWithHosts *)

(** The handler object together with the effects it has caused and
    whether it still exists ([delete this] clears [alive]). *)
Record HState := mkHState {
  hs    : Handler;
  fx    : list Effect;
  alive : bool
}.

Definition upd (f : Handler -> Handler) (s : HState) : HState :=
  mkHState (f (hs s)) (fx s) (alive s).
Definition emit (e : Effect) (s : HState) : HState :=
  mkHState (hs s) (fx s ++ [e]) (alive s).

(** [MessageUtils::AppendCGI( msg, cgi, false )] is not among the sources.
    Modelled from the spec: the new parameters are merged into the
    request's opaque tail, never duplicating keys the caller already
    supplied (the caller's values win). *)
Definition AppendCGI (cgi newCgi : list (string * string)) : list (string * string) :=
  cgi ++ filter (fun kv => negb (existsb (fun kv' => String.eqb (fst kv') (fst kv)) cgi))
                newCgi.

(* ------------------------------------------------------------------ *)
(** ** The handler's operations (XrdClXRootDMsgHandler.cc) *)

Section MsgHandler.
(** [QueryTransport( url, XRootDQuery::ServerFlags / ProtocolVersion )] *)
Variable server_flags     : URL -> N.
Variable protocol_version : URL -> N.
(** The destination channel's [SIDManager::AllocateSID]: a new stream
    id, or [None] when none can be had. *)
Variable sid_alloc : URL -> option N.
(** [URL( host:port/ ).IsValid()] for a redirect target. *)
Variable url_ok : string -> N -> bool.
(** The [errNo] that the two-argument constructor [Status( st, code )]
    leaves in the status (its default argument, XrdClStatus.hh). *)
Variable errNo_default : N.

Definition Status2 (st : StLevel) (c : ErrCode) : Status := mkStatus st c errNo_default.
Definition Status0 : Status := Status2 stOK errNone.

(** The body handed to the decoder: the final body alone, or one
    buffer of [length] bytes gluing every partial body, in order, and
    the final one (the [uint32_t] sum of the [dlen]s). *)
Definition glue (partials : list ServerResponse) (rsp : ServerResponse)
  : list byte * N :=
  match partials with
  | [] => (rsp_data rsp, rsp_dlen rsp)
  | _ => (List.concat (map rsp_data partials) ++ rsp_data rsp,
          (fold_left (fun acc p => acc + rsp_dlen p) partials 0 + rsp_dlen rsp)
            mod two32)
  end.

Definition no_body (r : ReqId) : bool :=
  match r with
  | kXR_mv | kXR_truncate | kXR_rm | kXR_mkdir | kXR_rmdir | kXR_chmod
  | kXR_ping | kXR_close | kXR_write | kXR_sync => true
  | _ => false
  end.

Definition default_chunk : ChunkInfo := mkChunk 0 0 None.

(** [ParseResponse]: the status, the typed response and the data it
    copied into the caller's buffers. *)
Definition ParseResponse (h : Handler)
  : Status * option AnyObject * list Copy :=
  match pResponse h with
  | None => (Status0, None, [])
  | Some rsp =>
    let req := pRequest h in
    match rsp_body rsp with
    | Rredirect _ _ _ =>
        if negb (pRedirectAsAnswer h) then (Status0, None, [])   (* return 0 *)
        else (Status0, Some (ORedirectInfo (url_host (pUrl h)) (url_port (pUrl h))
                                           (pRedirectCgi h)), [])
    | Rok _ =>
      let '(buffer, length) := glue (pPartialResps h) rsp in
      if no_body (requestid req) then (Status0, None, []) else
      match requestid req with
      | kXR_locate => (Status0, Some (OLocationInfo buffer), [])
      | kXR_stat =>
          if negb (N.eqb (N.land (stat_options req) kXR_vfs) 0)
          then (Status0, Some (OStatInfoVFS buffer), [])
          else (Status0, Some (OStatInfo buffer), [])
      | kXR_protocol =>
          (* rsp->body.protocol.pval and .flags *)
          (Status0, Some (OProtocolInfo (bytes_at (rsp_data rsp) 0 4)
                                        (bytes_at (rsp_data rsp) 4 4)), [])
      | kXR_dirlist =>
          (Status0, Some (ODirectoryList (pUrl h) (req_dlen req)
                            (if N.eqb length 0 then None else Some buffer)), [])
      | kXR_open =>
          let statInfo :=
            if negb (N.eqb (N.land (open_options req) kXR_retstat) 0)
               && N.leb 12 (req_dlen req)
            then Some (skipn 12 buffer) else None in
          (Status0, Some (OOpenInfo buffer (rsp_session rsp) statInfo), [])
      | kXR_read =>
          let info := hd default_chunk (pChunkList h) in
          if N.ltb (ck_length info) length
          then (Status2 stError errInvalidResponse, None, [])
          else (Status0, Some (OChunkInfo (ck_offset info) length (ck_buffer info)),
                match ck_buffer info with
                | Some b => [(b, firstn (N.to_nat length) buffer)]
                | None => []
                end)
      | kXR_readv =>
          let r := UnpackVectorRead (pChunkList h) buffer length in
          if negb (IsOK (vr_status r)) then (vr_status r, None, vr_copies r)
          else (Status0, Some (OVectorReadInfo (vr_chunks r) (vr_size r)), vr_copies r)
      | _ => (Status0, Some (OBinaryData (firstn (N.to_nat length) buffer)), [])
      end
    | _ => (Status0, None, [])                                (* return 0 *)
    end
  end.

(** [ProcessStatus]: the server's error number and text are copied
    into the final status for an [errErrorResponse]. *)
Definition ProcessStatus (h : Handler) : Status :=
  let st := pStatus h in
  match pResponse h with
  | Some rsp =>
      match rsp_body rsp with
      | Rerror errnum _ =>
          if negb (IsOK st) && code_eqb (code st) errErrorResponse
          then mkStatus (status st) (code st) errnum else st
      | _ => st
      end
  | None => st
  end.

(** [HandleResponse]: decode, release or quarantine the SID, notify
    the caller, [delete this]. *)
Definition HandleResponse (s : HState) : HState :=
  let h := hs s in
  let st0 := ProcessStatus h in
  let '(st, resp, copies) :=
    if IsOK st0 then
      let '(pst, r, c) := ParseResponse h in
      if IsOK pst then (st0, r, c) else (pst, None, c)
    else (st0, None, []) in
  let sid := streamid (pRequest h) in
  let sidfx :=
    if negb (IsOK st) && code_eqb (code st) errOperationExpired
    then ETimeOutSID (pSidMgr h) sid
    else EReleaseSID (pSidMgr h) sid in
  mkHState h (fx s ++ map ECopy copies ++ [sidfx; EDeliver st resp (pHosts h)]) false.

(** [UpdateTriedCGI]: [tried=<current host name>] *)
Definition UpdateTriedCGI (s : HState) : HState :=
  upd (fun h => set_pRequest
                  (set_req_cgi (AppendCGI (req_cgi (pRequest h))
                                          [("tried"%string, url_host (pUrl h))])
                               (pRequest h)) h) s.

(** [SwitchOnRefreshFlag]: [req->locate.options |= kXR_refresh] for
    [kXR_locate] and [kXR_open]; for a [kXR_open] request that word is
    [open.mode], not [open.options]. *)
Definition SwitchOnRefreshFlag (s : HState) : HState :=
  upd (fun h =>
    let req := pRequest h in
    match requestid req with
    | kXR_locate | kXR_open =>
        set_pRequest (set_locate_options (N.lor (locate_options req) kXR_refresh) req) h
    | _ => h
    end) s.

(** [RewriteRequestWait]: [req->locate.options &= ~kXR_refresh] for
    [kXR_locate] and [kXR_open] (for [kXR_open], the word [open.mode]);
    it always returns [Status()]. *)
Definition RewriteRequestWait (s : HState) : HState :=
  upd (fun h =>
    let req := pRequest h in
    match requestid req with
    | kXR_locate | kXR_open =>
        set_pRequest (set_locate_options (N.ldiff (locate_options req) kXR_refresh) req) h
    | _ => h
    end) s.

(** The state changes of [RetryAtServer( url )] before the send. *)
Definition retry_state (u : URL) (s : HState) : HState :=
  upd (fun h => set_pHosts (pHosts h ++ [host_of u]) (set_pUrl u h)) s.

Definition recoverable (n : N) : bool :=
  N.eqb n kXR_FSError || N.eqb n kXR_IOError || N.eqb n kXR_ServerError
  || N.eqb n kXR_NotFound.

(** [HandleError( status )] at clock [now]. [outs] are the results the
    post master gives to the successive [Send]s issued by
    [RetryAtServer]; when it is exhausted, sends succeed. Every
    [HandleError( RetryAtServer( url ) )] consumes one result, so the
    recursion is structural in [outs]. *)
Fixpoint HandleError (now : Z) (outs : list Status) (st : Status) (s : HState)
         {struct outs} : list Status * HState :=
  if IsOK st then (outs, s) else
  let h := hs s in
  let lb := hi_url (pLoadBalancer h) in
  let sid := streamid (pRequest h) in
  if code_eqb (code st) errErrorResponse then
    if url_valid lb && negb (hostid_eqb (pUrl h) lb) && recoverable (errNo st) then
      let s1 := UpdateTriedCGI s in
      let s2 := if N.eqb (errNo st) kXR_NotFound then SwitchOnRefreshFlag s1 else s1 in
      let s3 := retry_state lb s2 in
      let '(outs', s4) :=
        match outs with
        | [] => ([], emit (ESend lb sid true) s3)
        | o :: tl => HandleError now tl o (emit (ESend lb sid (IsOK o)) s3)
        end in
      (outs', upd (set_pResponse None) s4)                 (* delete pResponse *)
    else (outs, HandleResponse (upd (set_pStatus st) s))
  else
  if code_eqb (code st) errOperationExpired
     || negb (N.eqb (req_session (pRequest h)) 0)
     || (pExpiration h <=? now)%Z
  then (outs, HandleResponse (upd (set_pStatus st) s))
  else
  if url_valid lb && negb (hostid_eqb lb (pUrl h)) then
    let s3 := retry_state lb (UpdateTriedCGI s) in
    match outs with
    | [] => ([], emit (ESend lb sid true) s3)
    | o :: tl => HandleError now tl o (emit (ESend lb sid (IsOK o)) s3)
    end
  else
  if negb (IsFatal st) then
    let s3 := retry_state (pUrl h) s in
    match outs with
    | [] => ([], emit (ESend (pUrl h) sid true) s3)
    | o :: tl => HandleError now tl o (emit (ESend (pUrl h) sid (IsOK o)) s3)
    end
  else (outs, HandleResponse (upd (set_pStatus st) s)).

(** [HandleError( RetryAtServer( url ) )] *)
Definition RetryAndHandle (now : Z) (outs : list Status) (u : URL) (s : HState)
  : list Status * HState :=
  let s' := retry_state u s in
  let sid := streamid (pRequest (hs s')) in
  match outs with
  | [] => ([], emit (ESend u sid true) s')
  | o :: tl => HandleError now tl o (emit (ESend u sid (IsOK o)) s')
  end.

(** [pHosts->back().flags = ...; pHosts->back().protocol = ...] *)
Fixpoint annotate_last (u : URL) (l : list HostInfo) : list HostInfo :=
  match l with
  | [] => []
  | [x] => [mkHostInfo (hi_url x) (server_flags u) (protocol_version u) (hi_lb x)]
  | x :: tl => x :: annotate_last u tl
  end.

Definition last_host (l : list HostInfo) : HostInfo :=
  last l (host_of noURL).

Definition set_lb (b : bool) (x : HostInfo) : HostInfo :=
  mkHostInfo (hi_url x) (hi_flags x) (hi_protocol x) b.

(** The load-balancer promotion of the [kXR_redirect] branch. *)
Definition promote_lb (h : Handler) : Handler :=
  if pHasLoadBalancer h then h else
  let back := last_host (pHosts h) in
  let flags := hi_flags back in
  if negb (N.eqb (N.land flags kXR_isManager) 0) then
    if negb (N.eqb (N.land flags kXR_attrMeta) 0)
       || negb (url_valid (hi_url (pLoadBalancer h)))
    then
      let hosts := map (set_lb false) (pHosts h) in
      set_pHosts (removelast hosts ++ [set_lb true (last_host hosts)])
                 (set_pLoadBalancer back h)
    else h
  else h.

(** [RewriteRequestRedirect( newCgi )]: the old SID goes back to the old
    SID manager, a new one comes from the destination's, the redirect's
    CGI is merged into the request. [None] is the failure status. *)
Definition RewriteRequestRedirect (newCgi : list (string * string)) (s : HState)
  : option Status * HState :=
  let h := hs s in
  let s1 := emit (EReleaseSID (pSidMgr h) (streamid (pRequest h)))
                 (upd (set_pSidMgr (pUrl h)) s) in
  match sid_alloc (pUrl h) with
  | None => (Some (Status2 stError errNoMoreFreeSIDs), s1)
  | Some sid =>
      let s2 := emit (EAllocSID (pUrl h) sid)
                     (upd (fun h => set_pRequest (set_streamid sid (pRequest h)) h) s1) in
      match newCgi with
      | [] => (None, s2)
      | _ => (None, upd (fun h => set_pRequest
                                    (set_req_cgi (AppendCGI (req_cgi (pRequest h)) newCgi)
                                                 (pRequest h)) h) s2)
      end
  end.

(** The terminal outcome [pStatus = st; HandleResponse(); return Take | RemoveHandler]. *)
Definition finish (st : Status) (outs : list Status) (s : HState)
  : N * list Status * HState :=
  (N.lor Take RemoveHandler, outs, HandleResponse (upd (set_pStatus st) s)).

(** [OnIncoming( msg )] at clock [now], for the message with stream id
    [sid], body [body] and session id [session]. The embedded response
    of a [kXR_attn]/[kXR_asynresp] is a new [Message], whose session id
    is 0. *)
Fixpoint OnIncoming_body (now : Z) (outs : list Status)
         (sid : N) (body : RspBody) (session : N) (s : HState)
         {struct body} : N * list Status * HState :=
  let h := hs s in
  let req := pRequest h in
  match body with
  | Rattn actnum emb =>
      if negb (N.eqb actnum kXR_asynresp) then (Ignore, outs, s) else
      match emb with
      | mkRsp esid ebody _ =>
          if negb (N.eqb esid (streamid req)) then (Ignore, outs, s)
          else OnIncoming_body now outs esid ebody 0 s
      end
  | _ =>
  if negb (N.eqb sid (streamid req)) then (Ignore, outs, s) else
  let msg := mkRsp sid body session in
  let s := upd (fun h => set_pHosts (annotate_last (pUrl h) (pHosts h)) h) s in
  match body with
  | Rok _ =>
      finish Status0 outs (upd (set_pResponse (Some msg)) s)
  | Rerror _ _ =>
      let '(outs', s') := HandleError now outs (Status2 stError errErrorResponse)
                                      (upd (set_pResponse (Some msg)) s) in
      (N.lor Take RemoveHandler, outs', s')
  | Rredirect port host cgi =>
      if N.eqb (pRedirectCounter (hs s)) 0 then
        finish (Status2 stFatal errRedirectLimit) outs s
      else
      let s := upd (fun h => promote_lb (set_pRedirectCounter (pRedirectCounter h - 1) h)) s in
      let newUrl := mkURL host port (url_ok host port) in
      let s := upd (set_pUrl newUrl) s in
      if negb (url_valid newUrl) then
        finish (Status2 stError errInvalidRedirectURL) outs s
      else
      let '(newCgi, s) :=
        match cgi with
        | Some (raw, params) => (params, upd (set_pRedirectCgi raw) s)
        | None => ([], s)
        end in
      if pRedirectAsAnswer (hs s) then
        finish (Status2 stOK suXRDRedirect) outs (upd (set_pResponse (Some msg)) s)
      else
      match RewriteRequestRedirect newCgi s with
      | (Some st, s') => finish st outs s'
      | (None, s') =>
          let s'' := upd (fun h => set_pHosts (pHosts h ++ [host_of (pUrl h)]) h) s' in
          let '(outs', s3) := RetryAndHandle now outs (pUrl (hs s'')) s'' in
          (N.lor Take RemoveHandler, outs', s3)
      end
  | Rwait seconds _ =>
      let s' := RewriteRequestWait s in
      (N.lor Take RemoveHandler, outs, emit (ERegisterTask (now + seconds)) s')
  | Rwaitresp _ => (Take, outs, s)
  | Roksofar _ =>
      (Take, outs, upd (fun h => set_pPartialResps (pPartialResps h ++ [msg]) h) s)
  | _ => finish (Status2 stError errInvalidResponse) outs s
  end
  end.

Definition OnIncoming (now : Z) (outs : list Status) (msg : ServerResponse)
           (s : HState) : N * list Status * HState :=
  match msg with mkRsp sid body session => OnIncoming_body now outs sid body session s end.

Inductive StreamEvent := Ready | Broken | Timeout | FatalError.

(** [OnStreamEvent( event, streamNum, status )] *)
Definition OnStreamEvent (now : Z) (outs : list Status) (ev : StreamEvent)
           (streamNum : N) (st : Status) (s : HState) : N * list Status * HState :=
  match ev with
  | Ready => (0, outs, s)
  | _ =>
    if negb (N.eqb streamNum 0) then (0, outs, s) else
    let '(outs', s') := HandleError now outs st s in
    (RemoveHandler, outs', s')
  end.

(** [OnStatusReady( message, status )]; [PostMaster::Receive] registers
    the handler in the channel's in-queue and succeeds. *)
Definition OnStatusReady (now : Z) (outs : list Status) (st : Status) (s : HState)
  : list Status * HState :=
  if IsOK st then (outs, emit (EReceive (pUrl (hs s))) s)
  else HandleError now outs st s.

(** [WaitDone]: [HandleError( RetryAtServer( pUrl ) )]. *)
Definition WaitDone (now : Z) (outs : list Status) (s : HState) : list Status * HState :=
  RetryAndHandle now outs (pUrl (hs s)) s.

End MsgHandler.

(* ------------------------------------------------------------------ *)
(** ** Where the handler is referenced from (for the whole life cycle) *)

(** The handler is reachable from the channel's in-queue (after
    [PostMaster::Receive]), from a sub-stream's out-queue (after a
    successful [PostMaster::Send]) or from a registered [WaitTask]. *)
Record Conf := mkConf {
  c_h    : HState;
  c_inq  : bool;
  c_outq : bool;
  c_task : bool
}.

(** Events that reach the handler; [outs] are the results of the sends
    it issues while handling the event. *)
Inductive HEvent :=
  | EvIncoming    (now : Z) (outs : list Status) (msg : ServerResponse)
      (* InQueue::AddMessage / AddMessageHandler *)
  | EvStreamEvent (now : Z) (outs : list Status) (ev : StreamEvent) (num : N) (st : Status)
      (* InQueue::ReportStreamEvent *)
  | EvTimeout     (now : Z) (outs : list Status)
      (* InQueue::ReportTimeout *)
  | EvStatusReady (now : Z) (outs : list Status) (st : Status)
      (* Stream::OnMessageSent, OutQueue::Report *)
  | EvWaitDone    (now : Z) (outs : list Status).
      (* WaitTask::Run *)

(** A successful send puts the handler in an out-queue, a [WaitTask]
    holds it, [Receive] registers it in the in-queue. *)
Definition is_ref (e : Effect) : bool :=
  match e with
  | ESend _ _ true | ERegisterTask _ | EReceive _ => true
  | _ => false
  end.
Definition is_send_ok (e : Effect) : bool :=
  match e with ESend _ _ true => true | _ => false end.
Definition is_task (e : Effect) : bool :=
  match e with ERegisterTask _ => true | _ => false end.
Definition is_receive (e : Effect) : bool :=
  match e with EReceive _ => true | _ => false end.
Definition is_deliver (e : Effect) : bool :=
  match e with EDeliver _ _ _ => true | _ => false end.

Definition count (f : Effect -> bool) (l : list Effect) : nat :=
  List.length (filter f l).

Definition has_bit (act bit : N) : bool := negb (N.eqb (N.land act bit) 0).

Section Lifecycle.
Variable server_flags     : URL -> N.
Variable protocol_version : URL -> N.
Variable sid_alloc        : URL -> option N.
Variable url_ok           : string -> N -> bool.
Variable errNo_default    : N.

(** The references after the handler ran, given those it kept and the
    effects it caused. *)
Definition refs_after (c : Conf) (s' : HState) (inq outq task : bool) : Conf :=
  let nw := skipn (List.length (fx (c_h c))) (fx s') in
  mkConf s' (inq || existsb is_receive nw) (outq || existsb is_send_ok nw)
         (task || existsb is_task nw).

Definition step (c : Conf) (e : HEvent) : Conf :=
  let s := c_h c in
  match e with
  | EvIncoming now outs msg =>
      if c_inq c then
        let '(act, _, s') := OnIncoming server_flags protocol_version sid_alloc url_ok
                               errNo_default now outs msg s in
        refs_after c s' (negb (has_bit act RemoveHandler)) (c_outq c) (c_task c)
      else c
  | EvStreamEvent now outs ev num st =>
      if c_inq c then
        let '(act, _, s') := OnStreamEvent errNo_default now outs ev num st s in
        refs_after c s' (negb (has_bit act RemoveHandler)) (c_outq c) (c_task c)
      else c
  | EvTimeout now outs =>
      if c_inq c then
        let '(_, _, s') := OnStreamEvent errNo_default now outs Timeout 0
                             (mkStatus stError errOperationExpired errNo_default) s in
        refs_after c s' false (c_outq c) (c_task c)
      else c
  | EvStatusReady now outs st =>
      if c_outq c then
        let '(_, s') := OnStatusReady errNo_default now outs st s in
        refs_after c s' (c_inq c) false (c_task c)
      else c
  | EvWaitDone now outs =>
      if c_task c then
        let '(_, s') := WaitDone errNo_default now outs s in
        refs_after c s' (c_inq c) (c_outq c) false
      else c
  end.

Definition run (c : Conf) (tr : list HEvent) : Conf := fold_left step tr c.

(** The initial configuration: the request has been handed to
    [PostMaster::Send] and waits in an out-queue. *)
Definition init_conf (h : Handler) : Conf := mkConf (mkHState h [] true) false true false.

(** Stream events are reported with a failure status
    ([Stream::OnError], [Stream::OnFatalError]). *)
Definition event_wf (e : HEvent) : bool :=
  match e with
  | EvStreamEvent _ _ _ _ st => negb (IsOK st)
  | _ => true
  end.
End Lifecycle.

(* ------------------------------------------------------------------ *)
(** ** [Stream::Send] and [Stream::EnableLink] (XrdClStream.cc) *)

Inductive SocketStatus := Disconnected | Connecting | Connected.

Definition socket_eqb (a b : SocketStatus) : bool :=
  match a, b with
  | Disconnected, Disconnected | Connecting, Connecting | Connected, Connected => true
  | _, _ => false
  end.

(** A [Message] is identified by [msg_id]; [msg_session] is
    [GetSessionId()]. *)
Record Message := mkMsg { msg_id : N; msg_session : N }.

(** An out-queue entry: [PushBack( msg, handler, expires, stateful )]. *)
Record OutEntry := mkOut {
  oe_msg : Message; oe_handler : N; oe_expires : Z; oe_stateful : bool
}.

Record SubStreamData := mkSub { ss_status : SocketStatus; ss_outQueue : list OutEntry }.

Record PathID := mkPath { up : N; down : N }.

Record Stream := mkStream {
  pSubStreams        : list SubStreamData;
  pSessionId         : N;
  pLastStreamError   : Z;
  pStreamErrorWindow : Z;
  pConnectionInitTime : Z;
  pConnectionCount   : N;
  pAddresses         : list N
}.

Definition noSub : SubStreamData := mkSub Disconnected [].

(** [pSubStreams[i]] *)
Definition sub (st : Stream) (i : N) : SubStreamData := nth (N.to_nat i) (pSubStreams st) noSub.

Definition set_subs (l : list SubStreamData) (st : Stream) : Stream :=
  mkStream l (pSessionId st) (pLastStreamError st) (pStreamErrorWindow st)
           (pConnectionInitTime st) (pConnectionCount st) (pAddresses st).

(** [l[n] := f l[n]]; an index past the end changes nothing. *)
Fixpoint update_nth {A} (n : nat) (f : A -> A) (l : list A) : list A :=
  match l, n with
  | [], _ => []
  | x :: tl, O => f x :: tl
  | x :: tl, S n' => x :: update_nth n' f tl
  end.

(** [pSubStreams[i] := f pSubStreams[i]] *)
Definition upd_sub (i : N) (f : SubStreamData -> SubStreamData) (st : Stream) : Stream :=
  set_subs (update_nth (N.to_nat i) f (pSubStreams st)) st.

Section StreamSend.
(** [pTransport->MultiplexSubStream( msg, *pChannelData [, &path] )]:
    the first call chooses a path, the second one may rewrite the path
    it is given. *)
Variable MultiplexSubStream : Message -> option PathID -> PathID.
(** [pSubStreams[i]->socket->EnableUplink()] *)
Variable EnableUplink : N -> Status.
(** [Utils::GetHostAddresses( pAddresses, *pUrl )] *)
Variable GetHostAddresses : Status * list N.
(** [pSubStreams[0]->socket->Connect( pConnectionWindow )] *)
Variable Connect : Status.
(** [::time(0)] *)
Variable now : Z.
Variable errNo_default : N.

Definition StatusS (l : StLevel) (c : ErrCode) : Status := mkStatus l c errNo_default.

Definition EnableLink (path : PathID) (st : Stream) : Status * PathID * Stream :=
  if socket_eqb (ss_status (sub st 0)) Connecting then (StatusS stOK errNone, path, st) else
  if socket_eqb (ss_status (sub st 0)) Connected then
    let path := if negb (socket_eqb (ss_status (sub st (down path))) Connected)
                then mkPath (up path) 0 else path in
    if socket_eqb (ss_status (sub st (up path))) Disconnected
    then (EnableUplink 0, mkPath 0 (down path), st)
    else if socket_eqb (ss_status (sub st (up path))) Connected
    then (EnableUplink (up path), path, st)
    else (StatusS stOK errNone, path, st)
  else
  if (now - pLastStreamError st <? pStreamErrorWindow st)%Z
  then (StatusS stFatal errConnectionError, path, st) else
  let st := mkStream (pSubStreams st) (pSessionId st) (pLastStreamError st)
                     (pStreamErrorWindow st) now (pConnectionCount st + 1)
                     (pAddresses st) in
  let '(rs, addrs) := GetHostAddresses in
  if negb (IsOK rs) then
    (mkStatus stFatal (code rs) (errNo rs), path,
     mkStream (pSubStreams st) (pSessionId st) now (pStreamErrorWindow st)
              (pConnectionInitTime st) (pConnectionCount st) addrs)
  else
  let st := mkStream (pSubStreams st) (pSessionId st) (pLastStreamError st)
                     (pStreamErrorWindow st) (pConnectionInitTime st)
                     (pConnectionCount st) (removelast addrs) in
  if IsOK Connect
  then (Connect, path, upd_sub 0 (fun s => mkSub Connecting (ss_outQueue s)) st)
  else (Connect, path, st).

Definition Send (msg : Message) (handler : N) (stateful : bool) (expires : Z)
           (st : Stream) : Status * Stream :=
  if negb (N.eqb (msg_session msg) 0)
     && (negb (socket_eqb (ss_status (sub st 0)) Connected)
         || negb (N.eqb (pSessionId st) (msg_session msg)))
  then (StatusS stError errInvalidSession, st) else
  let path := MultiplexSubStream msg None in
  let path := if N.leb (N.of_nat (List.length (pSubStreams st))) (up path)
              then mkPath 0 (down path) else path in
  let '(s, path, st) := EnableLink path st in
  if IsOK s then
    let path := MultiplexSubStream msg (Some path) in
    (s, upd_sub (up path)
                (fun x => mkSub (ss_status x) (ss_outQueue x ++ [mkOut msg handler expires stateful]))
                st)
  else (mkStatus stFatal (code s) (errNo s), st).
End StreamSend.

(** All the messages waiting in the out-queues of a stream. *)
Definition queued (st : Stream) : list Message :=
  map oe_msg (List.concat (map ss_outQueue (pSubStreams st))).

(* ------------------------------------------------------------------ *)
(** ** [DeepLocateHandler] (XrdClFileSystem.cc) *)

(** Modelled from the spec: the type of a [LocationInfo] entry, with
    [IsServer()] and [IsManager()] (XrdClXRootDResponses.hh). *)
Inductive LocationType := ManagerOnline | ManagerPending | ServerOnline | ServerPending.

(** Modelled from the spec: a [LocationInfo::Location]. *)
Record Location := mkLoc { loc_address : string; loc_type : LocationType }.

(** Modelled from the spec: [Location::IsServer()]. *)
Definition IsServer (l : Location) : bool :=
  match loc_type l with ServerOnline | ServerPending => true | _ => false end.

(** Modelled from the spec: [Location::IsManager()]. *)
Definition IsManager (l : Location) : bool :=
  match loc_type l with ManagerOnline | ManagerPending => true | _ => false end.

(** Modelled from the spec: [LocationInfo::Add( location )]
    (XrdClXRootDResponses.hh), the location list keeping every entry it
    is given, in order. *)
Definition LocationInfo_Add (l : list Location) (e : Location) : list Location := l ++ [e].

(** What the handler hands to the caller's [pHandler->HandleResponse]. *)
Definition Delivery := (Status * option (list Location))%type.

Record DLState := mkDL {
  pFirstTime   : bool;
  pOutstanding : N;              (* uint16_t *)
  pLocations   : list Location;
  dl_alive     : bool;           (* not yet [delete this] *)
  dl_out       : list Delivery;  (* calls of pHandler->HandleResponse *)
  dl_asked     : list string     (* managers asked by fs.Locate *)
}.

Definition two16 : N := 65536.

Section DeepLocate.
(** [FileSystem( address ).Locate( pPath, pFlags, this, 300 ).IsOK()] *)
Variable locate_ok : string -> bool.
(** [XRootDStatus()]: a success. *)
Variable okStatus : Status.

Definition dl_init : DLState := mkDL true 1 [] true [] [].

(** [new XRootDStatus( stError, errErrorResponse, kXR_NotFound,
    "No valid location found" )] *)
Definition notFoundStatus : Status := mkStatus stError errErrorResponse kXR_NotFound.

(** [HandleResponse()]: build the answer for the client, [delete this]. *)
Definition dl_answer (l : list Location) : Delivery :=
  match l with
  | [] => (notFoundStatus, None)
  | _ => (okStatus, Some l)
  end.

Definition dl_finish (s : DLState) : DLState :=
  mkDL (pFirstTime s) (pOutstanding s) (pLocations s) false
       (dl_out s ++ [dl_answer (pLocations s)]) (dl_asked s).

(** The loop over the entries of a successful answer. *)
Fixpoint dl_scan (entries : list Location) (s : DLState) : DLState :=
  match entries with
  | [] => s
  | e :: tl =>
      let s :=
        if IsServer e then
          mkDL (pFirstTime s) (pOutstanding s) (LocationInfo_Add (pLocations s) e) (dl_alive s)
               (dl_out s) (dl_asked s)
        else if IsManager e then
          mkDL (pFirstTime s)
               (if locate_ok (loc_address e) then (pOutstanding s + 1) mod two16
                else pOutstanding s)
               (pLocations s) (dl_alive s) (dl_out s) (dl_asked s ++ [loc_address e])
        else s in
      dl_scan tl s
  end.

(** [HandleResponse( status, response )] *)
Definition DL_HandleResponse (st : Status) (resp : option (list Location))
           (s : DLState) : DLState :=
  let s := mkDL (pFirstTime s) ((pOutstanding s + two16 - 1) mod two16)
                (pLocations s) (dl_alive s) (dl_out s) (dl_asked s) in
  if negb (IsOK st) then
    if pFirstTime s then
      mkDL (pFirstTime s) (pOutstanding s) (pLocations s) false
           (dl_out s ++ [(st, resp)]) (dl_asked s)
    else if N.eqb (pOutstanding s) 0 then dl_finish s
    else s
  else
    let s := mkDL false (pOutstanding s) (pLocations s) (dl_alive s) (dl_out s)
                  (dl_asked s) in
    let s := dl_scan (match resp with Some l => l | None => [] end) s in
    if N.eqb (pOutstanding s) 0 then dl_finish s else s.

(** The answers reaching the handler, in order; none reaches it once it
    has deleted itself. *)
Definition dl_run (tr : list (Status * option (list Location))) : DLState :=
  fold_left (fun s ev => if dl_alive s then DL_HandleResponse (fst ev) (snd ev) s else s)
            tr dl_init.
End DeepLocate.

(* ------------------------------------------------------------------ *)
(** ** Outcomes of one call of the handler *)

(** The handler either finished, with one delivery and no reference to
    it left, or lives on with exactly one new reference. *)
Definition settles (s s' : HState) : Prop :=
  exists nw, fx s' = fx s ++ nw /\
    ((alive s' = false /\ count is_deliver nw = 1%nat /\ count is_ref nw = 0%nat) \/
     (alive s' = true  /\ count is_deliver nw = 0%nat /\ count is_ref nw = 1%nat)).

(** The log grows by effects that neither deliver nor reference the
    handler. *)
Definition quiet (s0 s : HState) : Prop :=
  exists pre, fx s = fx s0 ++ pre /\ count is_deliver pre = 0%nat /\
              count is_ref pre = 0%nat /\ alive s = alive s0.

(** The outcome of one call of [OnIncoming]/[OnStreamEvent]: the handler
    is removed from the in-queue and settles, or it stays there untouched
    (its log unchanged). *)
Definition inq_outcome (s : HState) (act : N) (s' : HState) : Prop :=
  (has_bit act RemoveHandler = true /\ settles s s') \/
  (has_bit act RemoveHandler = false /\ fx s' = fx s /\ alive s' = true).

Definition nrefs (c : Conf) : nat :=
  (Nat.b2n (c_inq c) + Nat.b2n (c_outq c) + Nat.b2n (c_task c))%nat.

(** A live handler is referenced from exactly one place and has not
    delivered; a dead one is referenced from nowhere and delivered once. *)
Definition conf_ok (c : Conf) : Prop :=
  (alive (c_h c) = true  /\ nrefs c = 1%nat /\ count is_deliver (fx (c_h c)) = 0%nat) \/
  (alive (c_h c) = false /\ nrefs c = 0%nat /\ count is_deliver (fx (c_h c)) = 1%nat).


(* ------------------------------------------------------------------ *)
(** ** Concrete configurations *)

(** A server answering every query with 0, a SID manager handing out 7,
    every redirect target valid. *)
Definition ex_flags (u : URL) : N := 0.
Definition ex_sid (u : URL) : option N := Some 7.
Definition ex_urlok (h : string) (p : N) : bool := true.
(** A destination whose SID manager has no free SID left. *)
Definition ex_nosid (u : URL) : option N := None.

Definition ex_srv : URL := mkURL "srv.example" 1094 true.
Definition ex_lb  : URL := mkURL "lb.example" 1094 true.

(** A [kXR_locate] with [kXR_refresh] set, stream id 1, redirect
    counter [n], deadline 100. *)
Definition ex_req : ClientRequest := mkRequest 1 kXR_locate kXR_refresh 0 0 5 [] 0.
Definition ex_handler (n : N) (asAnswer : bool) : Handler :=
  mkHandler ex_req None [] ex_srv ex_srv (mkStatus stOK errNone 0) 100 asAnswer
            [host_of ex_srv] false (host_of noURL) "" [] n.
Definition ex_state (n : N) : HState := mkHState (ex_handler n false) [] true.

(** A [kXR_open] with [kXR_refresh] in [open.options] and mode 0644
    (0x1a4), stream id 1, in a handler otherwise like [ex_state 16]. *)
Definition ex_open_req : ClientRequest := mkRequest 1 kXR_open 420 kXR_refresh 0 5 [] 0.
Definition ex_open_state : HState :=
  mkHState (mkHandler ex_open_req None [] ex_srv ex_srv (mkStatus stOK errNone 0) 100 false
                      [host_of ex_srv] false (host_of noURL) "" [] 16) [] true.

(** A stream with two connected sub-streams bound to session 5, empty
    out-queues; a transport that always picks sub-stream 1 up and
    down; an uplink that can be enabled, and one that cannot. *)
Definition ex_stream : Stream :=
  mkStream [mkSub Connected []; mkSub Connected []] 5 0 10 0 1 [].
Definition ex_mss (m : Message) (p : option PathID) : PathID := mkPath 1 1.
Definition ex_uplink_ok (i : N) : Status := mkStatus stOK errNone 0.
Definition ex_uplink_err (i : N) : Status := mkStatus stError errSocketError 0.
Definition ex_gha : Status * list N := (mkStatus stOK errNone 0, []).
Definition ex_connect : Status := mkStatus stOK errNone 0.
Definition ex_msg : Message := mkMsg 42 5.

(** The same request, served by [ex_srv] after a redirect from the load
    balancer [ex_lb], which the handler remembers. *)
Definition ex_state_lb : HState :=
  mkHState (mkHandler ex_req None [] ex_srv ex_srv (mkStatus stOK errNone 0) 100 false
                      [host_of ex_lb; host_of ex_srv] true (host_of ex_lb) "" [] 15)
           [] true.

(** A request answered by one [kXR_oksofar] carrying [ex_part1] and a
    final [kXR_ok] carrying [ex_part2]; and the same request answered by
    one [kXR_ok] carrying the concatenation. *)
Definition ex_part1 : list byte := [x00; x00; x03; x00].
Definition ex_part2 : list byte := [x00; x00; x00; x01].
Definition ex_proto_req : ClientRequest := mkRequest 1 kXR_protocol 0 0 0 0 [] 0.
Definition ex_glued_handler (r : ClientRequest) (partials : list ServerResponse)
           (final : list byte) : Handler :=
  mkHandler r (Some (mkRsp 1 (Rok final) 0)) partials ex_srv ex_srv
            (mkStatus stOK errNone 0) 100 false [host_of ex_srv] false (host_of noURL) "" [] 16.

(** Two managers and a data server, for deep locate. *)
Definition ex_mgr1 : Location := mkLoc "m1.example:1094" ManagerOnline.
Definition ex_mgr2 : Location := mkLoc "m2.example:1094" ManagerOnline.
Definition ex_dsrv : Location := mkLoc "d1.example:1094" ServerOnline.
Definition ex_locate_ok (addr : string) : bool := true.
Definition ex_ok : Status := mkStatus stOK errNone 0.
Definition ex_err : Status := mkStatus stError errSocketError 0.

(** A [kXR_readv] of three chunks, the second one without a buffer, and
    a reply answering the first two of them followed by two stray bytes. *)
Definition ex_cl : list ChunkInfo :=
  [mkChunk 100 3 (Some 1); mkChunk 500 2 None; mkChunk 900 4 (Some 3)].
Definition ex_rs : list RChunk :=
  [mkRChunk [x00; x00; x00; x00] 100 [x61; x62; x63];
   mkRChunk [x00; x00; x00; x00] 500 [x64; x65]].
Definition ex_trailer : list byte := [x00; x00].
Definition ex_readv_handler (rs : list RChunk) : Handler :=
  mkHandler (mkRequest 1 kXR_readv 0 0 0 0 [] 0)
            (Some (mkRsp 1 (Rok (readv_body rs ++ ex_trailer)) 0)) [] ex_srv ex_srv
            (mkStatus stOK errNone 0) 100 false [host_of ex_srv] false (host_of noURL) "" ex_cl 16.

(* ------------------------------------------------------------------ *)
(** ** A chain of redirects *)

(** The URLs the handler sent the request to, in order. *)
Definition sends (l : list Effect) : list URL :=
  flat_map (fun e => match e with ESend u _ _ => [u] | _ => [] end) l.


(* ------------------------------------------------------------------ *)
(** ** Deep-locate deliveries *)

(** The server entries of the successful answers among [P], in order. *)
Definition found (P : list Delivery) : list Location :=
  flat_map (fun e => if IsOK (fst e) then filter IsServer (match snd e with Some l => l | None => [] end)
                     else []) P.

(** What holds of the deep-locate handler after the answers [P] were
    offered to it. *)
Definition dl_inv (okStatus : Status) (P : list Delivery) (s : DLState) : Prop :=
  (exists k, (k <= List.length P)%nat /\ pLocations s = found (firstn k P) /\
             (dl_alive s = true -> k = List.length P)) /\
  ((pFirstTime s = true /\ dl_alive s = true /\ dl_out s = [] /\ P = []) \/
   (pFirstTime s = false /\ dl_alive s = true /\ dl_out s = []) \/
   (dl_alive s = false /\ dl_out s = [dl_answer okStatus (pLocations s)]) \/
   (dl_alive s = false /\ exists e, hd_error P = Some e /\ IsOK (fst e) = false /\ dl_out s = [e])).

(* ------------------------------------------------------------------ *)
(** ** [InQueue] (XrdClInQueue.cc) *)

(** [l] is [l'] with some of its elements left out, in order. *)
Inductive subseq {A : Type} : list A -> list A -> Prop :=
  | subseq_nil : subseq [] []
  | subseq_skip x l l' : subseq l l' -> subseq l (x :: l')
  | subseq_keep x l l' : subseq l l' -> subseq (x :: l) (x :: l').

Section InQueue.
(** The queue holds pointers to handlers ([IncomingMsgHandler*]) and to
    messages ([Message*]); what a handler does when it is called acts on
    the rest of the program, [W]. *)
Context {Hnd Msg W : Type}.
(** [handler->OnIncoming( msg )]: the action bit mask. *)
Variable hOnIncoming : Hnd -> Msg -> W -> N * W.
(** [handler->OnStreamEvent( event, streamNum, status )] *)
Variable hOnStreamEvent : Hnd -> StreamEvent -> N -> Status -> W -> N * W.
(** [::time(0)] *)
Variable clock : Z.
Variable errNo_default : N.

Record InQueue := mkInQ {
  pMessages : list Msg;        (* std::list<Message*> *)
  pHandlers : list (Hnd * Z)   (* HandlerList: (handler, expires) *)
}.

(** The [for] loop of [AddMessage]; [action] is the last action
    returned. A handler answering [RemoveHandler] is erased (the
    [erase]/[--it] pair resumes the scan at the next handler), one
    answering [Take] ends the scan. *)
Fixpoint AddMessage_loop (msg : Msg) (hl : list (Hnd * Z)) (action : N) (w : W)
  : list (Hnd * Z) * N * W :=
  match hl with
  | [] => ([], action, w)
  | he :: tl =>
      let '(a, w) := hOnIncoming (fst he) msg w in
      let kept := if has_bit a RemoveHandler then [] else [he] in
      if has_bit a Take then (kept ++ tl, a, w)
      else let '(tl', a', w') := AddMessage_loop msg tl a w in (kept ++ tl', a', w')
  end.

(** [AddMessage( msg )]: a message nobody takes is kept at the front. *)
Definition AddMessage (msg : Msg) (q : InQueue) (w : W) : bool * InQueue * W :=
  let '(hl, action, w) := AddMessage_loop msg (pHandlers q) 0 w in
  (true, mkInQ (if has_bit action Take then pMessages q else msg :: pMessages q) hl, w).

(** The [for] loop of [AddMessageHandler]: a message the handler takes
    is erased, [RemoveHandler] ends the scan. *)
Fixpoint AddMessageHandler_loop (h : Hnd) (ml : list Msg) (action : N) (w : W)
  : list Msg * N * W :=
  match ml with
  | [] => ([], action, w)
  | m :: tl =>
      let '(a, w) := hOnIncoming h m w in
      let kept := if has_bit a Take then [] else [m] in
      if has_bit a RemoveHandler then (kept ++ tl, a, w)
      else let '(tl', a', w') := AddMessageHandler_loop h tl a w in (kept ++ tl', a', w')
  end.

(** [AddMessageHandler( handler, expires )] *)
Definition AddMessageHandler (h : Hnd) (expires : Z) (q : InQueue) (w : W) : InQueue * W :=
  let '(ml, action, w) := AddMessageHandler_loop h (pMessages q) 0 w in
  (mkInQ ml (if has_bit action RemoveHandler then pHandlers q
             else pHandlers q ++ [(h, expires)]), w).

Fixpoint ReportStreamEvent_loop (ev : StreamEvent) (num : N) (st : Status)
         (hl : list (Hnd * Z)) (w : W) : list (Hnd * Z) * W :=
  match hl with
  | [] => ([], w)
  | he :: tl =>
      let '(a, w) := hOnStreamEvent (fst he) ev num st w in
      let '(tl', w) := ReportStreamEvent_loop ev num st tl w in
      ((if has_bit a RemoveHandler then [] else [he]) ++ tl', w)
  end.

(** [ReportStreamEvent( event, streamNum, status )] *)
Definition ReportStreamEvent (ev : StreamEvent) (num : N) (st : Status) (q : InQueue) (w : W)
  : InQueue * W :=
  let '(hl, w) := ReportStreamEvent_loop ev num st (pHandlers q) w in
  (mkInQ (pMessages q) hl, w).

Fixpoint ReportTimeout_loop (now : Z) (hl : list (Hnd * Z)) (w : W) : list (Hnd * Z) * W :=
  match hl with
  | [] => ([], w)
  | he :: tl =>
      if (snd he <=? now)%Z then
        let '(_, w) := hOnStreamEvent (fst he) Timeout 0
                         (mkStatus stError errOperationExpired errNo_default) w in
        ReportTimeout_loop now tl w
      else let '(tl', w) := ReportTimeout_loop now tl w in (he :: tl', w)
  end.

(** [ReportTimeout( now )]; [now = 0] stands for the current time. *)
Definition ReportTimeout (now : Z) (q : InQueue) (w : W) : InQueue * W :=
  let now := if (now =? 0)%Z then clock else now in
  let '(hl, w) := ReportTimeout_loop now (pHandlers q) w in
  (mkInQ (pMessages q) hl, w).
End InQueue.

(* ------------------------------------------------------------------ *)
(** ** [Stream::OnConnect] and [Stream::OnFatalError] (XrdClStream.cc) *)

(** Modelled from the spec: [OutQueue::GrabItems( other )]
    (XrdClOutQueue.cc) moves every item of [other], in order, to the back
    of this queue; [other] is left empty. *)
Definition GrabItems (q other : list OutEntry) : list OutEntry := q ++ other.

Inductive ChannelEvent := StreamBroken | ChannelFatalError.

(** What the stream does to the rest of the client, in order. *)
Inductive StreamEffect :=
  | SReport (e : OutEntry) (st : Status)
      (* OutQueue::Report: the entry's handler gets OnStatusReady( msg, st ) *)
  | SInQueueEvent (ev : StreamEvent) (num : N) (st : Status)
      (* pIncomingQueue->ReportStreamEvent( event, pStreamNum, status ) *)
  | SChannelEvent (ev : ChannelEvent) (st : Status) (num : N)
      (* pChannelEvHandlers.ReportEvent( event, status, pStreamNum ) *)
  | SRegisterTask (at_time : Z).
      (* pTaskManager->RegisterTask( new StreamConnectorTask( this ), at_time ) *)

Section StreamEvents.
(** [::time(0)] *)
Variable now : Z.
Variable pStreamNum : N.
(** [pTransport->SubStreamNumber( *pChannelData )] *)
Variable SubStreamNumber : N.
(** [pSubStreams[i]->socket->Connect( pConnectionWindow )] *)
Variable ConnectSub : N -> Status.

(** [OnFatalError( subStream, status, lock )]: every out-queue is
    drained, sub-stream 0 first, and the items are reported with the
    status made fatal. *)
Definition OnFatalError (subStream : N) (status : Status) (st : Stream)
  : Stream * list StreamEffect :=
  let st := upd_sub subStream (fun s => mkSub Disconnected (ss_outQueue s)) st in
  let st := mkStream (pSubStreams st) (pSessionId st) now (pStreamErrorWindow st)
                     (pConnectionInitTime st) 0 (pAddresses st) in
  let q := fold_left (fun q s => GrabItems q (ss_outQueue s)) (pSubStreams st) [] in
  let st := set_subs (map (fun s => mkSub (ss_status s) []) (pSubStreams st)) st in
  let status := mkStatus stFatal (code status) (errNo status) in
  (st, map (fun e => SReport e status) q ++
       [SInQueueEvent FatalError pStreamNum status;
        SChannelEvent ChannelFatalError status pStreamNum]).

(** The [for] loop of [OnConnect] over the sub-streams [i], [i+1], ...
    ([k] of them): a sub-stream that cannot start connecting gives its
    out-queue to sub-stream 0 and has its socket closed, the others are
    marked [Connecting]. *)
Fixpoint connect_subs (i : N) (k : nat) (st : Stream) : Stream :=
  match k with
  | O => st
  | S k' =>
      let st :=
        if IsOK (ConnectSub i) then upd_sub i (fun s => mkSub Connecting (ss_outQueue s)) st
        else
          let items := ss_outQueue (sub st i) in
          upd_sub i (fun s => mkSub (ss_status s) [])
                  (upd_sub 0 (fun s => mkSub (ss_status s) (GrabItems (ss_outQueue s) items)) st) in
      connect_subs (i + 1) k' st
  end.

(** [OnConnect( subStream )]. The session counter [pSessionId] is an
    unbounded number here (its width is set in XrdClStream.hh). *)
Definition OnConnect (subStream : N) (st : Stream) : Stream :=
  let st := upd_sub subStream (fun s => mkSub Connected (ss_outQueue s)) st in
  if negb (N.eqb subStream 0) then st else
  let st := mkStream (pSubStreams st) (pSessionId st + 1) 0 (pStreamErrorWindow st)
                     (pConnectionInitTime st) 0 (pAddresses st) in
  let numSub := SubStreamNumber in
  let st := if Nat.eqb (List.length (pSubStreams st)) 1 && N.ltb 1 numSub
            then set_subs (pSubStreams st ++ repeat noSub (N.to_nat numSub - 1)) st
            else st in
  if Nat.ltb 1 (List.length (pSubStreams st))
  then connect_subs 1 (List.length (pSubStreams st) - 1) st
  else st.
End StreamEvents.

Section StreamErrors.
(** [::time(0)] *)
Variable now : Z.
Variable pStreamNum : N.
(** [pSubStreams[0]->socket->EnableUplink()] *)
Variable EnableUplink : N -> Status.
(** [Utils::GetHostAddresses( pAddresses, *pUrl )] and
    [pSubStreams[0]->socket->Connect( pConnectionWindow )], as seen by
    [EnableLink]. *)
Variable GetHostAddresses : Status * list N.
Variable Connect : Status.
(** [pSubStreams[0]->socket->Connect( pConnectionWindow-elapsed )] after
    [SetAddress] with the last address left. *)
Variable ConnectNext : Status.
(** [pConnectionWindow] and [pConnectionRetry], set when the stream is
    built. *)
Variable pConnectionWindow : Z.
Variable pConnectionRetry : N.
Variable errNo_default : N.

Definition set_addresses (l : list N) (st : Stream) : Stream :=
  mkStream (pSubStreams st) (pSessionId st) (pLastStreamError st) (pStreamErrorWindow st)
           (pConnectionInitTime st) (pConnectionCount st) l.

(** [OnConnectError( subStream, st )]. *)
Definition OnConnectError (subStream : N) (status : Status) (st : Stream)
  : Stream * list StreamEffect :=
  let fatalConn := StatusS errNo_default stFatal errConnectionError in
  if negb (N.eqb subStream 0) then
    let st := upd_sub subStream (fun s => mkSub Disconnected (ss_outQueue s)) st in
    let items := ss_outQueue (sub st subStream) in
    let st := upd_sub subStream (fun s => mkSub (ss_status s) [])
                (upd_sub 0 (fun s => mkSub (ss_status s) (GrabItems (ss_outQueue s) items)) st) in
    if socket_eqb (ss_status (sub st 0)) Connected then
      let r := EnableUplink 0 in
      if negb (IsOK r) then OnFatalError now pStreamNum 0 r st else (st, [])
    else if socket_eqb (ss_status (sub st 0)) Connecting then (st, [])
    else OnFatalError now pStreamNum subStream status st
  else
  let elapsed := (now - pConnectionInitTime st)%Z in
  if (elapsed <? pConnectionWindow)%Z then
    match pAddresses st with
    | _ :: _ =>
        let st := set_addresses (removelast (pAddresses st)) st in
        if negb (IsOK ConnectNext) then OnFatalError now pStreamNum subStream ConnectNext st
        else (st, [])
    | [] =>
        if N.ltb (pConnectionCount st) pConnectionRetry
        then (st, [SRegisterTask (pConnectionInitTime st + pConnectionWindow)])
        else OnFatalError now pStreamNum subStream fatalConn st
    end
  else
  if N.ltb (pConnectionCount st) pConnectionRetry then
    let st := set_addresses [] st in
    let st := upd_sub 0 (fun s => mkSub Disconnected (ss_outQueue s)) st in
    let '(r, _, st) := EnableLink EnableUplink GetHostAddresses Connect now errNo_default
                                  (mkPath 0 0) st in
    if negb (IsOK r) then OnFatalError now pStreamNum subStream fatalConn st else (st, [])
  else OnFatalError now pStreamNum subStream fatalConn st.
End StreamErrors.

(** The out-queue entries a list of stream effects reports to their
    handlers. *)
Definition reported (effs : list StreamEffect) : list OutEntry :=
  flat_map (fun e => match e with SReport oe _ => [oe] | _ => [] end) effs.

(** A fatal socket error; a stream whose main sub-stream is connecting,
    bound to session 5, with one message queued; a transport whose
    sub-stream 1 connects and whose others do not. *)
Definition ex_fatal : Status := mkStatus stError errSocketError 0.
Definition ex_connect_sub (i : N) : Status :=
  if (i =? 1) then mkStatus stOK errNone 0 else mkStatus stError errSocketError 0.
Definition ex_connecting : Stream :=
  mkStream [mkSub Connecting [mkOut ex_msg 3 60 false]] 5 7 10 0 2 [].
(** A connected sub-stream 0 with one queued message, and a second
    sub-stream, still connecting, with two. *)
Definition ex_two_subs : Stream :=
  mkStream [mkSub Connected [mkOut ex_msg 1 60 false];
            mkSub Connecting [mkOut ex_msg 2 60 false; mkOut ex_msg 3 60 true]] 5 7 10 0 1 [].

(* ------------------------------------------------------------------ *)
(** ** [FileSystem::DirList] with [DirListFlags::Locate] (XrdClFileSystem.cc) *)

Section DirListLocate.
(** A [DirectoryList::ListEntry]. *)
Context {Entry : Type}.
(** The success code [suPartial] (XrdClStatus.hh). *)
Variable suPartial : ErrCode.
(** The [errNo] of [XRootDStatus( st, code )]. *)
Variable errNo_default : N.
(** [DeepLocate( "*" + path, OpenFlags::None, locations )]: its status
    and the locations found. *)
Variable DeepLocate_result : Status * list Location.
(** [FileSystem( address ).DirList( path, flags, currentResp, timeout )]
    with [DirListFlags::Locate] cleared: the status and the entries of
    [currentResp]. *)
Variable DirList_at : string -> Status * list Entry.

(** The [for] loop over the locations: a server whose listing fails
    sets [errors] and is skipped; a listing that is only partial sets
    [errors]; the entries of every listing obtained are appended to
    [response], in order. *)
Fixpoint dirlist_loop (locs : list Location) (errors : bool) (response : list Entry)
  : bool * list Entry :=
  match locs with
  | [] => (errors, response)
  | l :: tl =>
      let '(st, currentResp) := DirList_at (loc_address l) in
      if negb (IsOK st) then dirlist_loop tl true response
      else dirlist_loop tl (errors || code_eqb (code st) suPartial) (response ++ currentResp)
  end.

(** The [DirListFlags::Locate] branch of the synchronous [DirList]: the
    status and the listing it hands back in [response], if any. *)
Definition DirList_locate : Status * option (list Entry) :=
  let '(st, locations) := DeepLocate_result in
  if negb (IsOK st) then (st, None) else
  match locations with
  | [] => (mkStatus stError errNotFound errNo_default, None)
  | _ =>
      let '(errors, response) := dirlist_loop locations false [] in
      if errors then (mkStatus stOK suPartial errNo_default, Some response)
      else (mkStatus stOK errNone errNo_default, Some response)
  end.
End DirListLocate.

(** Two servers hold the directory; the first lists entries 1 and 2,
    the second cannot be listed. *)
Definition ex_deep : Status * list Location :=
  (mkStatus stOK errNone 0, [mkLoc "ds1.example" ServerOnline; mkLoc "ds2.example" ServerOnline]).
Definition ex_dirlist_at (addr : string) : Status * list N :=
  if String.eqb addr "ds1.example" then (mkStatus stOK errNone 0, [1; 2])
  else (mkStatus stError errSocketError 0, []).

(* ================================================================== *)
(** * Properties *)

(** ** The effect log only grows *)

Lemma fx_upd f s : fx (upd f s) = fx s.
Proof. reflexivity. Qed.
Lemma alive_upd f s : alive (upd f s) = alive s.
Proof. reflexivity. Qed.
Lemma fx_emit e s : fx (emit e s) = fx s ++ [e].
Proof. reflexivity. Qed.
Lemma alive_emit e s : alive (emit e s) = alive s.
Proof. reflexivity. Qed.

Lemma count_app f l1 l2 : count f (l1 ++ l2) = (count f l1 + count f l2)%nat.
Proof. unfold count. rewrite filter_app, length_app. reflexivity. Qed.

Lemma count_cons f e l :
  count f (e :: l) = ((if f e then 1 else 0) + count f l)%nat.
Proof. unfold count. simpl. destruct (f e); reflexivity. Qed.

Lemma count_nil f : count f [] = 0%nat.
Proof. reflexivity. Qed.

Lemma count_copies f cs :
  (forall c, f (ECopy c) = false) -> count f (map ECopy cs) = 0%nat.
Proof.
  intros Hf. induction cs as [|c cs IH]; [reflexivity|].
  simpl map. rewrite count_cons, Hf, IH. reflexivity.
Qed.


(** [HandleResponse] logs the copies, then the SID release or time-out,
    then the delivery, and kills the handler. *)
Lemma fold_dlen (P : list ServerResponse) a :
  fold_left (fun acc p => acc + rsp_dlen p) P a
  = a + N.of_nat (List.length (List.concat (map rsp_data P))).
Proof.
  revert a. induction P as [|p P IH]; intros a; simpl.
  - lia.
  - rewrite IH. unfold rsp_dlen. rewrite length_app. lia.
Qed.

Lemma code_eqb_expired c : code_eqb c errOperationExpired = true <-> c = errOperationExpired.
Proof. destruct c; simpl; split; congruence. Qed.

Lemma HandleResponse_shape d s :
  exists copies st resp,
    fx (HandleResponse d s) =
      fx s ++ map ECopy copies ++
        [ (if negb (IsOK st) && code_eqb (code st) errOperationExpired
           then ETimeOutSID else EReleaseSID) (pSidMgr (hs s)) (streamid (pRequest (hs s)));
          EDeliver st resp (pHosts (hs s)) ]
    /\ alive (HandleResponse d s) = false
    /\ hs (HandleResponse d s) = hs s.
Proof.
  unfold HandleResponse.
  destruct (if IsOK (ProcessStatus (hs s)) then _ else _) as [[st resp] copies].
  exists copies, st, resp. simpl.
  destruct (negb (IsOK st) && code_eqb (code st) errOperationExpired); auto.
Qed.

Lemma HandleResponse_settles d s : settles s (HandleResponse d s).
Proof.
  destruct (HandleResponse_shape d s) as (cs & st & resp & Hfx & Hal & _).
  eexists; split; [exact Hfx|]. left. split; [exact Hal|].
  rewrite !count_app, !count_copies by reflexivity.
  destruct (negb (IsOK st) && code_eqb (code st) errOperationExpired); split; reflexivity.
Qed.

Lemma settles_pre e s s' :
  is_deliver e = false -> is_ref e = false ->
  settles (emit e s) s' -> settles s s'.
Proof.
  intros Hd Hr (nw & Hfx & H). exists (e :: nw). split.
  - rewrite Hfx, fx_emit, <- app_assoc. reflexivity.
  - rewrite !count_cons, Hd, Hr. exact H.
Qed.

Lemma settles_upd f s s' : settles s s' -> settles s (upd f s').
Proof. intros (nw & Hfx & H). exists nw. split; [exact Hfx| exact H]. Qed.

Lemma settles_upd_l f s s' : settles (upd f s) s' -> settles s s'.
Proof. intros (nw & Hfx & H). exists nw. split; [exact Hfx| exact H]. Qed.

Lemma settles_sent u sid s :
  alive s = true -> settles s (emit (ESend u sid true) s).
Proof.
  intros Hal. exists [ESend u sid true]. split; [reflexivity|].
  right. rewrite alive_emit. auto.
Qed.

(** A state with the same log, still alive, that sends successfully. *)
Lemma settles_sent' s0 s u sid :
  fx s = fx s0 -> alive s = true -> settles s0 (emit (ESend u sid true) s).
Proof.
  intros Hfx Hal. exists [ESend u sid true]. split.
  - rewrite fx_emit, Hfx. reflexivity.
  - right. rewrite alive_emit. auto.
Qed.
Lemma settles_HR d s0 s :
  fx s = fx s0 -> settles s0 (HandleResponse d s).
Proof.
  intros Hfx. destruct (HandleResponse_settles d s) as (nw & H1 & H2).
  exists nw. rewrite H1, Hfx. auto.
Qed.
Lemma settles_retry' d now tl o u sid s0 s
  (IH : forall st s, alive s = true -> IsOK st = false ->
        settles s (snd (HandleError d now tl st s))) :
  fx s = fx s0 -> alive s = true ->
  settles s0 (snd (HandleError d now tl o (emit (ESend u sid (IsOK o)) s))).
Proof.
  intros Hfx Hal. destruct (IsOK o) eqn:Ho.
  - destruct tl; simpl; rewrite Ho; apply settles_sent'; assumption.
  - destruct (IH o (emit (ESend u sid false) s) Hal Ho) as (nw & H1 & H2).
    exists (ESend u sid false :: nw). split.
    + rewrite H1, fx_emit, Hfx, <- app_assoc. reflexivity.
    + rewrite !count_cons. exact H2.
Qed.
(** One step of the case analysis of [HandleError]. *)
Ltac settle_step IH Hal :=
  simpl;
  first [ apply settles_HR; reflexivity
        | apply settles_upd; settle_step IH Hal
        | apply settles_sent'; [reflexivity | exact Hal]
        | apply settles_retry'; [exact IH | reflexivity | exact Hal]
        | match goal with
          | |- context [HandleError ?d ?n ?t ?o ?x] =>
              pose proof (settles_retry' d n t o) as Hr;
              destruct (HandleError d n t o x) eqn:E;
              simpl; apply settles_upd;
              match type of E with
              | HandleError _ _ _ _ (emit (ESend ?u ?sid _) ?y) = _ =>
                  match goal with
                  | |- settles ?s0 _ =>
                      specialize (Hr u sid s0 y IH eq_refl Hal); rewrite E in Hr; exact Hr
                  end
              end
          end ].
(** Every failure handled by [HandleError] settles the handler. *)
Lemma HandleError_settles d now outs :
  forall st s, alive s = true -> IsOK st = false ->
  settles s (snd (HandleError d now outs st s)).
Proof.
  induction outs as [|o tl IH]; intros st s Hal Hok; simpl; rewrite Hok.
  - repeat match goal with
           | |- context [if ?b then _ else _] => destruct b
           end; settle_step IH Hal.
  - repeat match goal with
           | |- context [if ?b then _ else _] => destruct b
           end; settle_step IH Hal.
Qed.

(** ** Life cycle of a handler *)

Lemma quiet_refl s : quiet s s.
Proof. exists []. rewrite app_nil_r. auto. Qed.

Lemma quiet_upd f s0 s : quiet s0 s -> quiet s0 (upd f s).
Proof. intros (pre & H). exists pre. exact H. Qed.

Lemma quiet_emit e s0 s :
  is_deliver e = false -> is_ref e = false -> quiet s0 s -> quiet s0 (emit e s).
Proof.
  intros Hd Hr (pre & Hfx & H1 & H2 & H3). exists (pre ++ [e]).
  rewrite fx_emit, Hfx, <- app_assoc, !count_app, !count_cons, Hd, Hr, H1, H2.
  auto.
Qed.

Lemma settles_quiet s0 s s' : quiet s0 s -> settles s s' -> settles s0 s'.
Proof.
  intros (pre & Hfx & H1 & H2 & _) (nw & Hfx' & H). exists (pre ++ nw). split.
  - rewrite Hfx', Hfx, app_assoc. reflexivity.
  - rewrite !count_app, H1, H2. exact H.
Qed.

Lemma RetryAndHandle_settles d now outs u s :
  alive s = true -> settles s (snd (RetryAndHandle d now outs u s)).
Proof.
  intros Hal. unfold RetryAndHandle. destruct outs as [|o tl]; simpl.
  - apply settles_sent'; [reflexivity| exact Hal].
  - apply settles_retry'; [intros; apply HandleError_settles; assumption
                          | reflexivity | exact Hal].
Qed.

Lemma RewriteRequestRedirect_quiet sa d cgi s :
  quiet s (snd (RewriteRequestRedirect sa d cgi s)).
Proof.
  unfold RewriteRequestRedirect.
  assert (H1 : quiet s (emit (EReleaseSID (pSidMgr (hs s)) (streamid (pRequest (hs s))))
                             (upd (set_pSidMgr (pUrl (hs s))) s))).
  { apply quiet_emit; [reflexivity|reflexivity|]. apply quiet_upd, quiet_refl. }
  destruct (sa (pUrl (hs s))) as [sid|]; [|exact H1].
  destruct cgi; simpl snd; repeat apply quiet_upd; apply quiet_emit; try reflexivity;
    apply quiet_upd; exact H1.
Qed.

Lemma quiet_same s0 s1 s :
  fx s1 = fx s0 -> alive s1 = alive s0 -> quiet s1 s -> quiet s0 s.
Proof.
  intros H1 H2 (pre & Hfx & Hd & Hr & Hal). exists pre.
  rewrite Hfx, H1, Hal, H2. auto.
Qed.

Lemma finish_outcome d st outs s0 s :
  quiet s0 s ->
  let '(act, _, s') := finish d st outs s in inq_outcome s0 act s'.
Proof.
  intros Hq. unfold finish. left. split; [reflexivity|].
  apply (settles_quiet s0 s); [exact Hq|]. apply settles_HR; reflexivity.
Qed.

Lemma OnIncoming_body_outcome sf pv sa uok d now outs :
  forall body sid session s, alive s = true ->
  let '(act, _, s') := OnIncoming_body sf pv sa uok d now outs sid body session s in
  inq_outcome s act s'.
Proof.
  fix IH 1. intros body sid session s Hal.
  destruct body as [data|data|errnum msg|port host cgi|secs info|secs|actnum emb|other];
    cbn [OnIncoming_body].
  7: { destruct (negb (actnum =? kXR_asynresp)); [right; auto|].
       destruct emb as [esid ebody esession].
       destruct (negb (esid =? streamid (pRequest (hs s)))); [right; auto|].
       apply IH; exact Hal. }
  all: destruct (negb (sid =? streamid (pRequest (hs s)))); [right; auto|].
  all: try (apply finish_outcome; repeat apply quiet_upd; apply quiet_refl).
  - (* kXR_oksofar *)
    right. auto.
  - (* kXR_error *)
    match goal with
    | |- context [HandleError ?d ?n ?o ?st ?x] =>
        pose proof (HandleError_settles d n o st x Hal eq_refl) as Hs;
        destruct (HandleError d n o st x) as [o' s'] eqn:E
    end.
    simpl in Hs. left. split; [reflexivity|].
    apply settles_upd_l in Hs. apply settles_upd_l in Hs. exact Hs.
  - (* kXR_redirect *)
    destruct (_ =? 0).
    { apply finish_outcome; repeat apply quiet_upd; apply quiet_refl. }
    destruct (negb _).
    { apply finish_outcome; repeat apply quiet_upd; apply quiet_refl. }
    destruct cgi as [[raw params]|]; cbv beta iota;
    (destruct (pRedirectAsAnswer _);
     [ apply finish_outcome; repeat apply quiet_upd; apply quiet_refl |]);
    match goal with
    | |- context [RewriteRequestRedirect ?a ?b ?c ?x] =>
        pose proof (RewriteRequestRedirect_quiet a b c x) as Hq;
        destruct (RewriteRequestRedirect a b c x) as [[st|] s'] eqn:E; simpl in Hq
    end.
    all: first
    [ apply finish_outcome; eapply quiet_same; [reflexivity|reflexivity|exact Hq]
    | match goal with
      | |- context [RetryAndHandle ?d ?n ?o ?u ?x] =>
          assert (Hx : alive x = true)
            by (destruct Hq as (pre & _ & _ & _ & Ha); simpl; rewrite Ha; exact Hal);
          pose proof (RetryAndHandle_settles d n o u x Hx) as Hs;
          destruct (RetryAndHandle d n o u x) as [o' s3] eqn:E2
      end;
      simpl in Hs; left; split; [reflexivity|];
      apply settles_upd_l in Hs;
      eapply settles_quiet; [|exact Hs];
      eapply quiet_same; [reflexivity|reflexivity|exact Hq] ].
  - (* kXR_wait *)
    left. split; [reflexivity|]. exists [ERegisterTask (now + secs)].
    split; [reflexivity|]. right. cbn. auto.
  - (* kXR_waitresp *)
    right. auto.
Qed.

Lemma OnStreamEvent_outcome d now outs ev num st s :
  alive s = true -> IsOK st = false ->
  let '(act, _, s') := OnStreamEvent d now outs ev num st s in inq_outcome s act s'.
Proof.
  intros Hal Hok. unfold OnStreamEvent.
  destruct ev; [right; auto| | |]; (destruct (negb (num =? 0)); [right; auto|]);
  (pose proof (HandleError_settles d now outs st s Hal Hok) as Hs;
   destruct (HandleError d now outs st s) as [o' s']; left; auto).
Qed.

Lemma OnStatusReady_settles d now outs st s :
  alive s = true -> settles s (snd (OnStatusReady d now outs st s)).
Proof.
  intros Hal. unfold OnStatusReady. destruct (IsOK st) eqn:Hok.
  - exists [EReceive (pUrl (hs s))]. split; [reflexivity|]. right. auto.
  - apply HandleError_settles; assumption.
Qed.

Lemma WaitDone_settles d now outs s :
  alive s = true -> settles s (snd (WaitDone d now outs s)).
Proof. intros Hal. apply RetryAndHandle_settles. exact Hal. Qed.

Lemma is_ref_split e :
  is_ref e = (is_receive e || is_send_ok e || is_task e) /\
  (Nat.b2n (is_receive e) + Nat.b2n (is_send_ok e) + Nat.b2n (is_task e) <= 1)%nat.
Proof. destruct e as [u sid [|]| | | | | | |]; simpl; auto. Qed.

Lemma no_refs nw :
  count is_ref nw = 0%nat ->
  existsb is_receive nw = false /\ existsb is_send_ok nw = false /\ existsb is_task nw = false.
Proof.
  induction nw as [|e tl IH]; [auto|].
  rewrite count_cons. destruct (is_ref_split e) as [He _]. simpl.
  destruct (is_ref e) eqn:Hr; [discriminate|]. intros H.
  symmetry in He. apply orb_false_iff in He as [He Ht]. apply orb_false_iff in He as [Hv Hs].
  rewrite Hv, Hs, Ht. apply IH. exact H.
Qed.

Lemma one_ref nw :
  count is_ref nw = 1%nat ->
  (Nat.b2n (existsb is_receive nw) + Nat.b2n (existsb is_send_ok nw)
   + Nat.b2n (existsb is_task nw))%nat = 1%nat.
Proof.
  induction nw as [|e tl IH]; [discriminate|].
  rewrite count_cons. destruct (is_ref_split e) as [He Hle]. simpl.
  destruct (is_ref e) eqn:Hr.
  - intros H. assert (H0 : count is_ref tl = 0%nat) by lia.
    destruct (no_refs tl H0) as (A & B & C). rewrite A, B, C, !orb_false_r.
    destruct (is_receive e), (is_send_ok e), (is_task e); simpl in *;
      try discriminate; lia.
  - intros H. symmetry in He.
    apply orb_false_iff in He as [He Ht]. apply orb_false_iff in He as [Hv Hs].
    rewrite Hv, Hs, Ht. apply IH. exact H.
Qed.

Lemma skipn_log (l nw : list Effect) : skipn (List.length l) (l ++ nw) = nw.
Proof. rewrite skipn_app, skipn_all, Nat.sub_diag. reflexivity. Qed.

(** After the single reference was consumed by the event, the handler
    settled. *)
Lemma conf_ok_settled (c : Conf) s' :
  count is_deliver (fx (c_h c)) = 0%nat -> settles (c_h c) s' ->
  conf_ok (refs_after c s' false false false).
Proof.
  intros H0 (nw & Hfx & H). unfold refs_after, conf_ok, nrefs. simpl.
  rewrite Hfx, skipn_log, count_app, H0. simpl.
  destruct H as [(Hal & Hd & Hr) | (Hal & Hd & Hr)].
  - right. destruct (no_refs nw Hr) as (A & B & C). rewrite A, B, C. auto.
  - left. rewrite (one_ref nw Hr). auto.
Qed.

Lemma conf_ok_kept (c : Conf) s' :
  count is_deliver (fx (c_h c)) = 0%nat -> fx s' = fx (c_h c) -> alive s' = true ->
  conf_ok (refs_after c s' true false false).
Proof.
  intros H0 Hfx Hal. unfold refs_after, conf_ok, nrefs. simpl.
  rewrite Hfx, H0, skipn_all. simpl. auto.
Qed.

Lemma nrefs_one c :
  nrefs c = 1%nat ->
  (c_inq c = true -> c_outq c = false /\ c_task c = false) /\
  (c_outq c = true -> c_inq c = false /\ c_task c = false) /\
  (c_task c = true -> c_inq c = false /\ c_outq c = false).
Proof.
  unfold nrefs. destruct (c_inq c), (c_outq c), (c_task c); simpl; intros H;
    try discriminate; repeat split; intros; try discriminate; reflexivity.
Qed.

Lemma step_ok sf pv sa uok d c e :
  conf_ok c -> event_wf e = true -> conf_ok (step sf pv sa uok d c e).
Proof.
  intros Hc He.
  destruct c as [s inq outq task].
  destruct Hc as [(Hal & Hn & Hd) | (Hal & Hn & Hd)]; simpl in *.
  2:{ unfold nrefs in Hn. simpl in Hn.
      destruct inq, outq, task; simpl in Hn; try discriminate.
      destruct e; simpl; right; auto. }
  destruct (nrefs_one (mkConf s inq outq task) Hn) as (Hi & Ho & Ht). simpl in Hi, Ho, Ht.
  destruct e as [now outs msg|now outs ev num st|now outs|now outs st|now outs];
    cbn [step c_inq c_outq c_task c_h].
  - destruct inq eqn:Ei; [|left; auto].
    destruct (Hi eq_refl) as [-> ->].
    pose proof (OnIncoming_body_outcome sf pv sa uok d now outs) as Ho'.
    unfold OnIncoming. destruct msg as [sid body session].
    specialize (Ho' body sid session s Hal).
    destruct (OnIncoming_body _ _ _ _ _ _ _ _ _ _ _) as [[act o'] s'].
    destruct Ho' as [(Hb & Hs) | (Hb & Hfx & Ha)]; rewrite Hb; simpl.
    + apply conf_ok_settled; assumption.
    + apply conf_ok_kept; assumption.
  - destruct inq eqn:Ei; [|left; auto].
    destruct (Hi eq_refl) as [-> ->].
    simpl in He. apply negb_true_iff in He.
    pose proof (OnStreamEvent_outcome d now outs ev num st s Hal He) as Ho'.
    destruct (OnStreamEvent _ _ _ _ _ _ _) as [[act o'] s'].
    destruct Ho' as [(Hb & Hs) | (Hb & Hfx & Ha)]; rewrite Hb; simpl.
    + apply conf_ok_settled; assumption.
    + apply conf_ok_kept; assumption.
  - destruct inq eqn:Ei; [|left; auto].
    destruct (Hi eq_refl) as [-> ->].
    unfold OnStreamEvent. cbn.
    pose proof (HandleError_settles d now outs (mkStatus stError errOperationExpired d) s
                  Hal eq_refl) as Hs.
    destruct (HandleError _ _ _ _ _) as [o' s'].
    apply conf_ok_settled; assumption.
  - destruct outq eqn:Eo; [|left; auto].
    destruct (Ho eq_refl) as [-> ->].
    pose proof (OnStatusReady_settles d now outs st s Hal) as Hs.
    destruct (OnStatusReady _ _ _ _ _) as [o' s'].
    apply conf_ok_settled; assumption.
  - destruct task eqn:Et; [|left; auto].
    destruct (Ht eq_refl) as [-> ->].
    pose proof (WaitDone_settles d now outs s Hal) as Hs.
    destruct (WaitDone _ _ _ _) as [o' s'].
    apply conf_ok_settled; assumption.
Qed.

Lemma run_ok sf pv sa uok d tr :
  forall c, conf_ok c -> forallb event_wf tr = true ->
  conf_ok (run sf pv sa uok d c tr).
Proof.
  induction tr as [|e tl IH]; intros c Hc Hw; [exact Hc|].
  simpl in Hw. apply andb_true_iff in Hw as [He Htl].
  unfold run. simpl. apply IH; [apply step_ok|]; assumption.
Qed.

(** Nothing reaches a handler that no queue and no task references. *)
Lemma step_unreferenced sf pv sa uok d c e :
  nrefs c = 0%nat -> step sf pv sa uok d c e = c.
Proof.
  destruct c as [s [] [] []]; unfold nrefs; simpl; intros H; try discriminate.
  destruct e; reflexivity.
Qed.

Lemma run_unreferenced sf pv sa uok d tr :
  forall c, nrefs c = 0%nat -> run sf pv sa uok d c tr = c.
Proof.
  induction tr as [|e tl IH]; intros c H; [reflexivity|].
  unfold run. simpl. rewrite step_unreferenced by exact H. apply IH. exact H.
Qed.

(** ** The log of [HandleError] extends the log it was given *)

Lemma HandleError_log d now outs :
  forall st s, exists nw, fx (snd (HandleError d now outs st s)) = fx s ++ nw.
Proof.
  induction outs as [|o tl IH]; intros st s; simpl;
    (destruct (IsOK st); [exists []; rewrite app_nil_r; reflexivity|]);
    repeat match goal with
           | |- context [if ?b then _ else _] => destruct b
           end;
    try (match goal with
         | |- context [HandleResponse ?d ?x] =>
             destruct (HandleResponse_shape d x) as (cs & st' & r & H & _);
             cbn [snd]; rewrite H; eexists; reflexivity
         end);
    try (simpl; eexists; reflexivity);
    match goal with
    | |- context [HandleError ?d ?n tl ?o ?x] =>
        destruct (IH o x) as [nw H];
        destruct (HandleError d n tl o x) as [o' s']; simpl in H |- *;
        rewrite H; eexists; rewrite <- app_assoc; reflexivity
    end.
Qed.

(** [WaitDone] first re-sends the request, to the handler's URL and with
    its stream id. *)
Lemma WaitDone_first_send d now outs s :
  exists rest, fx (snd (WaitDone d now outs s)) =
    fx s ++ ESend (pUrl (hs s)) (streamid (pRequest (hs s)))
                  match outs with [] => true | o :: _ => IsOK o end :: rest.
Proof.
  unfold WaitDone, RetryAndHandle. destruct outs as [|o tl].
  - exists []. reflexivity.
  - match goal with
    | |- context [HandleError ?d ?n tl o ?x] =>
        destruct (HandleError_log d n tl o x) as [nw Hnw]; rewrite Hnw
    end.
    exists nw. cbn. rewrite <- app_assoc. reflexivity.
Qed.

(** ** One redirect *)






(** ** Sub-stream updates *)

Lemma nth_update_nth {A} n f (l : list A) k e :
  (n < List.length l)%nat ->
  nth k (update_nth n f l) e = if Nat.eqb k n then f (nth k l e) else nth k l e.
Proof.
  revert n k. induction l as [|x tl IH]; intros n k Hn; simpl in Hn; [lia|].
  destruct n as [|n], k as [|k]; simpl; try reflexivity.
  apply IH. lia.
Qed.

Lemma sub_upd_sub i f st j :
  (N.to_nat i < List.length (pSubStreams st))%nat ->
  sub (upd_sub i f st) j = if N.eqb j i then f (sub st j) else sub st j.
Proof.
  intros Hi. unfold sub, upd_sub, set_subs. simpl.
  rewrite nth_update_nth by exact Hi.
  destruct (N.eqb_spec j i) as [->|Hne].
  - rewrite Nat.eqb_refl. reflexivity.
  - destruct (Nat.eqb_spec (N.to_nat j) (N.to_nat i)) as [E|_]; [|reflexivity].
    apply N2Nat.inj in E. contradiction.
Qed.

(** With sub-stream 0 connected, [EnableLink] leaves the stream as it is. *)
Lemma EnableLink_connected EU GHA Conn now d path st :
  ss_status (sub st 0) = Connected ->
  exists r p', EnableLink EU GHA Conn now d path st = (r, p', st).
Proof.
  intros E0. unfold EnableLink. rewrite E0. cbn [socket_eqb].
  repeat match goal with |- context [if ?b then _ else _] => destruct b end;
    eexists; eexists; reflexivity.
Qed.

(** ** Deep locate *)

Lemma found_app P Q : found (P ++ Q) = found P ++ found Q.
Proof. unfold found. apply flat_map_app. Qed.

Lemma forallb_filter_IsServer l : forallb IsServer (filter IsServer l) = true.
Proof.
  induction l as [|x l IH]; [reflexivity|]. cbn [filter].
  destruct (IsServer x) eqn:E; [cbn [forallb]; rewrite E|]; exact IH.
Qed.

Lemma forallb_found P : forallb IsServer (found P) = true.
Proof.
  unfold found. induction P as [|e P IH]; [reflexivity|]. cbn [flat_map].
  rewrite forallb_app, IH, andb_true_r.
  destruct (IsOK (fst e)); [apply forallb_filter_IsServer|reflexivity].
Qed.

(** The loop over the entries keeps the flags and the deliveries and
    adds the server entries to the location list. *)
Lemma dl_scan_fields locate_ok l s :
  pFirstTime (dl_scan locate_ok l s) = pFirstTime s /\
  dl_alive (dl_scan locate_ok l s) = dl_alive s /\
  dl_out (dl_scan locate_ok l s) = dl_out s /\
  pLocations (dl_scan locate_ok l s) = pLocations s ++ filter IsServer l.
Proof.
  revert s. induction l as [|e l IH]; intros s; cbn [dl_scan filter].
  - rewrite app_nil_r. auto.
  - destruct (IsServer e) eqn:Es; [|destruct (IsManager e)];
      match goal with |- context [dl_scan locate_ok l ?x] =>
        destruct (IH x) as (H1 & H2 & H3 & H4); rewrite H1, H2, H3, H4 end;
      unfold LocationInfo_Add; cbn; rewrite <- ?app_assoc; auto.
Qed.

Lemma found_one_ok st resp :
  IsOK st = true ->
  found [(st, resp)] = filter IsServer (match resp with Some l => l | None => [] end).
Proof. intros H. unfold found. cbn. rewrite H. apply app_nil_r. Qed.

Lemma found_one_err st resp : IsOK st = false -> found [(st, resp)] = [].
Proof. intros H. unfold found. cbn. rewrite H. reflexivity. Qed.

(** One answer offered to the handler keeps [dl_inv]. *)
Lemma dl_inv_step locate_ok okStatus P s e :
  dl_inv okStatus P s ->
  dl_inv okStatus (P ++ [e])
    (if dl_alive s then DL_HandleResponse locate_ok okStatus (fst e) (snd e) s else s).
Proof.
  intros [(k & Hk & Hl & Hka) Hc].
  destruct (dl_alive s) eqn:Ha.
  - specialize (Hka eq_refl). subst k. rewrite firstn_all in Hl.
    assert (Hout : dl_out s = []) by (destruct Hc as [(_&_&H&_)|[(_&_&H)|[(H&_)|(H&_)]]];
                                        [exact H|exact H|discriminate|discriminate]).
    destruct e as [st resp]. cbn [fst snd]. unfold DL_HandleResponse.
    cbn [pFirstTime pOutstanding pLocations dl_alive dl_out dl_asked].
    destruct (IsOK st) eqn:Hok; cbn [negb].
    + destruct (dl_scan_fields locate_ok (match resp with Some l => l | None => [] end)
                  (mkDL false ((pOutstanding s + two16 - 1) mod two16) (pLocations s)
                        (dl_alive s) (dl_out s) (dl_asked s))) as (F1 & F2 & F3 & F4).
      cbn [pFirstTime dl_alive dl_out pLocations] in F1, F2, F3, F4.
      assert (HL : pLocations (dl_scan locate_ok (match resp with Some l => l | None => [] end)
                    (mkDL false ((pOutstanding s + two16 - 1) mod two16) (pLocations s)
                          (dl_alive s) (dl_out s) (dl_asked s))) = found (P ++ [(st, resp)]))
        by (rewrite F4, found_app, found_one_ok by exact Hok; rewrite Hl; reflexivity).
      destruct (pOutstanding _ =? 0).
      * unfold dl_finish. cbn [pFirstTime dl_alive dl_out pLocations]. split.
        -- exists (List.length (P ++ [(st, resp)])). rewrite firstn_all.
           split; [apply Nat.le_refl|]. split; [exact HL|discriminate].
        -- right. right. left. split; [reflexivity|]. rewrite F3, Hout. reflexivity.
      * split.
        -- exists (List.length (P ++ [(st, resp)])). rewrite firstn_all.
           split; [apply Nat.le_refl|]. split; [exact HL|reflexivity].
        -- right. left. rewrite F1, F2, F3, Ha. auto.
    + destruct (pFirstTime s) eqn:Hf.
      * destruct Hc as [(_&_&_&HP)|[(H&_)|[(H&_)|(H&_)]]]; try congruence.
        subst P. cbn [dl_alive dl_out pLocations]. split.
        -- exists 0%nat. split; [lia|]. split; [exact Hl|discriminate].
        -- right. right. right. split; [reflexivity|].
           exists (st, resp). rewrite Hout. auto.
      * assert (HL : pLocations s = found (P ++ [(st, resp)]))
          by (rewrite found_app, found_one_err, app_nil_r by exact Hok; exact Hl).
        destruct (_ =? 0).
        -- unfold dl_finish. cbn [pFirstTime dl_alive dl_out pLocations]. split.
           ++ exists (List.length (P ++ [(st, resp)])). rewrite firstn_all.
              split; [apply Nat.le_refl|]. split; [exact HL|discriminate].
           ++ right. right. left. rewrite Hout. auto.
        -- cbn [pFirstTime dl_alive dl_out pLocations]. split.
           ++ exists (List.length (P ++ [(st, resp)])). rewrite firstn_all.
              split; [apply Nat.le_refl|]. split; [exact HL|reflexivity].
           ++ right. left. rewrite Ha, Hout. auto.
  - split.
    + exists k. rewrite length_app. split; [lia|]. split.
      * rewrite firstn_app. replace (k - List.length P)%nat with 0%nat by lia.
        rewrite app_nil_r. exact Hl.
      * intros H; congruence.
    + destruct Hc as [(_&H&_)|[(_&H&_)|[H|(H1 & e' & He & H2 & H3)]]]; try congruence.
      * right. right. left. rewrite Ha. exact H.
      * right. right. right. split; [rewrite Ha; exact H1|]. exists e'. split; [|auto].
        destruct P; [discriminate|exact He].
Qed.

Lemma dl_inv_fold locate_ok okStatus tr P s :
  dl_inv okStatus P s ->
  dl_inv okStatus (P ++ tr)
    (fold_left (fun s ev => if dl_alive s then DL_HandleResponse locate_ok okStatus (fst ev) (snd ev) s else s)
               tr s).
Proof.
  revert P s. induction tr as [|e tr IH]; intros P s H; cbn [fold_left].
  - rewrite app_nil_r. exact H.
  - replace (P ++ e :: tr) with ((P ++ [e]) ++ tr) by (rewrite <- app_assoc; reflexivity).
    apply IH. apply dl_inv_step. exact H.
Qed.

(** ** Decoding a [kXR_readv] reply *)

Lemma byte_of_N_to_N n : Byte.to_N (byte_of_N n) = n mod 256.
Proof.
  unfold byte_of_N. destruct (Byte.of_N (n mod 256)) eqn:E.
  - apply Byte.to_of_N. exact E.
  - apply Byte.of_N_None_iff in E. pose proof (N.mod_lt n 256). lia.
Qed.

Lemma length_enc_be k n : List.length (enc_be k n) = k.
Proof.
  revert n. induction k as [|k IH]; intros n; [reflexivity|].
  simpl. rewrite length_app, IH. simpl. lia.
Qed.

Lemma be_N_snoc bs b : be_N (bs ++ [b]) = be_N bs * 256 + Byte.to_N b.
Proof. unfold be_N. rewrite fold_left_app. reflexivity. Qed.

(** Decoding undoes encoding, modulo the width. *)
Lemma be_N_enc_be k n : be_N (enc_be k n) = n mod 256 ^ N.of_nat k.
Proof.
  revert n. induction k as [|k IH]; intros n.
  - simpl. rewrite N.mod_1_r. reflexivity.
  - cbn [enc_be]. rewrite be_N_snoc, IH, byte_of_N_to_N.
    rewrite Nat2N.inj_succ, N.pow_succ_r', N.Div0.mod_mul_r.
    lia.
Qed.

Lemma skipn_length_app {A} (l1 l2 : list A) : skipn (List.length l1) (l1 ++ l2) = l2.
Proof. induction l1 as [|x l1 IH]; [reflexivity|exact IH]. Qed.

Lemma firstn_length_app {A} (l1 l2 : list A) : firstn (List.length l1) (l1 ++ l2) = l1.
Proof. induction l1 as [|x l1 IH]; [reflexivity|simpl; rewrite IH; reflexivity]. Qed.

(** Reading [B] out of [A ++ B ++ C]. *)
Lemma bytes_at_mid A B C o n :
  o = N.of_nat (List.length A) -> n = N.of_nat (List.length B) ->
  bytes_at (A ++ B ++ C) o n = B.
Proof.
  intros -> ->. unfold bytes_at. rewrite !Nat2N.id, skipn_length_app.
  apply firstn_length_app.
Qed.

Lemma length_enc_rchunk c :
  List.length (enc_rchunk c) = (List.length (rc_fhandle c) + 12 + List.length (rc_data c))%nat.
Proof. unfold enc_rchunk. rewrite !length_app, !length_enc_be. lia. Qed.

Lemma sumlen_le rs : sumlen rs <= N.of_nat (List.length (readv_body rs)).
Proof.
  induction rs as [|c rs IH]; [simpl; lia|].
  unfold readv_body in *. cbn [sumlen map List.concat fold_right] in *.
  fold (sumlen rs). rewrite length_app, length_enc_rchunk. unfold rc_rlen. lia.
Qed.

(** What [unpack_loop] makes of a buffer holding, from the cursor on,
    the reply chunks [rs] and fewer than 16 trailing bytes. *)
Lemma unpack_enc rs : forall src pre trailer cl size chunks copies,
  src = pre ++ readv_body rs ++ trailer ->
  (forall c, In c rs -> List.length (rc_fhandle c) = 4%nat /\ rc_offset c < two64) ->
  (List.length trailer < 16)%nat ->
  N.of_nat (List.length src) < two32 ->
  size < two32 ->
  (matches_prefix cl rs = true ->
     unpack_loop src (Z.of_N (N.of_nat (List.length src))) cl (N.of_nat (List.length pre))
                 size chunks copies
     = mkVRead StatusOK (chunks ++ firstn (List.length rs) cl)
               ((size + sumlen rs) mod two32) (copies ++ expected_copies cl rs)) /\
  (matches_prefix cl rs = false ->
     vr_status (unpack_loop src (Z.of_N (N.of_nat (List.length src))) cl
                            (N.of_nat (List.length pre)) size chunks copies)
     = mkStatus stFatal errInvalidResponse 0).
Proof.
  induction rs as [|c rs IH]; intros src pre trailer cl size chunks copies Hsrc Hc Ht Hlen Hs.
  - assert (Hlt : (Z.of_N (N.of_nat (List.length src)) - 16 <? Z.of_N (N.of_nat (List.length pre)))%Z = true).
    { apply Z.ltb_lt. rewrite Hsrc, !length_app. simpl. lia. }
    split; [|intros H; destruct cl; discriminate].
    intros _. destruct cl as [|req cl]; cbn [unpack_loop]; rewrite Hlt;
      cbn [firstn List.length sumlen fold_right expected_copies];
      rewrite !app_nil_r, N.add_0_r, N.mod_small by exact Hs; reflexivity.
  - destruct (Hc c (or_introl eq_refl)) as [Hfh Hoff].
    assert (Hc' : forall c', In c' rs -> List.length (rc_fhandle c') = 4%nat /\ rc_offset c' < two64)
      by (intros c' Hin; apply Hc; right; exact Hin).
    set (rest := readv_body rs ++ trailer).
    assert (Hsrc' : src = pre ++ enc_rchunk c ++ rest)
      by (rewrite Hsrc; unfold rest, readv_body; cbn [map List.concat]; rewrite <- app_assoc; reflexivity).
    assert (HL : List.length src = (List.length pre + 16 + List.length (rc_data c) + List.length rest)%nat)
      by (rewrite Hsrc', !length_app, length_enc_rchunk; lia).
    assert (Hlt : (Z.of_N (N.of_nat (List.length src)) - 16 <? Z.of_N (N.of_nat (List.length pre)))%Z = false)
      by (apply Z.ltb_ge; rewrite HL; lia).
    destruct cl as [|[o l b] cl].
    + cbn [unpack_loop]. rewrite Hlt. split; [discriminate|reflexivity].
    + cbn [unpack_loop]. rewrite Hlt.
      assert (E1 : bytes_at src (N.of_nat (List.length pre) + 4) 4 = enc_be 4 (rc_rlen c)).
      { assert (Ex : src = (pre ++ rc_fhandle c) ++ enc_be 4 (rc_rlen c)
                           ++ (enc_be 8 (rc_offset c) ++ rc_data c ++ rest))
          by (rewrite Hsrc'; unfold enc_rchunk; rewrite <- !app_assoc; reflexivity).
        rewrite Ex. apply bytes_at_mid.
        - rewrite length_app, Hfh. lia.
        - rewrite length_enc_be. reflexivity. }
      assert (E2 : bytes_at src (N.of_nat (List.length pre) + 8) 8 = enc_be 8 (rc_offset c)).
      { assert (Ex : src = (pre ++ rc_fhandle c ++ enc_be 4 (rc_rlen c)) ++ enc_be 8 (rc_offset c)
                           ++ (rc_data c ++ rest))
          by (rewrite Hsrc'; unfold enc_rchunk; rewrite <- !app_assoc; reflexivity).
        rewrite Ex. apply bytes_at_mid.
        - rewrite !length_app, Hfh, length_enc_be. lia.
        - rewrite length_enc_be. reflexivity. }
      assert (E3 : bytes_at src (N.of_nat (List.length pre) + 16) (rc_rlen c) = rc_data c).
      { assert (Ex : src = (pre ++ rc_fhandle c ++ enc_be 4 (rc_rlen c) ++ enc_be 8 (rc_offset c))
                           ++ rc_data c ++ rest)
          by (rewrite Hsrc'; unfold enc_rchunk; rewrite <- !app_assoc; reflexivity).
        rewrite Ex. apply bytes_at_mid.
        - rewrite !length_app, Hfh, !length_enc_be. lia.
        - reflexivity. }
      assert (Hr : rc_rlen c mod 256 ^ N.of_nat 4 = rc_rlen c).
      { apply N.mod_small. unfold rc_rlen. change (256 ^ N.of_nat 4) with two32. lia. }
      assert (Ho : rc_offset c mod 256 ^ N.of_nat 8 = rc_offset c).
      { apply N.mod_small. exact Hoff. }
      rewrite E1, E2, !be_N_enc_be, Hr, Ho, E3.
      cbn [matches_prefix]. unfold chunk_matches. cbn [ck_length ck_offset ck_buffer].
      destruct (rc_rlen c =? l) eqn:El; destruct (rc_offset c =? o) eqn:Eo;
        cbn [negb orb andb]; try (split; [discriminate|reflexivity]).
      apply N.eqb_eq in El, Eo. subst l o.
      assert (Hnext : (N.of_nat (List.length pre) + 16 + rc_rlen c) mod two32
                      = N.of_nat (List.length (pre ++ enc_rchunk c))).
      { rewrite length_app, length_enc_rchunk, Hfh. unfold rc_rlen.
        rewrite N.mod_small by (rewrite HL in Hlen; lia). lia. }
      rewrite Hnext.
      assert (Hsrc'' : src = (pre ++ enc_rchunk c) ++ readv_body rs ++ trailer)
        by (rewrite Hsrc', <- app_assoc; reflexivity).
      assert (Hs' : (size + rc_rlen c) mod two32 < two32) by (apply N.mod_lt; discriminate).
      destruct (IH src (pre ++ enc_rchunk c) trailer cl ((size + rc_rlen c) mod two32)
                   (chunks ++ [mkChunk (rc_offset c) (rc_rlen c) b])
                   (match b with None => copies | Some b0 => copies ++ [(b0, rc_data c)] end)
                   Hsrc'' Hc' Ht Hlen Hs') as [IH1 IH2].
      split.
      * intros Hm. cbn [andb] in Hm. rewrite (IH1 Hm). cbn [List.length firstn sumlen fold_right expected_copies ck_buffer].
        fold (sumlen rs).
        rewrite N.Div0.add_mod_idemp_l, <- N.add_assoc, <- app_assoc.
        destruct b; cbn [app]; rewrite <- ?app_assoc; reflexivity.
      * intros Hm. cbn [andb] in Hm. exact (IH2 Hm).
Qed.

(* ================================================================== *)
(** * The claims *)

(** ** kXR_wait *)

(** C1. On a [kXR_wait] response carrying the request's stream id,
    [OnIncoming] registers a task at [now + seconds], keeps the URL and
    the stream id, and returns [Take | RemoveHandler]: the handler leaves
    the in-queue and the task holds it. When the task runs, the request
    is re-sent to the same URL with the same stream id. The request is
    rewritten by clearing [kXR_refresh] in [req->locate.options]: for a
    [kXR_locate] that is its options word; for a [kXR_open] it is the
    [open.mode] word, so the open's [open.options], which hold its
    refresh flag, are left as they were; other requests are unchanged. *)
Theorem OnIncoming_wait_rewrites_and_schedules sf pv sa uok d now outs sid secs info session s :
  sid = streamid (pRequest (hs s)) ->
  let '(act, outs', s') :=
    OnIncoming sf pv sa uok d now outs (mkRsp sid (Rwait secs info) session) s in
  act = N.lor Take RemoveHandler /\ outs' = outs /\
  fx s' = fx s ++ [ERegisterTask (now + secs)] /\ alive s' = alive s /\
  pUrl (hs s') = pUrl (hs s) /\ streamid (pRequest (hs s')) = sid /\
  match requestid (pRequest (hs s)) with
  | kXR_locate =>
      locate_options (pRequest (hs s')) = N.ldiff (locate_options (pRequest (hs s))) kXR_refresh
  | kXR_open =>
      open_mode (pRequest (hs s')) = N.ldiff (open_mode (pRequest (hs s))) kXR_refresh /\
      open_options (pRequest (hs s')) = open_options (pRequest (hs s))
  | _ => pRequest (hs s') = pRequest (hs s)
  end /\
  (forall now' outs'', exists rest,
     fx (snd (WaitDone d now' outs'' s')) =
       fx s' ++ ESend (pUrl (hs s)) sid
                      match outs'' with [] => true | o :: _ => IsOK o end :: rest).
Proof.
  intros Hsid.
  destruct (OnIncoming sf pv sa uok d now outs _ s) as [[act outs'] s'] eqn:E.
  assert (H : act = N.lor Take RemoveHandler /\ outs' = outs /\
              fx s' = fx s ++ [ERegisterTask (now + secs)] /\ alive s' = alive s /\
              pUrl (hs s') = pUrl (hs s) /\ streamid (pRequest (hs s')) = sid /\
              match requestid (pRequest (hs s)) with
              | kXR_locate =>
                  locate_options (pRequest (hs s')) =
                    N.ldiff (locate_options (pRequest (hs s))) kXR_refresh
              | kXR_open =>
                  open_mode (pRequest (hs s')) = N.ldiff (open_mode (pRequest (hs s))) kXR_refresh /\
                  open_options (pRequest (hs s')) = open_options (pRequest (hs s))
              | _ => pRequest (hs s') = pRequest (hs s)
              end).
  { revert E. unfold OnIncoming. cbn [OnIncoming_body].
    rewrite <- Hsid, N.eqb_refl. intros E. injection E as <- <- <-.
    unfold RewriteRequestWait, upd, emit, open_mode. cbn.
    destruct (requestid (pRequest (hs s))); cbn; repeat split; auto. }
  destruct H as (H1 & H2 & H3 & H4 & H5 & H6 & H7).
  repeat (split; [assumption|]).
  intros now' outs''.
  destruct (WaitDone_first_send d now' outs'' s') as [rest Hr].
  exists rest. rewrite Hr, H5, H6. reflexivity.
Qed.

(** Instance of C1's theorem: a [kXR_wait] of 2 seconds at clock 10 for
    the locate request with stream id 1. *)
Lemma OnIncoming_wait_rewrites_and_schedules_witness :
  1 = streamid (pRequest (hs (ex_state 16))) /\
  let '(act, _, s') :=
    OnIncoming ex_flags ex_flags ex_sid ex_urlok 0 10 [] (mkRsp 1 (Rwait 2 "busy") 0)
               (ex_state 16) in
  act = N.lor Take RemoveHandler /\ fx s' = [ERegisterTask 12].
Proof.
  split; [reflexivity|].
  pose proof (OnIncoming_wait_rewrites_and_schedules ex_flags ex_flags ex_sid ex_urlok 0 10 []
                1 2 "busy" 0 (ex_state 16) eq_refl) as H.
  destruct (OnIncoming _ _ _ _ _ _ _ _ _) as [[act o] s'].
  destruct H as (H1 & _ & H3 & _). split; [exact H1|]. rewrite H3. reflexivity.
Defined.

(** Counterexample to C1: on that [kXR_wait] the handler returns
    [Take | RemoveHandler] (5), not [Take] alone. *)
Lemma OnIncoming_wait_not_Take_alone :
  let '(act, _, _) :=
    OnIncoming ex_flags ex_flags ex_sid ex_urlok 0 10 [] (mkRsp 1 (Rwait 2 "busy") 0)
               (ex_state 16) in
  act <> Take /\ act = 5.
Proof. vm_compute. split; [discriminate | reflexivity]. Qed.

(** Failing input for C1: a [kXR_open] with [kXR_refresh] in
    [open.options] and mode 0644 is still sent with [kXR_refresh] after
    a [kXR_wait]; the bit 0x80 cleared is the mode's, which becomes
    0444 (292). *)
Lemma OnIncoming_wait_open_keeps_refresh :
  let '(act, _, s') :=
    OnIncoming ex_flags ex_flags ex_sid ex_urlok 0 10 [] (mkRsp 1 (Rwait 2 "busy") 0)
               ex_open_state in
  N.land (open_options (pRequest (hs s'))) kXR_refresh = kXR_refresh /\
  open_mode (pRequest (hs s')) = 292 /\ fx s' = [ERegisterTask 12].
Proof. vm_compute. repeat split. Qed.

(** ** One terminal delivery *)

(** C2. Along every sequence of events reaching a handler (responses,
    stream events carrying a failure, the in-queue time-out, send
    statuses, wait tasks), starting from the request waiting in an
    out-queue: the caller is notified at most once; it has been notified
    exactly when the handler has deleted itself; the handler has deleted
    itself exactly when no in-queue, out-queue or task references it, so
    no later event reaches it and nothing changes any more. *)
Theorem HandleResponse_exactly_once sf pv sa uok d h tr :
  forallb event_wf tr = true ->
  let c := run sf pv sa uok d (init_conf h) tr in
  (count is_deliver (fx (c_h c)) <= 1)%nat /\
  (count is_deliver (fx (c_h c)) = 1%nat <-> alive (c_h c) = false) /\
  (alive (c_h c) = false <-> nrefs c = 0%nat) /\
  (alive (c_h c) = false -> forall tr', run sf pv sa uok d c tr' = c).
Proof.
  intros Hw c.
  assert (Hc : conf_ok c).
  { apply run_ok; [|exact Hw]. left. repeat split. }
  destruct Hc as [(Hal & Hn & Hd) | (Hal & Hn & Hd)]; rewrite Hal, Hd.
  - repeat split; try discriminate; try lia.
    all: rewrite Hn; discriminate.
  - repeat split; auto.
    intros _ tr'. apply run_unreferenced. exact Hn.
Qed.

(** Instance of C2's theorem: the request is sent, then answered by a
    [kXR_ok]. *)
Lemma HandleResponse_exactly_once_witness :
  forallb event_wf [EvStatusReady 0 [] (mkStatus stOK errNone 0);
                    EvIncoming 1 [] (mkRsp 1 (Rok []) 0)] = true /\
  count is_deliver (fx (c_h (run ex_flags ex_flags ex_sid ex_urlok 0
     (init_conf (ex_handler 16 false))
     [EvStatusReady 0 [] (mkStatus stOK errNone 0); EvIncoming 1 [] (mkRsp 1 (Rok []) 0)])))
  = 1%nat.
Proof.
  split; [reflexivity|].
  pose proof (HandleResponse_exactly_once ex_flags ex_flags ex_sid ex_urlok 0
                (ex_handler 16 false)
                [EvStatusReady 0 [] (mkStatus stOK errNone 0);
                 EvIncoming 1 [] (mkRsp 1 (Rok []) 0)] eq_refl) as H.
  cbv zeta in H. destruct H as (_ & [_ H2] & _). apply H2. vm_compute. reflexivity.
Defined.

(** ** Bounded redirects *)




(** ** Session binding of [Stream::Send] *)

(** C4 (amended). A message with session id [S <> 0] is bounced with
    [errInvalidSession], the stream untouched, exactly when sub-stream 0
    is not connected or the stream's session differs from [S]. When the
    check passes, the message is pushed to the out-queue of the
    sub-stream the transport names if [EnableLink] succeeds; when
    [EnableLink] fails, [Send] returns a fatal status and enqueues
    nothing. *)
Theorem Send_session_binding MSS EU GHA Conn now d msg handler stateful expires st :
  msg_session msg <> 0 ->
  (forall p, (N.to_nat (up (MSS msg (Some p))) < List.length (pSubStreams st))%nat) ->
  let '(r, st') := Send MSS EU GHA Conn now d msg handler stateful expires st in
  ((ss_status (sub st 0) <> Connected \/ pSessionId st <> msg_session msg) ->
     r = mkStatus stError errInvalidSession d /\ st' = st) /\
  (ss_status (sub st 0) = Connected -> pSessionId st = msg_session msg ->
     (IsOK r = true /\
      exists i, (N.to_nat i < List.length (pSubStreams st))%nat /\
        sub st' i = mkSub (ss_status (sub st i))
                          (ss_outQueue (sub st i) ++ [mkOut msg handler expires stateful]) /\
        (forall j, j <> i -> sub st' j = sub st j)) \/
     (IsOK r = false /\ IsFatal r = true /\ st' = st)).
Proof.
  intros Hs Hmss. unfold Send.
  assert (Hb : negb (msg_session msg =? 0) = true) by (apply negb_true_iff, N.eqb_neq; exact Hs).
  rewrite Hb. cbn [andb].
  destruct (ss_status (sub st 0)) eqn:E0.
  - cbn. split; [intros _; split; reflexivity|]. intros H; discriminate.
  - cbn. split; [intros _; split; reflexivity|]. intros H; discriminate.
  - cbn [socket_eqb negb orb].
    destruct (pSessionId st =? msg_session msg) eqn:Heq.
    + apply N.eqb_eq in Heq. cbn [negb orb].
      match goal with
      | |- context [EnableLink ?a ?b ?c ?n ?d' ?p st] =>
          destruct (EnableLink_connected a b c n d' p st E0) as (r & p' & HE); rewrite HE
      end.
      destruct (IsOK r) eqn:Hr; cbv beta iota zeta; split;
        try (intros [H|H]; exfalso; auto; fail); intros _ _.
      * left. split; [exact Hr|].
        exists (up (MSS msg (Some p'))). split; [apply Hmss|]. split.
        -- rewrite sub_upd_sub by apply Hmss. rewrite N.eqb_refl. reflexivity.
        -- intros j Hj. rewrite sub_upd_sub by apply Hmss.
           apply N.eqb_neq in Hj. rewrite Hj. reflexivity.
      * right. split; [reflexivity|]. split; reflexivity.
    + apply N.eqb_neq in Heq.
      cbn. split; [intros _; split; reflexivity|]. intros _ H; contradiction.
Qed.

Lemma Send_session_binding_witness :
  msg_session ex_msg <> 0 /\
  (forall p, (N.to_nat (up (ex_mss ex_msg (Some p))) < List.length (pSubStreams ex_stream))%nat) /\
  let '(r, st') := Send ex_mss ex_uplink_ok ex_gha ex_connect 0 0 ex_msg 3 false 60 ex_stream in
  ((ss_status (sub ex_stream 0) <> Connected \/ pSessionId ex_stream <> msg_session ex_msg) ->
     r = mkStatus stError errInvalidSession 0 /\ st' = ex_stream) /\
  (ss_status (sub ex_stream 0) = Connected -> pSessionId ex_stream = msg_session ex_msg ->
     (IsOK r = true /\
      exists i, (N.to_nat i < List.length (pSubStreams ex_stream))%nat /\
        sub st' i = mkSub (ss_status (sub ex_stream i))
                          (ss_outQueue (sub ex_stream i) ++ [mkOut ex_msg 3 60 false]) /\
        (forall j, j <> i -> sub st' j = sub ex_stream j)) \/
     (IsOK r = false /\ IsFatal r = true /\ st' = ex_stream)).
Proof.
  split; [vm_compute; discriminate|].
  split; [intros p; vm_compute; lia|].
  apply (Send_session_binding ex_mss ex_uplink_ok ex_gha ex_connect 0 0 ex_msg 3 false 60 ex_stream).
  - vm_compute; discriminate.
  - intros p; vm_compute; lia.
Defined.

(** C4 (counterexample). The session check passes (sub-stream 0 is
    connected, the stream's session is the message's), but the uplink
    cannot be enabled: [Send] returns a fatal status and the message is
    pushed to no out-queue. *)
Lemma Send_session_ok_not_enqueued :
  let '(r, st') := Send ex_mss ex_uplink_err ex_gha ex_connect 0 0 ex_msg 3 false 60 ex_stream in
  ss_status (sub ex_stream 0) = Connected /\ pSessionId ex_stream = msg_session ex_msg /\
  IsFatal r = true /\ queued st' = [].
Proof. vm_compute. repeat split. Qed.

(* ------------------------------------------------------------------ *)
(** ** SID disposal at terminal delivery *)

(** C8. [HandleResponse] disposes of the request's SID right before the
    caller's continuation runs, and the continuation is the last thing
    it does: the SID is quarantined with [TimeOutSID] exactly when the
    delivered status is a failure with code [OperationExpired], and
    released with [ReleaseSID] in every other case. *)
Theorem HandleResponse_sid_disposal d s :
  let mgr := pSidMgr (hs s) in
  let sid := streamid (pRequest (hs s)) in
  exists copies st resp sidfx,
    fx (HandleResponse d s) =
      fx s ++ map ECopy copies ++ [sidfx; EDeliver st resp (pHosts (hs s))] /\
    (IsOK st = false /\ code st = errOperationExpired -> sidfx = ETimeOutSID mgr sid) /\
    (~ (IsOK st = false /\ code st = errOperationExpired) -> sidfx = EReleaseSID mgr sid).
Proof.
  intros mgr sid.
  destruct (HandleResponse_shape d s) as (copies & st & resp & Hfx & _ & _).
  exists copies, st, resp.
  eexists. split; [exact Hfx|]. split.
  - intros [Hok Hc]. rewrite Hok. apply code_eqb_expired in Hc. rewrite Hc. reflexivity.
  - intros Hn. destruct (IsOK st) eqn:Hok; [reflexivity|].
    destruct (code_eqb (code st) errOperationExpired) eqn:Hc; [|reflexivity].
    exfalso. apply Hn. split; [reflexivity|]. apply code_eqb_expired. exact Hc.
Qed.

(* ------------------------------------------------------------------ *)
(** ** Recovery from a server error *)

(** C5 (supporting the finding). On a [kXR_error] reply, with every
    retry sent successfully, whether the handler recovers (stays alive,
    having re-sent the request) or surfaces the error (delivers and
    deletes itself) depends on the remembered load balancer, the current
    URL and the error number of the [Status( stError, errErrorResponse )]
    the code builds, [d], never on the server's [errnum]. *)
Theorem OnIncoming_error_ignores_errnum sf pv sa uok d now errnum errmsg session s :
  alive s = true ->
  let h := hs s in
  let lb := hi_url (pLoadBalancer h) in
  let '(_, _, s') :=
    OnIncoming sf pv sa uok d now [] (mkRsp (streamid (pRequest h)) (Rerror errnum errmsg) session) s in
  alive s' = url_valid lb && negb (hostid_eqb (pUrl h) lb) && recoverable d.
Proof.
  intros Hal h lb.
  cbn [OnIncoming OnIncoming_body]. rewrite N.eqb_refl. cbn [negb].
  cbn [HandleError]. unfold Status2. cbn [IsOK status code errNo code_eqb negb].
  unfold lb, h. cbn [upd hs hi_url set_pResponse set_pHosts pLoadBalancer pUrl].
  destruct (url_valid (hi_url (pLoadBalancer (hs s)))
            && negb (hostid_eqb (pUrl (hs s)) (hi_url (pLoadBalancer (hs s))))
            && recoverable d) eqn:Hc.
  - destruct (d =? kXR_NotFound); cbn; exact Hal.
  - cbn [fst snd].
    match goal with |- context [HandleResponse d ?x] =>
      destruct (HandleResponse_shape d x) as (_ & _ & _ & _ & Hd & _) end.
    exact Hd.
Qed.

Lemma OnIncoming_error_ignores_errnum_witness :
  alive ex_state_lb = true /\
  let h := hs ex_state_lb in
  let lb := hi_url (pLoadBalancer h) in
  let '(_, _, s') :=
    OnIncoming ex_flags ex_flags ex_sid ex_urlok 0 0 []
               (mkRsp (streamid (pRequest h)) (Rerror kXR_NotFound "no such file") 0) ex_state_lb in
  alive s' = url_valid lb && negb (hostid_eqb (pUrl h) lb) && recoverable 0.
Proof.
  split; [reflexivity|].
  exact (OnIncoming_error_ignores_errnum ex_flags ex_flags ex_sid ex_urlok 0 0
           kXR_NotFound "no such file" 0 ex_state_lb eq_refl).
Defined.

(** With the error number [Status] gets by default (0), a [kXR_NotFound]
    reply to a [kXR_locate] served by a data server reached through a
    remembered load balancer is surfaced to the caller: the request is
    not re-sent, and the delivered status carries [kXR_NotFound]. *)
Lemma OnIncoming_notfound_surfaced :
  let '(_, _, s') :=
    OnIncoming ex_flags ex_flags ex_sid ex_urlok 0 0 []
               (mkRsp 1 (Rerror kXR_NotFound "no such file") 0) ex_state_lb in
  alive s' = false /\ sends (fx s') = [] /\
  exists hosts, last (fx s') (EReceive noURL) =
                EDeliver (mkStatus stError errErrorResponse kXR_NotFound) None hosts.
Proof. vm_compute. split; [reflexivity|split; [reflexivity|eexists; reflexivity]]. Qed.

(* ------------------------------------------------------------------ *)
(** ** Gluing partial responses *)

(** C7 (supporting the finding). For every request other than
    [kXR_protocol], a final [kXR_ok] body [data] preceded by the
    partial bodies of [pPartialResps] decodes exactly as a single
    [kXR_ok] whose body is their concatenation, as long as the glued
    length fits the [uint32_t] it is summed in. *)
Theorem ParseResponse_partials_glued d h sid data session :
  pResponse h = Some (mkRsp sid (Rok data) session) ->
  requestid (pRequest h) <> kXR_protocol ->
  N.of_nat (List.length (List.concat (map rsp_data (pPartialResps h)) ++ data)) < two32 ->
  ParseResponse d h =
  ParseResponse d (set_pPartialResps []
     (set_pResponse (Some (mkRsp sid (Rok (List.concat (map rsp_data (pPartialResps h)) ++ data))
                                 session)) h)).
Proof.
  intros Hr Hp Hlen. unfold ParseResponse. rewrite Hr. cbn [rsp_body set_pPartialResps set_pResponse
    pResponse pPartialResps pRequest pChunkList pUrl pRedirectAsAnswer pRedirectCgi rsp_data].
  assert (Hg : glue (pPartialResps h) (mkRsp sid (Rok data) session) =
               glue [] (mkRsp sid (Rok (List.concat (map rsp_data (pPartialResps h)) ++ data)) session)).
  { unfold glue. destruct (pPartialResps h) as [|p P] eqn:HP.
    - reflexivity.
    - cbn [rsp_data rsp_body]. f_equal.
      rewrite fold_dlen. unfold rsp_dlen. cbn [rsp_data rsp_body].
      rewrite N.mod_small.
      + rewrite length_app, Nat2N.inj_add. lia.
      + rewrite length_app, Nat2N.inj_add in Hlen. lia. }
  rewrite Hg. cbn [glue rsp_data rsp_body].
  destruct (requestid (pRequest h)); try reflexivity. contradiction.
Qed.

Lemma ParseResponse_partials_glued_witness :
  let h := ex_glued_handler ex_req [mkRsp 1 (Roksofar ex_part1) 0] ex_part2 in
  pResponse h = Some (mkRsp 1 (Rok ex_part2) 0) /\
  requestid (pRequest h) <> kXR_protocol /\
  N.of_nat (List.length (List.concat (map rsp_data (pPartialResps h)) ++ ex_part2)) < two32 /\
  ParseResponse 0 h =
  ParseResponse 0 (set_pPartialResps []
     (set_pResponse (Some (mkRsp 1 (Rok (List.concat (map rsp_data (pPartialResps h)) ++ ex_part2)) 0)) h)).
Proof.
  intros h.
  assert (H1 : pResponse h = Some (mkRsp 1 (Rok ex_part2) 0)) by reflexivity.
  assert (H2 : requestid (pRequest h) <> kXR_protocol) by (vm_compute; discriminate).
  assert (H3 : N.of_nat (List.length (List.concat (map rsp_data (pPartialResps h)) ++ ex_part2)) < two32)
    by (vm_compute; reflexivity).
  split; [exact H1|]. split; [exact H2|]. split; [exact H3|].
  exact (ParseResponse_partials_glued 0 h 1 ex_part2 0 H1 H2 H3).
Defined.

(** A [kXR_protocol] answered by [kXR_oksofar] [00 00 03 00] and
    [kXR_ok] [00 00 00 01]: the code decodes [pval] and [flags] from the
    final body alone, [pval = 00 00 00 01] and no flag bytes, where the
    concatenated body decodes to [pval = 00 00 03 00] and
    [flags = 00 00 00 01]. *)
Lemma ParseResponse_protocol_not_glued :
  snd (fst (ParseResponse 0 (ex_glued_handler ex_proto_req [mkRsp 1 (Roksofar ex_part1) 0] ex_part2)))
    = Some (OProtocolInfo [x00; x00; x00; x01] []) /\
  snd (fst (ParseResponse 0 (ex_glued_handler ex_proto_req [] (ex_part1 ++ ex_part2))))
    = Some (OProtocolInfo [x00; x00; x03; x00] [x00; x00; x00; x01]).
Proof. vm_compute. split; reflexivity. Qed.

(* ------------------------------------------------------------------ *)
(** ** Deep locate *)

(** C9 (amended). For every sequence of answers reaching a deep-locate
    handler, the location list only holds [IsServer()] entries: those of
    the successful answers it processed, in order. The caller has been
    told nothing yet, or exactly once: either the aggregate, a success
    with the list when it is non-empty and [NotFound] with no response
    when it is empty, or the failure of the very first locate, passed on
    as it came. A failure of a child locate is never passed on. *)
Theorem dl_run_deliveries locate_ok okStatus tr :
  let s := dl_run locate_ok okStatus tr in
  forallb IsServer (pLocations s) = true /\
  (exists k, (k <= List.length tr)%nat /\ pLocations s = found (firstn k tr)) /\
  ((dl_alive s = true /\ dl_out s = []) \/
   (dl_alive s = false /\ dl_out s = [dl_answer okStatus (pLocations s)]) \/
   (dl_alive s = false /\
    exists e, hd_error tr = Some e /\ IsOK (fst e) = false /\ dl_out s = [e])).
Proof.
  intros s.
  assert (H : dl_inv okStatus ([] ++ tr) s).
  { unfold s, dl_run. apply dl_inv_fold.
    split.
    - exists 0%nat. split; [lia|]. split; [reflexivity|intros _; reflexivity].
    - left. auto. }
  destruct H as [(k & Hk & Hl & _) Hc].
  split; [rewrite Hl; apply forallb_found|].
  split; [exists k; auto|].
  destruct Hc as [(_ & H1 & H2 & _)|[(_ & H1 & H2)|[H|H]]]; auto.
Qed.

(** C9 (counterexample). The first locate names two managers; the first
    of them fails while no server entry has been found: the failure is
    not passed on, the caller is told nothing. Likewise when a server
    entry has been found: nothing is returned when the child fails. *)
Lemma dl_child_failure_not_propagated :
  dl_out (dl_run ex_locate_ok ex_ok [(ex_ok, Some [ex_mgr1; ex_mgr2]); (ex_err, None)]) = [] /\
  dl_alive (dl_run ex_locate_ok ex_ok [(ex_ok, Some [ex_mgr1; ex_mgr2]); (ex_err, None)]) = true /\
  pLocations (dl_run ex_locate_ok ex_ok [(ex_ok, Some [ex_mgr1; ex_mgr2]); (ex_err, None)]) = [] /\
  dl_out (dl_run ex_locate_ok ex_ok [(ex_ok, Some [ex_dsrv; ex_mgr1; ex_mgr2]); (ex_err, None)]) = [].
Proof. vm_compute. repeat split. Qed.

(* ------------------------------------------------------------------ *)
(** ** Vector reads *)

(** C6. For a [kXR_readv] whose reply body lays out reply chunks one
    after the other (a 16-byte header in network order, then [rlen]
    data bytes), followed by fewer than 16 trailing bytes: decoding
    succeeds exactly when the reply chunks answer the requested ones
    element-wise, in order (same [rlen] and offset), and there are no
    more of them than were requested; the data of each reply chunk is
    then copied to the buffer of the requested chunk, or dropped when
    it has none. Otherwise the status is a fatal [InvalidResponse] and
    no response object is produced. *)
Theorem ParseResponse_readv_matching d h sid session rs trailer :
  requestid (pRequest h) = kXR_readv ->
  pPartialResps h = [] ->
  pResponse h = Some (mkRsp sid (Rok (readv_body rs ++ trailer)) session) ->
  (forall c, In c rs -> List.length (rc_fhandle c) = 4%nat /\ rc_offset c < two64) ->
  (List.length trailer < 16)%nat ->
  N.of_nat (List.length (readv_body rs ++ trailer)) < two32 ->
  let '(st, obj, copies) := ParseResponse d h in
  (matches_prefix (pChunkList h) rs = true ->
     IsOK st = true /\
     obj = Some (OVectorReadInfo (firstn (List.length rs) (pChunkList h)) (sumlen rs)) /\
     copies = expected_copies (pChunkList h) rs) /\
  (matches_prefix (pChunkList h) rs = false ->
     st = mkStatus stFatal errInvalidResponse 0 /\ obj = None).
Proof.
  intros Hreq Hp Hr Hc Ht Hlen.
  assert (H0 : 0 < two32) by (unfold two32; lia).
  destruct (unpack_enc rs (readv_body rs ++ trailer) [] trailer (pChunkList h) 0 [] []
              eq_refl Hc Ht Hlen H0) as [U1 U2].
  cbn [List.length N.of_nat] in U1, U2.
  unfold ParseResponse. rewrite Hr. cbn [rsp_body]. unfold glue. rewrite Hp.
  unfold rsp_dlen. cbn [rsp_data rsp_body]. rewrite Hreq. cbn [no_body negb].
  unfold UnpackVectorRead.
  destruct (matches_prefix (pChunkList h) rs) eqn:Hm.
  - rewrite (U1 eq_refl). cbn. split; [|discriminate].
    rewrite N.mod_small; [auto|].
    pose proof (sumlen_le rs). rewrite length_app in Hlen. lia.
  - rewrite (U2 eq_refl). cbn. split; [discriminate|auto].
Qed.

Lemma ParseResponse_readv_matching_witness :
  let '(st, obj, copies) := ParseResponse 0 (ex_readv_handler ex_rs) in
  (matches_prefix (pChunkList (ex_readv_handler ex_rs)) ex_rs = true ->
     IsOK st = true /\
     obj = Some (OVectorReadInfo (firstn (List.length ex_rs) (pChunkList (ex_readv_handler ex_rs)))
                                 (sumlen ex_rs)) /\
     copies = expected_copies (pChunkList (ex_readv_handler ex_rs)) ex_rs) /\
  (matches_prefix (pChunkList (ex_readv_handler ex_rs)) ex_rs = false ->
     st = mkStatus stFatal errInvalidResponse 0 /\ obj = None).
Proof.
  apply (ParseResponse_readv_matching 0 (ex_readv_handler ex_rs) 1 0 ex_rs ex_trailer).
  - reflexivity.
  - reflexivity.
  - reflexivity.
  - intros c Hin. simpl in Hin. destruct Hin as [<-|[<-|[]]]; split; vm_compute; reflexivity.
  - simpl. lia.
  - vm_compute. reflexivity.
Defined.

(** C10. A reply that answers only the first chunks of a [kXR_readv],
    each one matching, followed by fewer than 16 trailing bytes, decodes
    successfully: the chunks reported are the requested prefix, their
    data goes to the buffers of that prefix only, and the size is the
    sum of their [rlen]s. *)
Theorem UnpackVectorRead_fewer_chunks cl rs trailer :
  matches_prefix cl rs = true ->
  (List.length rs < List.length cl)%nat ->
  (forall c, In c rs -> List.length (rc_fhandle c) = 4%nat /\ rc_offset c < two64) ->
  (List.length trailer < 16)%nat ->
  N.of_nat (List.length (readv_body rs ++ trailer)) < two32 ->
  UnpackVectorRead cl (readv_body rs ++ trailer) (N.of_nat (List.length (readv_body rs ++ trailer)))
  = mkVRead StatusOK (firstn (List.length rs) cl) (sumlen rs) (expected_copies cl rs).
Proof.
  intros Hm _ Hc Ht Hlen.
  assert (H0 : 0 < two32) by (unfold two32; lia).
  destruct (unpack_enc rs (readv_body rs ++ trailer) [] trailer cl 0 [] []
              eq_refl Hc Ht Hlen H0) as [U1 _].
  unfold UnpackVectorRead. cbn [List.length N.of_nat] in U1. rewrite (U1 Hm).
  cbn [app N.add]. rewrite N.mod_small; [reflexivity|].
  pose proof (sumlen_le rs). rewrite length_app in Hlen. lia.
Qed.

Lemma UnpackVectorRead_fewer_chunks_witness :
  UnpackVectorRead ex_cl (readv_body ex_rs ++ ex_trailer)
                   (N.of_nat (List.length (readv_body ex_rs ++ ex_trailer)))
  = mkVRead StatusOK (firstn (List.length ex_rs) ex_cl) (sumlen ex_rs) (expected_copies ex_cl ex_rs).
Proof.
  apply (UnpackVectorRead_fewer_chunks ex_cl ex_rs ex_trailer).
  - vm_compute. reflexivity.
  - simpl. lia.
  - intros c Hin. simpl in Hin. destruct Hin as [<-|[<-|[]]]; split; vm_compute; reflexivity.
  - simpl. lia.
  - vm_compute. reflexivity.
Defined.

(* ================================================================== *)
(** * Further properties *)

(** ** The in-queue *)

Lemma subseq_refl {A} (l : list A) : subseq l l.
Proof. induction l; constructor; assumption. Qed.

Lemma subseq_app_kept {A} (kept : list A) x l l' :
  (kept = [] \/ kept = [x]) -> subseq l l' -> subseq (kept ++ l) (x :: l').
Proof. intros [->| ->] H; cbn; [apply subseq_skip|apply subseq_keep]; exact H. Qed.

Lemma subseq_app {A} (l1 l1' l2 l2' : list A) :
  subseq l1 l1' -> subseq l2 l2' -> subseq (l1 ++ l2) (l1' ++ l2').
Proof.
  intros H1 H2. induction H1; cbn.
  - exact H2.
  - apply subseq_skip. exact IHsubseq.
  - apply subseq_keep. exact IHsubseq.
Qed.

Lemma kept_cases {A} (b : bool) (x : A) :
  (if b then [] else [x]) = [] \/ (if b then [] else [x]) = [x].
Proof. destruct b; [left|right]; reflexivity. Qed.

Lemma ReportTimeout_loop_eq {Hnd W : Type} (hOSE : Hnd -> StreamEvent -> N -> Status -> W -> N * W)
      d now hl w :
  ReportTimeout_loop hOSE d now hl w =
  (filter (fun he => negb (snd he <=? now)%Z) hl,
   fold_left (fun w he => snd (hOSE (fst he) Timeout 0 (mkStatus stError errOperationExpired d) w))
             (filter (fun he => (snd he <=? now)%Z) hl) w).
Proof.
  revert w; induction hl as [|[h e] tl IH]; intros w; cbn; [reflexivity|].
  destruct (e <=? now)%Z; cbn.
  - destruct (hOSE h Timeout _ _ w) as [a w1] eqn:E.
    rewrite IH. reflexivity.
  - rewrite IH. reflexivity.
Qed.

Lemma ReportStreamEvent_loop_spec {Hnd W : Type}
      (hOSE : Hnd -> StreamEvent -> N -> Status -> W -> N * W) ev num st hl w :
  let '(hl', w') := ReportStreamEvent_loop hOSE ev num st hl w in
  w' = fold_left (fun w he => snd (hOSE (fst he) ev num st w)) hl w /\ subseq hl' hl /\
  ((forall h w, has_bit (fst (hOSE h ev num st w)) RemoveHandler = true) -> hl' = []).
Proof.
  revert w; induction hl as [|he tl IH]; intros w; cbn.
  - split; [reflexivity|split; [constructor|reflexivity]].
  - destruct (hOSE (fst he) ev num st w) as [a w1] eqn:E.
    specialize (IH w1).
    destruct (ReportStreamEvent_loop hOSE ev num st tl w1) as [tl' w2].
    destruct IH as (IH1 & IH2 & IH3).
    split; [exact IH1|split].
    + apply subseq_app_kept; [apply kept_cases|exact IH2].
    + intros Hall. pose proof (Hall (fst he) w) as Ha. rewrite E in Ha. cbn in Ha.
      rewrite Ha, (IH3 Hall). reflexivity.
Qed.

Lemma AddMessage_loop_spec {Hnd Msg W : Type} (hOI : Hnd -> Msg -> W -> N * W) msg hl a0 w :
  has_bit a0 Take = false ->
  let '(hl', a, w') := AddMessage_loop hOI msg hl a0 w in
  (has_bit a Take = false /\
   w' = fold_left (fun w he => snd (hOI (fst he) msg w)) hl w /\ subseq hl' hl) \/
  (has_bit a Take = true /\
   exists pre he post pre',
     hl = pre ++ he :: post /\
     hOI (fst he) msg (fold_left (fun w he => snd (hOI (fst he) msg w)) pre w) = (a, w') /\
     subseq pre' pre /\
     hl' = pre' ++ (if has_bit a RemoveHandler then [] else [he]) ++ post).
Proof.
  revert a0 w; induction hl as [|he tl IH]; intros a0 w H0; cbn.
  - left. split; [exact H0|split; [reflexivity|constructor]].
  - destruct (hOI (fst he) msg w) as [a1 w1] eqn:E.
    destruct (has_bit a1 Take) eqn:T.
    + right. split; [exact T|].
      exists [], he, tl, []. cbn. rewrite E.
      split; [reflexivity|split; [reflexivity|split; [constructor|reflexivity]]].
    + specialize (IH a1 w1 T).
      destruct (AddMessage_loop hOI msg tl a1 w1) as [[tl' a'] w2].
      destruct IH as [(IH1 & IH2 & IH3)|(IH1 & pre & he' & post & pre' & IH2 & IH3 & IH4 & IH5)].
      * left. split; [exact IH1|split; [exact IH2|]].
        apply subseq_app_kept; [apply kept_cases|exact IH3].
      * right. split; [exact IH1|].
        exists (he :: pre), he', post, ((if has_bit a1 RemoveHandler then [] else [he]) ++ pre').
        cbn. rewrite E. cbn.
        split; [rewrite IH2; reflexivity|split; [exact IH3|split]].
        -- apply subseq_app_kept; [apply kept_cases|exact IH4].
        -- rewrite IH5, app_assoc. reflexivity.
Qed.

Lemma AddMessageHandler_loop_spec {Hnd Msg W : Type} (hOI : Hnd -> Msg -> W -> N * W) h ml a0 w :
  has_bit a0 RemoveHandler = false ->
  let '(ml', a, w') := AddMessageHandler_loop hOI h ml a0 w in
  (has_bit a RemoveHandler = false /\
   w' = fold_left (fun w m => snd (hOI h m w)) ml w /\ subseq ml' ml) \/
  (has_bit a RemoveHandler = true /\
   exists pre m post pre',
     ml = pre ++ m :: post /\
     hOI h m (fold_left (fun w m => snd (hOI h m w)) pre w) = (a, w') /\
     subseq pre' pre /\
     ml' = pre' ++ (if has_bit a Take then [] else [m]) ++ post).
Proof.
  revert a0 w; induction ml as [|m tl IH]; intros a0 w H0; cbn.
  - left. split; [exact H0|split; [reflexivity|constructor]].
  - destruct (hOI h m w) as [a1 w1] eqn:E.
    destruct (has_bit a1 RemoveHandler) eqn:T.
    + right. split; [exact T|].
      exists [], m, tl, []. cbn. rewrite E.
      split; [reflexivity|split; [reflexivity|split; [constructor|reflexivity]]].
    + specialize (IH a1 w1 T).
      destruct (AddMessageHandler_loop hOI h tl a1 w1) as [[tl' a'] w2].
      destruct IH as [(IH1 & IH2 & IH3)|(IH1 & pre & m' & post & pre' & IH2 & IH3 & IH4 & IH5)].
      * left. split; [exact IH1|split; [exact IH2|]].
        apply subseq_app_kept; [apply kept_cases|exact IH3].
      * right. split; [exact IH1|].
        exists (m :: pre), m', post, ((if has_bit a1 Take then [] else [m]) ++ pre').
        cbn. rewrite E. cbn.
        split; [rewrite IH2; reflexivity|split; [exact IH3|split]].
        -- apply subseq_app_kept; [apply kept_cases|exact IH4].
        -- rewrite IH5, app_assoc. reflexivity.
Qed.

(** X1. [InQueue::AddMessage] never loses a message. Either no handler
    takes it: then every registered handler was offered it, in order,
    the message is kept at the front of the queue's messages and the
    handler list only lost entries. Or one handler takes it: the
    handlers before it were offered the message, the scan stops there,
    the message is not stored, and the handlers after the taker are
    neither called nor removed. *)
Theorem AddMessage_taken_or_kept {Hnd Msg W : Type} (hOI : Hnd -> Msg -> W -> N * W)
        msg (q : @InQueue Hnd Msg) w :
  let '(r, q', w') := AddMessage hOI msg q w in
  r = true /\
  ((pMessages q' = msg :: pMessages q /\
    w' = fold_left (fun w he => snd (hOI (fst he) msg w)) (pHandlers q) w /\
    subseq (pHandlers q') (pHandlers q)) \/
   (pMessages q' = pMessages q /\
    exists pre he post pre' a,
      pHandlers q = pre ++ he :: post /\
      hOI (fst he) msg (fold_left (fun w he => snd (hOI (fst he) msg w)) pre w) = (a, w') /\
      has_bit a Take = true /\ subseq pre' pre /\
      pHandlers q' = pre' ++ (if has_bit a RemoveHandler then [] else [he]) ++ post)).
Proof.
  unfold AddMessage.
  pose proof (AddMessage_loop_spec hOI msg (pHandlers q) 0 w eq_refl) as H.
  destruct (AddMessage_loop hOI msg (pHandlers q) 0 w) as [[hl a] w'].
  split; [reflexivity|].
  destruct H as [(H1 & H2 & H3)|(H1 & pre & he & post & pre' & H2 & H3 & H4 & H5)];
    rewrite H1; cbn.
  - left. split; [reflexivity|split; assumption].
  - right. split; [reflexivity|]. exists pre, he, post, pre', a. auto.
Qed.

(** X2. [InQueue::AddMessageHandler] either registers the handler, at
    the end of the handler list, after offering it every queued message
    in order (the messages it takes are erased, the others stay in
    order), or, when the handler answers [RemoveHandler] for a message,
    stops there without registering it: the messages after that one are
    neither offered nor removed. *)
Theorem AddMessageHandler_registered_or_done {Hnd Msg W : Type} (hOI : Hnd -> Msg -> W -> N * W)
        h expires (q : @InQueue Hnd Msg) w :
  let '(q', w') := AddMessageHandler hOI h expires q w in
  (pHandlers q' = pHandlers q ++ [(h, expires)] /\
   w' = fold_left (fun w m => snd (hOI h m w)) (pMessages q) w /\
   subseq (pMessages q') (pMessages q)) \/
  (pHandlers q' = pHandlers q /\
   exists pre m post pre' a,
     pMessages q = pre ++ m :: post /\
     hOI h m (fold_left (fun w m => snd (hOI h m w)) pre w) = (a, w') /\
     has_bit a RemoveHandler = true /\ subseq pre' pre /\
     pMessages q' = pre' ++ (if has_bit a Take then [] else [m]) ++ post).
Proof.
  unfold AddMessageHandler.
  pose proof (AddMessageHandler_loop_spec hOI h (pMessages q) 0 w eq_refl) as H.
  destruct (AddMessageHandler_loop hOI h (pMessages q) 0 w) as [[ml a] w'].
  destruct H as [(H1 & H2 & H3)|(H1 & pre & m & post & pre' & H2 & H3 & H4 & H5)];
    rewrite H1; cbn.
  - left. split; [reflexivity|split; assumption].
  - right. split; [reflexivity|]. exists pre, m, post, pre', a. auto.
Qed.

(** X3. [InQueue::ReportStreamEvent] calls every registered handler
    once, in order, with the event; the messages stay as they are and
    the handlers left are the registered ones minus those that asked
    for removal, in order. When every handler asks for removal on this
    event, no handler is left. *)
Theorem ReportStreamEvent_calls_all {Hnd Msg W : Type}
        (hOSE : Hnd -> StreamEvent -> N -> Status -> W -> N * W) ev num st
        (q : @InQueue Hnd Msg) w :
  let '(q', w') := ReportStreamEvent hOSE ev num st q w in
  pMessages q' = pMessages q /\
  w' = fold_left (fun w he => snd (hOSE (fst he) ev num st w)) (pHandlers q) w /\
  subseq (pHandlers q') (pHandlers q) /\
  ((forall h w, has_bit (fst (hOSE h ev num st w)) RemoveHandler = true) -> pHandlers q' = []).
Proof.
  unfold ReportStreamEvent.
  pose proof (ReportStreamEvent_loop_spec hOSE ev num st (pHandlers q) w) as H.
  destruct (ReportStreamEvent_loop hOSE ev num st (pHandlers q) w) as [hl w'].
  cbn. split; [reflexivity|exact H].
Qed.

(** X4. [InQueue::ReportTimeout( now )], where [now = 0] stands for the
    current time, drops exactly the handlers whose expiration time is
    not after [now], keeps the others in order, leaves the messages
    alone, and reports a [Timeout] event on stream 0 with
    [stError]/[errOperationExpired] to each dropped handler, once, in
    the order they were registered; the others are not called. *)
Theorem ReportTimeout_drops_expired {Hnd Msg W : Type}
        (hOSE : Hnd -> StreamEvent -> N -> Status -> W -> N * W) clock d now
        (q : @InQueue Hnd Msg) w :
  let now' := if (now =? 0)%Z then clock else now in
  ReportTimeout hOSE clock d now q w =
  (mkInQ (pMessages q) (filter (fun he => negb (snd he <=? now')%Z) (pHandlers q)),
   fold_left (fun w he => snd (hOSE (fst he) Timeout 0 (mkStatus stError errOperationExpired d) w))
             (filter (fun he => (snd he <=? now')%Z) (pHandlers q)) w).
Proof.
  cbv zeta. unfold ReportTimeout. rewrite ReportTimeout_loop_eq. reflexivity.
Qed.

(** ** The message handler *)

Lemma OnIncoming_body_take sf pv sa uok d now :
  forall body outs sid session s,
  let '(act, outs', s') := OnIncoming_body sf pv sa uok d now outs sid body session s in
  ((act = Ignore /\ outs' = outs /\ s' = s) \/ has_bit act Take = true) /\
  match body with
  | Rattn _ _ => True
  | _ => has_bit act Take = N.eqb sid (streamid (pRequest (hs s)))
  end.
Proof.
  fix IH 1. intros body outs sid session s.
  destruct body as [data|data|errnum errmsg|port host cgi|secs info|secs|actnum [esid ebody esess]|st];
    cbn [OnIncoming_body].
  7: { destruct (negb (actnum =? kXR_asynresp)); [split; [left; auto|exact I]|].
       destruct (negb (esid =? streamid (pRequest (hs s)))); [split; [left; auto|exact I]|].
       specialize (IH ebody outs esid 0 s).
       destruct (OnIncoming_body sf pv sa uok d now outs esid ebody 0 s) as [[a o] s'].
       split; [exact (proj1 IH)|exact I]. }
  all: destruct (sid =? streamid (pRequest (hs s))) eqn:E; cbn [negb];
       [|split; [left; auto|reflexivity]].
  all: unfold finish; cbv zeta.
  all: repeat match goal with
         | |- context [HandleError ?d ?n ?o ?t ?x] => destruct (HandleError d n o t x)
         | |- context [RetryAndHandle ?d ?n ?o ?u ?x] => destruct (RetryAndHandle d n o u x)
         | |- context [RewriteRequestRedirect ?a ?b ?c ?x] =>
             destruct (RewriteRequestRedirect a b c x) as [[?|] ?]
         | |- context [if ?b then _ else _] => destruct b
         | |- context [match ?x with Some _ => _ | None => _ end] => destruct x
         | x : prod _ _ |- _ => destruct x
         end.
  all: cbv beta iota; split; [right|]; reflexivity.
Qed.

(** X5. [XRootDMsgHandler::OnIncoming] either answers [Ignore] and
    leaves the handler and the pending send results as they were, or
    its answer contains [Take], so the in-queue never offers the message
    to another handler. For every message other than [kXR_attn], it is
    [Take] exactly when the message's stream id is the request's. *)
Theorem OnIncoming_takes_or_ignores sf pv sa uok d now outs msg s :
  let '(act, outs', s') := OnIncoming sf pv sa uok d now outs msg s in
  ((act = Ignore /\ outs' = outs /\ s' = s) \/ has_bit act Take = true) /\
  match rsp_body msg with
  | Rattn _ _ => True
  | _ => has_bit act Take = N.eqb (rsp_sid msg) (streamid (pRequest (hs s)))
  end.
Proof.
  destruct msg as [sid body session]. unfold OnIncoming.
  exact (OnIncoming_body_take sf pv sa uok d now body outs sid session s).
Qed.

(** ** Vector reads *)

Lemma length_bytes_at src off n : N.of_nat (List.length (bytes_at src off n)) <= n.
Proof.
  unfold bytes_at. pose proof (firstn_le_length (N.to_nat n) (skipn (N.to_nat off) src)). lia.
Qed.

Lemma unpack_loop_inv src len : forall rest off size chunks copies,
  size < two32 ->
  let r := unpack_loop src len rest off size chunks copies in
  exists k newc,
    vr_chunks r = chunks ++ firstn k rest /\
    vr_copies r = copies ++ newc /\
    Forall2 copy_fits (filter has_buffer (firstn k rest)) newc /\
    ((vr_status r = StatusOK /\ vr_size r = (size + sum_lengths (firstn k rest)) mod two32) \/
     vr_status r = mkStatus stFatal errInvalidResponse 0).
Proof.
  induction rest as [|req rest' IH]; intros off size chunks copies Hs; cbn [unpack_loop].
  - destruct (len - 16 <? Z.of_N off)%Z; cbn; exists 0%nat, [];
      rewrite !app_nil_r; cbn; (split; [reflexivity|split; [reflexivity|split; [constructor|]]]).
    + left. split; [reflexivity|]. rewrite N.add_0_r, N.mod_small; auto.
    + right. reflexivity.
  - destruct (len - 16 <? Z.of_N off)%Z.
    { cbn. exists 0%nat, []. rewrite !app_nil_r. cbn.
      split; [reflexivity|split; [reflexivity|split; [constructor|]]].
      left. split; [reflexivity|]. rewrite N.add_0_r, N.mod_small; auto. }
    set (rlen := be_N (bytes_at src (off + 4) 4)).
    set (coff := be_N (bytes_at src (off + 8) 8)).
    destruct (rlen =? ck_length req) eqn:E1; destruct (coff =? ck_offset req) eqn:E2; cbn [negb orb].
    2-4: cbn; exists 0%nat, []; rewrite !app_nil_r; cbn;
         split; [reflexivity|split; [reflexivity|split; [constructor|right; reflexivity]]].
    apply N.eqb_eq in E1, E2.
    assert (Hsz : (size + rlen) mod two32 < two32) by (apply N.mod_lt; unfold two32; lia).
    destruct (IH ((off + 16 + rlen) mod two32) ((size + rlen) mod two32)
                 (chunks ++ [mkChunk coff rlen (ck_buffer req)])
                 (match ck_buffer req with
                  | Some b => copies ++ [(b, bytes_at src (off + 16) rlen)]
                  | None => copies end) Hsz)
      as (k & newc & H1 & H2 & H3 & H4).
    assert (Hreq : mkChunk coff rlen (ck_buffer req) = req) by (rewrite E1, E2; destruct req; reflexivity).
    exists (S k), (match ck_buffer req with
                  | Some b => (b, bytes_at src (off + 16) rlen) :: newc
                  | None => newc end).
    cbn [firstn filter sum_lengths fold_right]. fold (sum_lengths (firstn k rest')).
    split; [rewrite H1, Hreq, <- app_assoc; reflexivity|split; [|split]].
    + destruct (ck_buffer req); [rewrite H2, <- app_assoc; reflexivity|exact H2].
    + unfold has_buffer at 1. destruct (ck_buffer req) as [b|] eqn:Eb; [|exact H3].
      constructor; [|exact H3]. split; [exact Eb|]. cbn [snd]. rewrite <- E1. apply length_bytes_at.
    + destruct H4 as [[H4 H5]|H4]; [left|right; exact H4].
      split; [exact H4|]. rewrite H5, N.Div0.add_mod_idemp_l, <- E1, N.add_assoc. reflexivity.
Qed.

Lemma UnpackVectorRead_inv cl src n :
  let r := UnpackVectorRead cl src n in
  exists k,
    vr_chunks r = firstn k cl /\
    Forall2 copy_fits (filter has_buffer (vr_chunks r)) (vr_copies r) /\
    ((vr_status r = StatusOK /\ vr_size r = sum_lengths (vr_chunks r) mod two32) \/
     vr_status r = mkStatus stFatal errInvalidResponse 0).
Proof.
  cbv zeta. unfold UnpackVectorRead.
  destruct (unpack_loop_inv src (Z.of_N n) cl 0 0 [] [] ltac:(unfold two32; lia))
    as (k & newc & H1 & H2 & H3 & H4).
  exists k. rewrite H1, H2. cbn [app].
  split; [reflexivity|split; [exact H3|]].
  destruct H4 as [[H4 H5]|H4]; [left; split; [exact H4|]|right; exact H4].
  rewrite H5. reflexivity.
Qed.

(** X6. The chunks [UnpackVectorRead] reports are always the first
    chunks of the request, unchanged and in order, whatever the reply
    holds. *)
Theorem UnpackVectorRead_chunks_prefix cl src n :
  exists k, vr_chunks (UnpackVectorRead cl src n) = firstn k cl.
Proof.
  destruct (UnpackVectorRead_inv cl src n) as (k & H & _). exists k. exact H.
Qed.

(** X7. [UnpackVectorRead] copies data only into the buffers of the
    chunks it reports: one copy per reported chunk that has a buffer, in
    order, into that chunk's buffer, and never more bytes than the
    chunk's requested length. *)
Theorem UnpackVectorRead_copies_fit cl src n :
  let r := UnpackVectorRead cl src n in
  Forall2 copy_fits (filter has_buffer (vr_chunks r)) (vr_copies r).
Proof.
  destruct (UnpackVectorRead_inv cl src n) as (k & _ & H & _). exact H.
Qed.

(** X8. [UnpackVectorRead] ends either in success, with a size equal to
    the sum of the reported chunks' lengths modulo 2^32, or with a fatal
    [errInvalidResponse] status; it reports no other status. *)
Theorem UnpackVectorRead_status_size cl src n :
  let r := UnpackVectorRead cl src n in
  (vr_status r = StatusOK /\ vr_size r = sum_lengths (vr_chunks r) mod two32) \/
  vr_status r = mkStatus stFatal errInvalidResponse 0.
Proof.
  destruct (UnpackVectorRead_inv cl src n) as (k & _ & _ & H). exact H.
Qed.

(** ** Reads *)

Lemma ParseResponse_read_fits d h :
  requestid (pRequest h) = kXR_read ->
  Forall (copy_fits (hd default_chunk (pChunkList h))) (snd (ParseResponse d h)) /\
  (List.length (snd (ParseResponse d h)) <= 1)%nat.
Proof.
  intros Hr. unfold ParseResponse.
  destruct (pResponse h) as [rsp|]; [|split; cbn; auto].
  destruct (rsp_body rsp);
    try (destruct (negb (pRedirectAsAnswer h)); split; cbn; auto; fail);
    try (split; cbn; auto; fail).
  destruct (glue (pPartialResps h) rsp) as [buffer length].
  rewrite Hr. cbn [no_body].
  destruct (ck_length (hd default_chunk (pChunkList h)) <? length) eqn:Hlt; [split; cbn; auto|].
  destruct (ck_buffer (hd default_chunk (pChunkList h))) as [b|] eqn:Eb; cbn; [|split; auto].
  split; [|auto]. constructor; [|constructor]. split; [exact Eb|]. cbn [snd].
  apply N.ltb_ge in Hlt. rewrite length_firstn. lia.
Qed.

(** X9. For a [kXR_read] request, [HandleResponse] writes into the
    caller's memory at most once, into the buffer of the request's
    chunk, and never more bytes than the chunk's length; everything else
    it does (the SID disposal and the delivery) writes no buffer. *)
Theorem HandleResponse_read_copy_fits d s :
  requestid (pRequest (hs s)) = kXR_read ->
  exists cps rest,
    fx (HandleResponse d s) = fx s ++ map ECopy cps ++ rest /\
    Forall (copy_fits (hd default_chunk (pChunkList (hs s)))) cps /\
    (List.length cps <= 1)%nat /\
    Forall (fun e => match e with ECopy _ => False | _ => True end) rest.
Proof.
  intros Hr. unfold HandleResponse.
  pose proof (ParseResponse_read_fits d (hs s) Hr) as [Hf Hl].
  destruct (IsOK (ProcessStatus (hs s))).
  - destruct (ParseResponse d (hs s)) as [[pst r] c]. cbn [snd] in Hf, Hl.
    destruct (IsOK pst); cbn [fx]; do 2 eexists; (split; [reflexivity|]);
      (split; [exact Hf|split; [exact Hl|]]);
      (match goal with |- context [if ?b then _ else _] => destruct b end); repeat constructor.
  - cbn [fx]. do 2 eexists. split; [reflexivity|].
    split; [constructor|split; [cbn; lia|]].
    match goal with |- context [if ?b then _ else _] => destruct b end; repeat constructor.
Qed.

Lemma HandleResponse_read_copy_fits_witness :
  let s := mkHState (mkHandler (mkRequest 1 kXR_read 0 0 0 0 [] 0)
                               (Some (mkRsp 1 (Rok [x61; x62]) 0)) [] ex_srv ex_srv
                               (mkStatus stOK errNone 0) 100 false [host_of ex_srv] false
                               (host_of noURL) "" [mkChunk 0 4 (Some 1)] 16) [] true in
  requestid (pRequest (hs s)) = kXR_read /\
  exists cps rest,
    fx (HandleResponse 0 s) = fx s ++ map ECopy cps ++ rest /\
    Forall (copy_fits (hd default_chunk (pChunkList (hs s)))) cps /\
    (List.length cps <= 1)%nat /\
    Forall (fun e => match e with ECopy _ => False | _ => True end) rest.
Proof.
  cbv zeta. split; [reflexivity|]. apply HandleResponse_read_copy_fits. reflexivity.
Defined.

(** ** Stream events *)

Lemma length_update_nth {A} n f (l : list A) : List.length (update_nth n f l) = List.length l.
Proof. revert n; induction l as [|x tl IH]; intros [|n]; simpl; auto. Qed.

(** Updates that keep the out-queue keep every out-queue. *)
Lemma queues_update_nth n f (l : list SubStreamData) :
  (forall s, ss_outQueue (f s) = ss_outQueue s) ->
  map ss_outQueue (update_nth n f l) = map ss_outQueue l.
Proof.
  intros Hf. revert n; induction l as [|x tl IH]; intros [|n]; simpl; try rewrite Hf, ?IH; auto.
  rewrite IH. reflexivity.
Qed.

Lemma fold_GrabItems (l : list SubStreamData) q :
  fold_left (fun q s => GrabItems q (ss_outQueue s)) l q = q ++ List.concat (map ss_outQueue l).
Proof.
  revert q; induction l as [|x tl IH]; intros q; simpl; [rewrite app_nil_r; reflexivity|].
  rewrite IH. unfold GrabItems. rewrite app_assoc. reflexivity.
Qed.

(** Moving the out-queue of the [j]-th element to the front keeps the
    items. *)
Lemma move_queue_perm j (l : list SubStreamData) :
  Permutation (ss_outQueue (nth j l noSub) ++
               List.concat (map ss_outQueue (update_nth j (fun s => mkSub (ss_status s) []) l)))
              (List.concat (map ss_outQueue l)).
Proof.
  revert j; induction l as [|x tl IH]; intros [|j]; simpl; try reflexivity.
  rewrite app_assoc. eapply perm_trans; [apply Permutation_app_tail, Permutation_app_comm|].
  rewrite <- app_assoc. apply Permutation_app_head. apply IH.
Qed.

Lemma connect_subs_step_perm cs i st :
  i <> 0 ->
  let st' := if IsOK (cs i) then upd_sub i (fun s => mkSub Connecting (ss_outQueue s)) st
             else let items := ss_outQueue (sub st i) in
                  upd_sub i (fun s => mkSub (ss_status s) [])
                          (upd_sub 0 (fun s => mkSub (ss_status s) (GrabItems (ss_outQueue s) items)) st) in
  Permutation (List.concat (map ss_outQueue (pSubStreams st')))
              (List.concat (map ss_outQueue (pSubStreams st))) /\
  pSessionId st' = pSessionId st /\ pConnectionCount st' = pConnectionCount st /\
  pLastStreamError st' = pLastStreamError st /\
  ss_status (sub st' 0) = ss_status (sub st 0).
Proof.
  intros Hi. cbv zeta. destruct (IsOK (cs i)).
  - unfold upd_sub, set_subs, sub; cbn. rewrite queues_update_nth by reflexivity.
    split; [reflexivity|split; [reflexivity|split; [reflexivity|split; [reflexivity|]]]].
    destruct (pSubStreams st) as [|x tl]; [destruct (N.to_nat i); reflexivity|].
    destruct (N.to_nat i) eqn:E; [exfalso; apply Hi; lia|reflexivity].
  - unfold upd_sub, set_subs, sub; cbn.
    split; [|split; [reflexivity|split; [reflexivity|split; [reflexivity|]]]].
    + destruct (pSubStreams st) as [|x tl]; [destruct (N.to_nat i); reflexivity|].
      destruct (N.to_nat i) as [|j] eqn:E; [exfalso; apply Hi; lia|].
      cbn. unfold GrabItems. rewrite <- app_assoc.
      apply Permutation_app_head. apply move_queue_perm.
    + destruct (pSubStreams st) as [|x tl]; [destruct (N.to_nat i); reflexivity|].
      destruct (N.to_nat i) eqn:E; [exfalso; apply Hi; lia|reflexivity].
Qed.

Lemma connect_subs_perm cs : forall k i st,
  i <> 0 ->
  let st' := connect_subs cs i k st in
  Permutation (List.concat (map ss_outQueue (pSubStreams st')))
              (List.concat (map ss_outQueue (pSubStreams st))) /\
  pSessionId st' = pSessionId st /\ pConnectionCount st' = pConnectionCount st /\
  pLastStreamError st' = pLastStreamError st /\
  ss_status (sub st' 0) = ss_status (sub st 0).
Proof.
  induction k as [|k IH]; intros i st Hi; cbn [connect_subs].
  - split; [reflexivity|auto].
  - destruct (connect_subs_step_perm cs i st Hi) as (P1 & P2 & P3 & P4 & P5).
    match goal with |- context [connect_subs cs (i + 1) k ?x] =>
      destruct (IH (i + 1) x ltac:(lia)) as (Q1 & Q2 & Q3 & Q4 & Q5) end.
    split; [eapply perm_trans; [exact Q1|exact P1]|].
    rewrite Q2, Q3, Q4, Q5. auto.
Qed.

Lemma concat_queues_repeat n :
  List.concat (map ss_outQueue (repeat noSub n)) = [].
Proof. induction n; simpl; auto. Qed.

Lemma OnConnect_zero ns cs st :
  let st' := OnConnect ns cs 0 st in
  Permutation (queued st') (queued st) /\ pSessionId st' = pSessionId st + 1 /\
  pConnectionCount st' = 0 /\ pLastStreamError st' = 0%Z /\
  (pSubStreams st <> [] -> ss_status (sub st' 0) = Connected).
Proof.
  cbv zeta. unfold OnConnect. cbn [N.eqb negb].
  set (st1 := upd_sub 0 (fun s => mkSub Connected (ss_outQueue s)) st).
  set (st2 := mkStream (pSubStreams st1) (pSessionId st1 + 1) 0 (pStreamErrorWindow st1)
                       (pConnectionInitTime st1) 0 (pAddresses st1)).
  assert (Q2 : List.concat (map ss_outQueue (pSubStreams st2))
               = List.concat (map ss_outQueue (pSubStreams st))).
  { unfold st2, st1, upd_sub, set_subs. cbn [pSubStreams].
    rewrite queues_update_nth by reflexivity. reflexivity. }
  assert (S2 : pSubStreams st <> [] -> ss_status (sub st2 0) = Connected).
  { unfold st2, st1, upd_sub, set_subs, sub. cbn.
    destruct (pSubStreams st); [contradiction|reflexivity]. }
  set (st3 := if Nat.eqb (List.length (pSubStreams st2)) 1 && N.ltb 1 ns
              then set_subs (pSubStreams st2 ++ repeat noSub (N.to_nat ns - 1)) st2 else st2).
  assert (Q3 : List.concat (map ss_outQueue (pSubStreams st3))
               = List.concat (map ss_outQueue (pSubStreams st))).
  { unfold st3. destruct (_ && _); [|exact Q2].
    cbn. rewrite map_app, concat_app, concat_queues_repeat, app_nil_r. exact Q2. }
  assert (S3 : pSubStreams st <> [] -> ss_status (sub st3 0) = Connected).
  { intros Hne. unfold st3. destruct (_ && _); [|exact (S2 Hne)].
    specialize (S2 Hne). unfold sub in *. cbn [set_subs pSubStreams].
    rewrite app_nth1; [exact S2|].
    unfold st2, st1, upd_sub, set_subs; cbn [pSubStreams]. rewrite length_update_nth.
    destruct (pSubStreams st); [contradiction|cbn; lia]. }
  assert (F3 : pSessionId st3 = pSessionId st + 1 /\ pConnectionCount st3 = 0 /\
               pLastStreamError st3 = 0%Z).
  { unfold st3. destruct (_ && _); cbn; auto. }
  fold st2. fold st3. unfold queued.
  destruct (Nat.ltb 1 (List.length (pSubStreams st3))).
  - destruct (connect_subs_perm cs (List.length (pSubStreams st3) - 1) 1 st3 ltac:(lia))
      as (P1 & P2 & P3 & P4 & P5).
    rewrite P2, P3, P4, P5. split; [|exact (conj (proj1 F3) (conj (proj1 (proj2 F3)) (conj (proj2 (proj2 F3)) S3)))].
    rewrite <- Q3. apply Permutation_map. exact P1.
  - rewrite Q3. split; [reflexivity|]. destruct F3 as (F1 & F2 & F4). auto.
Qed.

Lemma status_update_nth_self n (l : list SubStreamData) x :
  ss_status (nth n (update_nth n (fun s => mkSub x (ss_outQueue s)) l) (mkSub x [])) = x.
Proof. revert n; induction l as [|y tl IH]; intros [|n]; simpl; auto. Qed.

Lemma OnFatalError_spec now num subStream status st :
  let '(st', eff) := OnFatalError now num subStream status st in
  let fatal := mkStatus stFatal (code status) (errNo status) in
  Forall (fun s => ss_outQueue s = []) (pSubStreams st') /\
  eff = map (fun e => SReport e fatal) (List.concat (map ss_outQueue (pSubStreams st)))
        ++ [SInQueueEvent FatalError num fatal; SChannelEvent ChannelFatalError fatal num] /\
  pLastStreamError st' = now /\ pConnectionCount st' = 0 /\ pSessionId st' = pSessionId st /\
  ss_status (sub st' subStream) = Disconnected.
Proof.
  unfold OnFatalError, upd_sub, set_subs. cbn [pSubStreams pSessionId pLastStreamError pConnectionCount].
  rewrite fold_GrabItems, queues_update_nth by reflexivity. cbn [app].
  split; [|split; [reflexivity|split; [reflexivity|split; [reflexivity|split; [reflexivity|]]]]].
  - apply Forall_forall. intros s Hs. apply in_map_iff in Hs. destruct Hs as (x & <- & _). reflexivity.
  - unfold sub. cbn [pSubStreams].
    change noSub with ((fun s => mkSub (ss_status s) []) noSub). rewrite map_nth.
    apply (status_update_nth_self (N.to_nat subStream) (pSubStreams st) Disconnected).
Qed.

(** X10. [Stream::OnFatalError( subStream, status )] empties every
    out-queue of the stream and reports each queued item once, in queue
    order (sub-stream 0 first), with the status made fatal; then it
    reports a [FatalError] event to the in-queue and to the channel's
    event handlers. It marks the failing sub-stream [Disconnected],
    records the time of the error in [pLastStreamError], resets the
    connection count and keeps the session id. *)
Theorem OnFatalError_drains now num subStream status st :
  let '(st', eff) := OnFatalError now num subStream status st in
  let fatal := mkStatus stFatal (code status) (errNo status) in
  Forall (fun s => ss_outQueue s = []) (pSubStreams st') /\
  eff = map (fun e => SReport e fatal) (List.concat (map ss_outQueue (pSubStreams st)))
        ++ [SInQueueEvent FatalError num fatal; SChannelEvent ChannelFatalError fatal num] /\
  pLastStreamError st' = now /\ pConnectionCount st' = 0 /\ pSessionId st' = pSessionId st /\
  ss_status (sub st' subStream) = Disconnected.
Proof.
  exact (OnFatalError_spec now num subStream status st).
Qed.

Lemma OnFatalError_fields now num subStream status st :
  let st' := fst (OnFatalError now num subStream status st) in
  ss_status (sub st' subStream) = Disconnected /\ pLastStreamError st' = now /\
  pStreamErrorWindow st' = pStreamErrorWindow st /\ pSessionId st' = pSessionId st.
Proof.
  cbn zeta. unfold OnFatalError, upd_sub, set_subs, fst. cbn [pSubStreams pSessionId pLastStreamError pStreamErrorWindow].
  split; [|repeat split]. unfold sub. cbn [pSubStreams].
  change noSub with ((fun s => mkSub (ss_status s) []) noSub). rewrite map_nth.
  apply (status_update_nth_self (N.to_nat subStream) (pSubStreams st) Disconnected).
Qed.

(** X11. Within [pStreamErrorWindow] seconds of a fatal error on
    sub-stream 0, [Stream::Send] queues nothing and leaves the stream as
    it is: a message bound to a session is bounced with
    [errInvalidSession], and a message of no session gets the fatal
    [errConnectionError] of [EnableLink], which does not try to
    reconnect. *)
Theorem Send_after_fatal_error MSS EU GHA Conn d t now' num status st msg h sf exp :
  (now' - t < pStreamErrorWindow st)%Z ->
  let st1 := fst (OnFatalError t num 0 status st) in
  Send MSS EU GHA Conn now' d msg h sf exp st1 =
    ((if msg_session msg =? 0 then mkStatus stFatal errConnectionError d
      else mkStatus stError errInvalidSession d), st1).
Proof.
  intros Hw st1.
  destruct (OnFatalError_fields t num 0 status st) as (S0 & L & W & _). fold st1 in S0, L, W.
  unfold Send. rewrite S0. destruct (msg_session msg =? 0) eqn:E; cbn [negb andb orb socket_eqb].
  - unfold EnableLink. rewrite S0. cbn [socket_eqb]. rewrite L, W.
    replace ((now' - t <? pStreamErrorWindow st)%Z) with true by (symmetry; apply Z.ltb_lt; exact Hw).
    reflexivity.
  - reflexivity.
Qed.

(** X12. When sub-stream 0 of a stream with at least one sub-stream
    connects, [Stream::OnConnect] marks it [Connected], starts a new
    session (the session id goes up by one), clears the error time and
    the connection count, and loses or duplicates no queued message:
    the out-queues together hold the same messages as before, although a
    sub-stream that cannot connect hands its queue to sub-stream 0. *)
Theorem OnConnect_main_new_session ns cs st :
  pSubStreams st <> [] ->
  let st' := OnConnect ns cs 0 st in
  ss_status (sub st' 0) = Connected /\ pSessionId st' = pSessionId st + 1 /\
  pConnectionCount st' = 0 /\ pLastStreamError st' = 0%Z /\
  Permutation (queued st') (queued st).
Proof.
  intros Hne. cbv zeta.
  destruct (OnConnect_zero ns cs st) as (P & S & C & L & T).
  repeat split; auto.
Qed.

Lemma Send_after_fatal_error_witness :
  (105 - 100 < pStreamErrorWindow ex_stream)%Z /\
  let st1 := fst (OnFatalError 100 1 0 ex_fatal ex_stream) in
  Send ex_mss ex_uplink_ok ex_gha ex_connect 105 0 ex_msg 3 false 60 st1 =
    ((if msg_session ex_msg =? 0 then mkStatus stFatal errConnectionError 0
      else mkStatus stError errInvalidSession 0), st1).
Proof.
  split; [vm_compute; reflexivity|].
  apply (Send_after_fatal_error ex_mss ex_uplink_ok ex_gha ex_connect 0 100 105 1 ex_fatal
           ex_stream ex_msg 3 false 60).
  vm_compute; reflexivity.
Defined.

Lemma OnConnect_main_new_session_witness :
  pSubStreams ex_connecting <> [] /\
  let st' := OnConnect 3 ex_connect_sub 0 ex_connecting in
  ss_status (sub st' 0) = Connected /\ pSessionId st' = pSessionId ex_connecting + 1 /\
  pConnectionCount st' = 0 /\ pLastStreamError st' = 0%Z /\
  Permutation (queued st') (queued ex_connecting).
Proof.
  split; [discriminate|].
  apply (OnConnect_main_new_session 3 ex_connect_sub ex_connecting).
  discriminate.
Defined.

(** X13. A message stamped with the session of a stream before its
    sub-stream 0 reconnected is bounced by [Stream::Send] with
    [errInvalidSession]: after [OnConnect( 0 )] the session id has moved
    on, and nothing is queued. *)
Theorem Send_after_reconnect_refuses_old_session
    ns cs MSS EU GHA Conn now d msg h sf exp st :
  msg_session msg <> 0 -> msg_session msg = pSessionId st ->
  let st' := OnConnect ns cs 0 st in
  Send MSS EU GHA Conn now d msg h sf exp st' = (mkStatus stError errInvalidSession d, st').
Proof.
  intros Hz Hs st'.
  destruct (OnConnect_zero ns cs st) as (_ & S & _). fold st' in S.
  unfold Send.
  replace (msg_session msg =? 0) with false by (symmetry; apply N.eqb_neq; exact Hz).
  replace (pSessionId st' =? msg_session msg) with false
    by (symmetry; apply N.eqb_neq; rewrite S, Hs; lia).
  rewrite orb_true_r. reflexivity.
Qed.

Lemma Send_after_reconnect_refuses_old_session_witness :
  msg_session ex_msg <> 0 /\ msg_session ex_msg = pSessionId ex_connecting /\
  let st' := OnConnect 3 ex_connect_sub 0 ex_connecting in
  Send ex_mss ex_uplink_ok ex_gha ex_connect 105 0 ex_msg 3 false 60 st' =
    (mkStatus stError errInvalidSession 0, st').
Proof.
  split; [discriminate|]. split; [reflexivity|].
  apply (Send_after_reconnect_refuses_old_session 3 ex_connect_sub ex_mss ex_uplink_ok ex_gha
           ex_connect 105 0 ex_msg 3 false 60 ex_connecting); [discriminate|reflexivity].
Defined.

(** ** Redirect rewriting *)

(** X14. [RewriteRequestRedirect] always gives the request's SID back
    to the SID manager it came from, first, and makes the destination's
    channel the SID manager. When the destination has a free SID, the
    request gets it and the call succeeds; otherwise it fails with
    [errNoMoreFreeSIDs] and the request keeps the SID it has just given
    back. *)
Theorem RewriteRequestRedirect_sids sa d newCgi s :
  let h := hs s in
  let '(r, s') := RewriteRequestRedirect sa d newCgi s in
  pSidMgr (hs s') = pUrl h /\ alive s' = alive s /\
  match sa (pUrl h) with
  | None => r = Some (Status2 d stError errNoMoreFreeSIDs) /\
            fx s' = fx s ++ [EReleaseSID (pSidMgr h) (streamid (pRequest h))] /\
            pRequest (hs s') = pRequest h
  | Some sid => r = None /\
            fx s' = fx s ++ [EReleaseSID (pSidMgr h) (streamid (pRequest h)); EAllocSID (pUrl h) sid] /\
            streamid (pRequest (hs s')) = sid
  end.
Proof.
  cbv zeta. unfold RewriteRequestRedirect. cbn [hs].
  destruct (sa (pUrl (hs s))) as [sid|].
  - destruct newCgi as [|kv tl]; cbn; (split; [reflexivity|split; [reflexivity|]]);
      (split; [reflexivity|split; [rewrite <- app_assoc; reflexivity|reflexivity]]).
  - cbn. repeat split.
Qed.

Lemma promote_lb_keeps h :
  pRedirectAsAnswer (promote_lb h) = pRedirectAsAnswer h /\ pSidMgr (promote_lb h) = pSidMgr h /\
  pRequest (promote_lb h) = pRequest h /\ pUrl (promote_lb h) = pUrl h.
Proof.
  unfold promote_lb.
  repeat match goal with |- context [if ?b then _ else _] => destruct b end; repeat split.
Qed.

Lemma RewriteRequestRedirect_nosid sa d newCgi s :
  sa (pUrl (hs s)) = None ->
  RewriteRequestRedirect sa d newCgi s =
  (Some (Status2 d stError errNoMoreFreeSIDs),
   emit (EReleaseSID (pSidMgr (hs s)) (streamid (pRequest (hs s))))
        (upd (set_pSidMgr (pUrl (hs s))) s)).
Proof. intros H. unfold RewriteRequestRedirect. cbn [hs upd emit]. rewrite H. reflexivity. Qed.

Lemma HandleResponse_plain_error d st s :
  IsOK st = false -> code_eqb (code st) errErrorResponse = false ->
  code_eqb (code st) errOperationExpired = false ->
  let s' := HandleResponse d (upd (set_pStatus st) s) in
  fx s' = fx s ++ [EReleaseSID (pSidMgr (hs s)) (streamid (pRequest (hs s)));
                   EDeliver st None (pHosts (hs s))] /\ alive s' = false.
Proof.
  intros Hok He Hx. cbv zeta. unfold HandleResponse, ProcessStatus. cbn [hs upd fx alive].
  assert (E : match pResponse (set_pStatus st (hs s)) with
              | Some rsp => match rsp_body rsp with
                            | Rerror errnum _ =>
                                if negb (IsOK (pStatus (set_pStatus st (hs s))))
                                   && code_eqb (code (pStatus (set_pStatus st (hs s)))) errErrorResponse
                                then mkStatus (status (pStatus (set_pStatus st (hs s))))
                                              (code (pStatus (set_pStatus st (hs s)))) errnum
                                else pStatus (set_pStatus st (hs s))
                            | _ => pStatus (set_pStatus st (hs s)) end
              | None => pStatus (set_pStatus st (hs s)) end = st).
  { cbn [pStatus set_pStatus]. destruct (pResponse _) as [[? [] ?]|]; try reflexivity.
    rewrite He, andb_false_r. reflexivity. }
  rewrite E, Hok. cbn [negb andb]. rewrite Hx, andb_false_r. split; reflexivity.
Qed.

(** X15. When a [kXR_redirect] is to be followed (the redirect counter
    is positive, the target is a valid URL, redirects are not taken as
    answers) but the target's channel has no free SID, [OnIncoming]
    ends the request with [errNoMoreFreeSIDs], and the request's SID is
    released twice: to its own SID manager by [RewriteRequestRedirect],
    then to the target's SID manager, which never allocated it, by
    [HandleResponse]. *)
Theorem OnIncoming_redirect_no_sid_releases_twice sf pv sa uok d now outs port host cgi session s :
  let h := hs s in
  pRedirectCounter h <> 0 -> uok host port = true -> pRedirectAsAnswer h = false ->
  sa (mkURL host port true) = None ->
  let '(act, outs', s') :=
    OnIncoming sf pv sa uok d now outs
               (mkRsp (streamid (pRequest h)) (Rredirect port host cgi) session) s in
  act = N.lor Take RemoveHandler /\ outs' = outs /\ alive s' = false /\
  exists hosts,
    fx s' = fx s ++ [EReleaseSID (pSidMgr h) (streamid (pRequest h));
                     EReleaseSID (mkURL host port true) (streamid (pRequest h));
                     EDeliver (Status2 d stError errNoMoreFreeSIDs) None hosts].
Proof.
  cbv zeta. intros Hc Hu Ha Hs.
  unfold OnIncoming. cbn [OnIncoming_body]. rewrite N.eqb_refl. cbn [negb hs upd pRedirectCounter].
  change (pRedirectCounter (set_pHosts ?a (hs s))) with (pRedirectCounter (hs s)).
  rewrite (proj2 (N.eqb_neq _ 0) Hc), Hu. cbn [url_valid negb].
  destruct cgi as [[raw params]|]; cbv beta iota; unfold upd; cbn [hs fx alive].
  all: match goal with |- context [promote_lb ?x] =>
         destruct (promote_lb_keeps x) as (P1 & P2 & P3 & P4); generalize dependent (promote_lb x) end.
  all: intros hp P1 P2 P3 P4.
  all: cbn [pRedirectAsAnswer set_pRedirectCgi set_pUrl]; rewrite P1; cbn [pRedirectAsAnswer set_pRedirectCounter set_pHosts]; rewrite Ha.
  all: rewrite RewriteRequestRedirect_nosid by (cbn [hs pUrl set_pRedirectCgi set_pUrl]; exact Hs).
  all: unfold finish.
  all: match goal with |- context [HandleResponse ?dd (upd (set_pStatus ?st) ?x)] =>
         destruct (HandleResponse_plain_error dd st x eq_refl eq_refl eq_refl) as [F A] end.
  all: split; [reflexivity|split; [reflexivity|split; [exact A|]]].
  all: eexists; rewrite F; unfold emit, upd; cbn [hs fx].
  all: cbn [pSidMgr pRequest set_pRedirectCgi set_pUrl set_pSidMgr].
  all: rewrite P2, P3, <- app_assoc; reflexivity.
Qed.

Lemma OnIncoming_redirect_no_sid_releases_twice_witness :
  pRedirectCounter (hs (ex_state 16)) <> 0 /\ ex_urlok "srv2.example" 1094 = true /\
  pRedirectAsAnswer (hs (ex_state 16)) = false /\
  ex_nosid (mkURL "srv2.example" 1094 true) = None /\
  let '(act, outs', s') :=
    OnIncoming ex_flags ex_flags ex_nosid ex_urlok 0 10 []
               (mkRsp 1 (Rredirect 1094 "srv2.example" None) 0) (ex_state 16) in
  act = N.lor Take RemoveHandler /\ outs' = [] /\ alive s' = false /\
  exists hosts,
    fx s' = [] ++ [EReleaseSID ex_srv 1; EReleaseSID (mkURL "srv2.example" 1094 true) 1;
                   EDeliver (Status2 0 stError errNoMoreFreeSIDs) None hosts].
Proof.
  split; [discriminate|split; [reflexivity|split; [reflexivity|split; [reflexivity|]]]].
  apply (OnIncoming_redirect_no_sid_releases_twice ex_flags ex_flags ex_nosid ex_urlok 0 10 []
           1094 "srv2.example" None 0 (ex_state 16)); [discriminate|reflexivity|reflexivity|reflexivity].
Defined.

(** ** Error handling *)

Lemma HandleResponse_fail d st s :
  IsOK st = false ->
  let s' := HandleResponse d (upd (set_pStatus st) s) in
  alive s' = false /\
  exists e st', IsOK st' = false /\ fx s' = fx s ++ [e; EDeliver st' None (pHosts (hs s))].
Proof.
  intros Hok. cbv zeta. unfold HandleResponse. cbn [hs upd fx alive].
  set (st0 := ProcessStatus (set_pStatus st (hs s))).
  assert (H0 : IsOK st0 = false).
  { unfold st0, ProcessStatus. cbn [pStatus set_pStatus].
    destruct (pResponse _) as [[? [] ?]|]; try exact Hok.
    destruct (negb (IsOK st) && code_eqb (code st) errErrorResponse); [|exact Hok].
    unfold IsOK in *. cbn [status]. exact Hok. }
  rewrite H0. split; [reflexivity|]. do 2 eexists. split; [exact H0|]. reflexivity.
Qed.


Lemma HandleError_ok d now outs st s :
  IsOK st = true -> HandleError d now outs st s = (outs, s).
Proof. intros H. destruct outs; cbn [HandleError]; rewrite H; reflexivity. Qed.

Lemma HandleError_outcome d now : forall outs st s,
  IsOK st = false ->
  let '(outs', s') := HandleError d now outs st s in
  (alive s' = false /\
   exists mid st' hosts, IsOK st' = false /\ fx s' = fx s ++ mid ++ [EDeliver st' None hosts]) \/
  (alive s' = alive s /\
   exists mid u sid, fx s' = fx s ++ mid ++ [ESend u sid true]).
Proof.
  induction outs as [|o tl IH]; intros st s Hok.
  all: cbn [HandleError]; rewrite Hok; cbv zeta.
  all: repeat match goal with
         | |- context [if ?b then _ else _] => destruct b
         end.
  all: cbv beta iota.
  all: try (destruct (HandleResponse_fail d st s Hok) as (A & e & st' & Hst & F);
            left; split; [exact A|]; exists [e], st', (pHosts (hs s)); split; [exact Hst|exact F]).
  all: try (right; split; [reflexivity|]; exists []; do 2 eexists; reflexivity).
  all: destruct (IsOK o) eqn:Eo.
  all: match goal with |- context [HandleError ?dd ?nn ?tl0 ?o0 ?x] =>
         assert (Fx : exists e, fx x = fx s ++ [e]) by (eexists; reflexivity);
         assert (Ax : alive x = alive s) by reflexivity;
         first [ rewrite (HandleError_ok dd nn tl0 o0 x Eo)
               | pose proof (IH o0 x Eo) as IH'; destruct (HandleError dd nn tl0 o0 x) as [outs' s4] ]
       end.
  all: cbv beta iota.
  all: try (right; split; [reflexivity|]; exists []; do 2 eexists; reflexivity).
  all: destruct Fx as [e Fx].
  all: try change (fx (upd ?f s4)) with (fx s4); try change (alive (upd ?f s4)) with (alive s4).
  all: destruct IH' as [[A (mid & st' & hosts & H1 & H2)]|[A (mid & u & sid & H2)]];
       rewrite Fx, <- app_assoc in H2; rewrite H2.
  all: [> left | right | left | right | left | right | left | right].
  all: split; [rewrite A; first [reflexivity|exact Ax]|].
  1,3,5,7: exists (e :: mid), st', hosts; split; [exact H1|reflexivity].
  all: exists (e :: mid), u, sid; reflexivity.
Qed.

(** X16. [HandleError] given a failure never drops the request and
    never reports success: it ends either with the caller being told of
    a failure (the last thing it does is deliver a failed status, and
    the handler is deleted), or with a re-send that the post master
    accepted, the handler staying alive to wait for its answer. *)
Theorem HandleError_resends_or_fails d now : forall outs st s,
  IsOK st = false ->
  let '(outs', s') := HandleError d now outs st s in
  (alive s' = false /\
   exists mid st' hosts, IsOK st' = false /\ fx s' = fx s ++ mid ++ [EDeliver st' None hosts]) \/
  (alive s' = alive s /\
   exists mid u sid, fx s' = fx s ++ mid ++ [ESend u sid true]).
Proof.
  intros outs st s. exact (HandleError_outcome d now outs st s).
Qed.

Lemma HandleError_resends_or_fails_witness :
  IsOK ex_err = false /\
  let '(outs', s') := HandleError 0 10 [ex_err] ex_err (ex_state 16) in
  (alive s' = false /\
   exists mid st' hosts, IsOK st' = false /\
     fx s' = fx (ex_state 16) ++ mid ++ [EDeliver st' None hosts]) \/
  (alive s' = alive (ex_state 16) /\
   exists mid u sid, fx s' = fx (ex_state 16) ++ mid ++ [ESend u sid true]).
Proof.
  split; [reflexivity|].
  apply (HandleError_resends_or_fails 0 10 [ex_err] ex_err (ex_state 16)). reflexivity.
Defined.

(** ** The [kXR_refresh] flag *)

Lemma ldiff_lor_r a b : N.ldiff (N.lor a b) b = N.ldiff a b.
Proof.
  apply N.bits_inj. intros i. rewrite !N.ldiff_spec, N.lor_spec.
  destruct (N.testbit a i), (N.testbit b i); reflexivity.
Qed.

Lemma lor_ldiff_r a b : N.lor (N.ldiff a b) b = N.lor a b.
Proof.
  apply N.bits_inj. intros i. rewrite !N.lor_spec, N.ldiff_spec.
  destruct (N.testbit a i), (N.testbit b i); reflexivity.
Qed.

Lemma ldiff_ldiff_r a b : N.ldiff (N.ldiff a b) b = N.ldiff a b.
Proof.
  apply N.bits_inj. intros i. rewrite !N.ldiff_spec.
  destruct (N.testbit a i), (N.testbit b i); reflexivity.
Qed.

Lemma land_lor_r a b : N.land (N.lor a b) b = b.
Proof.
  apply N.bits_inj. intros i. rewrite N.land_spec, N.lor_spec.
  destruct (N.testbit a i), (N.testbit b i); reflexivity.
Qed.

Lemma land_ldiff_r a b : N.land (N.ldiff a b) b = 0.
Proof.
  apply N.bits_inj. intros i. rewrite N.land_spec, N.ldiff_spec, N.bits_0.
  destruct (N.testbit a i), (N.testbit b i); reflexivity.
Qed.

(** X17. [SwitchOnRefreshFlag] and [RewriteRequestWait] touch only the
    [kXR_refresh] bit (0x80) of the request's [locate.options] word, and
    only for [kXR_locate] and [kXR_open]: the first sets it, the second
    clears it; every other request is left as it is. For a [kXR_open]
    that word is [open.mode]: neither function changes [open.options],
    where an open's [kXR_refresh] flag is. Of the two, the one applied
    last decides the bit: a wait after a refresh gives the request a
    wait alone gives, and a refresh after a wait the request a refresh
    alone gives. *)
Theorem refresh_flag_switch_and_wait s :
  let o := fun s => locate_options (pRequest (hs s)) in
  N.ldiff (o (SwitchOnRefreshFlag s)) kXR_refresh = N.ldiff (o s) kXR_refresh /\
  N.ldiff (o (RewriteRequestWait s)) kXR_refresh = N.ldiff (o s) kXR_refresh /\
  match requestid (pRequest (hs s)) with
  | kXR_locate | kXR_open =>
      N.land (o (SwitchOnRefreshFlag s)) kXR_refresh = kXR_refresh /\
      N.land (o (RewriteRequestWait s)) kXR_refresh = 0
  | _ => SwitchOnRefreshFlag s = s /\ RewriteRequestWait s = s
  end /\
  open_options (pRequest (hs (SwitchOnRefreshFlag s))) = open_options (pRequest (hs s)) /\
  open_options (pRequest (hs (RewriteRequestWait s))) = open_options (pRequest (hs s)) /\
  RewriteRequestWait (SwitchOnRefreshFlag s) = RewriteRequestWait s /\
  SwitchOnRefreshFlag (RewriteRequestWait s) = SwitchOnRefreshFlag s.
Proof.
  destruct s as [[[sid rid lo oo so dl cgi ses] ? ? ? ? ? ? ? ? ? ? ? ? ?] f a].
  cbv zeta. unfold SwitchOnRefreshFlag, RewriteRequestWait, upd, set_pRequest, set_locate_options.
  destruct rid; cbn;
    rewrite ?ldiff_lor_r, ?ldiff_ldiff_r, ?land_lor_r, ?land_ldiff_r, ?lor_ldiff_r;
    repeat split.
Qed.

(** ** Load-balancer promotion *)

Lemma lb_removelast_false (l : list HostInfo) :
  map hi_lb (removelast (map (set_lb false) l)) = repeat false (List.length l - 1).
Proof.
  induction l as [|x tl IH]; [reflexivity|].
  destruct tl as [|y tl']; [reflexivity|].
  change (removelast (map (set_lb false) (x :: y :: tl')))
    with (set_lb false x :: removelast (map (set_lb false) (y :: tl'))).
  change (map hi_lb (set_lb false x :: ?r)) with (false :: map hi_lb r).
  rewrite IH. cbn [List.length]. replace (S (List.length tl') - 1)%nat with (List.length tl') by lia.
  reflexivity.
Qed.

(** X18. The load-balancer promotion of a followed [kXR_redirect]
    either leaves the handler as it is, or, when no load balancer has
    been fixed yet and the last host visited is a manager (a meta
    manager, or a manager when no valid load balancer is known), makes
    that last host the load balancer and marks it, and only it, as the
    load balancer in the host list, whose URLs stay as they were. *)
Theorem promote_lb_marks_last h :
  let h' := promote_lb h in
  h' = h \/
  (pHasLoadBalancer h = false /\ pHosts h <> [] /\
   N.land (hi_flags (last_host (pHosts h))) kXR_isManager <> 0 /\
   pLoadBalancer h' = last_host (pHosts h) /\
   map hi_url (pHosts h') = map hi_url (pHosts h) /\
   map hi_lb (pHosts h') = repeat false (List.length (pHosts h) - 1) ++ [true]).
Proof.
  cbv zeta. unfold promote_lb.
  destruct (pHasLoadBalancer h) eqn:Hb; [left; reflexivity|].
  destruct (N.land (hi_flags (last_host (pHosts h))) kXR_isManager =? 0) eqn:Hm;
    cbn [negb]; [left; reflexivity|].
  destruct (_ || _); [right|left; reflexivity].
  assert (Hne : pHosts h <> []).
  { intros E. rewrite E in Hm. discriminate. }
  apply N.eqb_neq in Hm.
  split; [reflexivity|split; [exact Hne|split; [exact Hm|split; [reflexivity|]]]].
  cbn [pHosts pLoadBalancer set_pHosts set_pLoadBalancer].
  split.
  - rewrite map_app. cbn [map].
    change (hi_url (set_lb true (last_host (map (set_lb false) (pHosts h)))))
      with (hi_url (last_host (map (set_lb false) (pHosts h)))).
    assert (Hne' : map (set_lb false) (pHosts h) <> []).
    { destruct (pHosts h); [contradiction|discriminate]. }
    unfold last_host. set (m := map (set_lb false) (pHosts h)) in *.
    replace (map hi_url (removelast m) ++ [hi_url (last m (host_of noURL))])
      with (map hi_url (removelast m ++ [last m (host_of noURL)])) by (rewrite map_app; reflexivity).
    rewrite <- (app_removelast_last _ Hne'). unfold m. rewrite map_map. reflexivity.
  - rewrite map_app, lb_removelast_false. reflexivity.
Qed.

(** ** Directory listing over all the servers of a directory *)

Lemma dirlist_loop_eq {Entry : Type} sp (dl : string -> Status * list Entry) :
  forall locs errors response,
  dirlist_loop sp dl locs errors response =
  (errors || existsb (fun l => negb (IsOK (fst (dl (loc_address l))))
                               || code_eqb (code (fst (dl (loc_address l)))) sp) locs,
   response ++ List.concat (map (fun l => if IsOK (fst (dl (loc_address l)))
                                          then snd (dl (loc_address l)) else []) locs)).
Proof.
  induction locs as [|l tl IH]; intros errors response.
  - cbn. rewrite orb_false_r, app_nil_r. reflexivity.
  - cbn [dirlist_loop existsb map List.concat].
    destruct (dl (loc_address l)) as [st ents]. cbn [fst snd].
    destruct (IsOK st); cbn [negb orb]; rewrite IH.
    + rewrite orb_assoc, app_assoc. reflexivity.
    + rewrite orb_true_r. cbn [app]. reflexivity.
Qed.

(** X19. Once [DeepLocate] has found locations for the directory,
    [DirList] with [DirListFlags::Locate] never fails: it returns [stOK]
    with the entries of every server listing it obtained, concatenated
    in the order of the locations; the code is [suPartial] as soon as
    one server's listing failed or was itself partial, and success
    otherwise. So when every server fails, the caller gets [stOK] with
    [suPartial] and an empty listing. *)
Theorem DirList_locate_merges {Entry : Type} sp d deep (dl : string -> Status * list Entry) :
  IsOK (fst deep) = true -> snd deep <> [] ->
  let ok l := IsOK (fst (dl (loc_address l))) in
  DirList_locate sp d deep dl =
  (mkStatus stOK
     (if existsb (fun l => negb (ok l) || code_eqb (code (fst (dl (loc_address l)))) sp) (snd deep)
      then sp else errNone) d,
   Some (List.concat (map (fun l => if ok l then snd (dl (loc_address l)) else []) (snd deep)))).
Proof.
  intros Hok Hne. cbv zeta. destruct deep as [st locs]. cbn [fst snd] in *.
  unfold DirList_locate. rewrite Hok. cbn [negb].
  destruct locs as [|l tl]; [contradiction|].
  rewrite dirlist_loop_eq. cbn [orb app].
  destruct (existsb _ _); reflexivity.
Qed.

Lemma DirList_locate_merges_witness :
  IsOK (fst ex_deep) = true /\ snd ex_deep <> [] /\
  let ok l := IsOK (fst (ex_dirlist_at (loc_address l))) in
  DirList_locate (errOtherCode 3) 0 ex_deep ex_dirlist_at =
  (mkStatus stOK
     (if existsb (fun l => negb (ok l) || code_eqb (code (fst (ex_dirlist_at (loc_address l))))
                                                   (errOtherCode 3)) (snd ex_deep)
      then errOtherCode 3 else errNone) 0,
   Some (List.concat (map (fun l => if ok l then snd (ex_dirlist_at (loc_address l)) else [])
                          (snd ex_deep)))).
Proof.
  split; [reflexivity|split; [discriminate|]].
  apply (DirList_locate_merges (errOtherCode 3) 0 ex_deep ex_dirlist_at); [reflexivity|discriminate].
Defined.

(** ** Connection errors *)

Lemma reported_app e1 e2 : reported (e1 ++ e2) = reported e1 ++ reported e2.
Proof. unfold reported. apply flat_map_app. Qed.

Lemma reported_reports (l : list OutEntry) st :
  reported (map (fun e => SReport e st) l) = l.
Proof. unfold reported. induction l as [|x tl IH]; [reflexivity|]. cbn. rewrite IH. reflexivity. Qed.

Lemma OnFatalError_conserves now num subStream status st :
  let '(st', effs) := OnFatalError now num subStream status st in
  Permutation (queued st' ++ map oe_msg (reported effs)) (queued st).
Proof.
  unfold OnFatalError, upd_sub, set_subs, queued. cbn [pSubStreams].
  rewrite fold_GrabItems, queues_update_nth by reflexivity. cbn [app].
  rewrite reported_app, reported_reports. cbn [reported flat_map app].
  rewrite app_nil_r.
  replace (List.concat (map ss_outQueue (map (fun s => mkSub (ss_status s) []) _))) with (@nil OutEntry).
  - reflexivity.
  - rewrite map_map. cbn [ss_outQueue].
    induction (update_nth _ _ _) as [|x tl IH]; [reflexivity|exact IH].
Qed.

Lemma EnableLink_queues EU GHA Conn now d path st :
  let '(_, _, st') := EnableLink EU GHA Conn now d path st in
  List.concat (map ss_outQueue (pSubStreams st')) = List.concat (map ss_outQueue (pSubStreams st)).
Proof.
  unfold EnableLink. destruct GHA as [rs addrs].
  repeat match goal with
         | |- context [if ?b then _ else _] => destruct b
         end; cbn; try reflexivity.
  destruct (pSubStreams st); reflexivity.
Qed.

Lemma EnableLink_session EU GHA Conn now d path st :
  pSessionId (snd (EnableLink EU GHA Conn now d path st)) = pSessionId st.
Proof.
  unfold EnableLink. destruct GHA as [rs addrs].
  repeat match goal with
         | |- context [if ?b then _ else _] => destruct b
         end; reflexivity.
Qed.

Lemma OnFatalError_after now num subStream status x st :
  Permutation (queued x) (queued st) -> pSessionId x = pSessionId st ->
  let '(st', effs) := OnFatalError now num subStream status x in
  Permutation (queued st' ++ map oe_msg (reported effs)) (queued st) /\ pSessionId st' = pSessionId st.
Proof.
  intros P S.
  pose proof (OnFatalError_conserves now num subStream status x) as C.
  destruct (OnFatalError_fields now num subStream status x) as (_ & _ & _ & F).
  destruct (OnFatalError now num subStream status x) as [st' effs]. cbn [fst] in F.
  split; [eapply perm_trans; eassumption|congruence].
Qed.

(** X20. [Stream::OnConnectError] loses no queued message and keeps
    the session: every message queued before it runs is afterwards
    either still in one of the stream's out-queues (moved to
    sub-stream 0 when a secondary sub-stream failed to connect, or kept
    while a reconnection is tried or scheduled) or reported to its
    handler by [OnFatalError], and none is duplicated. *)
Theorem OnConnectError_conserves now num EU GHA Conn CN win retry d subStream err st :
  let '(st', effs) := OnConnectError now num EU GHA Conn CN win retry d subStream err st in
  Permutation (queued st' ++ map oe_msg (reported effs)) (queued st) /\
  pSessionId st' = pSessionId st.
Proof.
  unfold OnConnectError.
  destruct (negb (subStream =? 0)) eqn:Hs.
  - apply negb_true_iff, N.eqb_neq in Hs.
    set (st0 := upd_sub subStream (fun s => mkSub Disconnected (ss_outQueue s)) st).
    destruct (connect_subs_step_perm (fun _ => mkStatus stError errNone 0) subStream st0 Hs)
      as (P & S & _). cbv zeta in P, S. cbn [IsOK status] in P, S.
    set (st1 := upd_sub subStream (fun s => mkSub (ss_status s) [])
                  (upd_sub 0 (fun s => mkSub (ss_status s)
                                             (GrabItems (ss_outQueue s) (ss_outQueue (sub st0 subStream))))
                           st0)) in *.
    assert (P1 : Permutation (queued st1) (queued st)).
    { unfold queued. apply Permutation_map. eapply perm_trans; [exact P|].
      unfold st0, upd_sub, set_subs. cbn [pSubStreams].
      rewrite queues_update_nth by reflexivity. reflexivity. }
    assert (S1 : pSessionId st1 = pSessionId st) by exact S.
    repeat match goal with
           | |- context [if ?b then _ else _] => destruct b
           end;
      try (apply OnFatalError_after; assumption);
      (split; [cbn [reported flat_map]; rewrite app_nil_r; exact P1|exact S1]).
  - destruct (_ <? win)%Z.
    + destruct (pAddresses st) as [|a al].
      * destruct (_ <? retry);
          [split; [cbn [reported flat_map]; rewrite app_nil_r; reflexivity|reflexivity]
          |apply OnFatalError_after; reflexivity].
      * destruct (negb (IsOK CN));
          [apply OnFatalError_after; reflexivity
          |split; [cbn [reported flat_map]; rewrite app_nil_r; reflexivity|reflexivity]].
    + destruct (_ <? retry); [|apply OnFatalError_after; reflexivity].
      set (x := upd_sub 0 _ (set_addresses [] st)).
      assert (Px : Permutation (queued x) (queued st)).
      { unfold x, queued, upd_sub, set_subs. cbn [pSubStreams].
        rewrite queues_update_nth by reflexivity. reflexivity. }
      pose proof (EnableLink_queues EU GHA Conn now d (mkPath 0 0) x) as Q.
      pose proof (EnableLink_session EU GHA Conn now d (mkPath 0 0) x) as Se.
      destruct (EnableLink EU GHA Conn now d (mkPath 0 0) x) as [[r pth] st0]. cbn [snd] in Se.
      assert (P0 : Permutation (queued st0) (queued st)).
      { eapply perm_trans; [|exact Px]. unfold queued. rewrite Q. reflexivity. }
      destruct (negb (IsOK r)); [apply OnFatalError_after; [exact P0|exact Se]|].
      split; [cbn [reported flat_map]; rewrite app_nil_r; exact P0|exact Se].
Qed.

Lemma RewriteRequestRedirect_some sa d newCgi s sid :
  sa (pUrl (hs s)) = Some sid ->
  exists s1, RewriteRequestRedirect sa d newCgi s = (None, s1) /\
    pUrl (hs s1) = pUrl (hs s) /\ pHosts (hs s1) = pHosts (hs s) /\
    streamid (pRequest (hs s1)) = sid /\ alive s1 = alive s /\
    exists mid, fx s1 = fx s ++ mid.
Proof.
  intros H. unfold RewriteRequestRedirect. cbn [hs upd emit]. rewrite H.
  destruct newCgi; eexists; (split; [reflexivity|]); repeat split;
    eexists; unfold emit, upd; cbn [fx]; rewrite <- ?app_assoc; reflexivity.
Qed.

(** X21. When a [kXR_redirect] is followed (the redirect counter is
    positive, the target is a valid URL, redirects are not taken as
    answers, the target has a free SID) and the post master accepts the
    re-sent request, [OnIncoming] sends the request to the target with
    the target's new SID and keeps the handler alive, and the target
    ends the host list twice: [OnIncoming] appends it, then
    [RetryAtServer] appends it again. *)
Theorem OnIncoming_redirect_host_twice sf pv sa uok d now port host cgi session s sid :
  let h := hs s in
  let u := mkURL host port true in
  pRedirectCounter h <> 0 -> uok host port = true -> pRedirectAsAnswer h = false ->
  sa u = Some sid ->
  let '(act, outs', s') :=
    OnIncoming sf pv sa uok d now []
               (mkRsp (streamid (pRequest h)) (Rredirect port host cgi) session) s in
  act = N.lor Take RemoveHandler /\ outs' = [] /\ alive s' = alive s /\
  (exists pre, fx s' = fx s ++ pre ++ [ESend u sid true]) /\
  (exists pre, pHosts (hs s') = pre ++ [host_of u; host_of u]).
Proof.
  cbv zeta. intros Hc Hu Ha Hs.
  unfold OnIncoming. cbn [OnIncoming_body]. rewrite N.eqb_refl. cbn [negb hs upd pRedirectCounter].
  change (pRedirectCounter (set_pHosts ?a (hs s))) with (pRedirectCounter (hs s)).
  rewrite (proj2 (N.eqb_neq _ 0) Hc), Hu. cbn [url_valid negb].
  destruct cgi as [[raw params]|]; cbv beta iota; unfold upd; cbn [hs fx alive].
  all: match goal with |- context [promote_lb ?x] =>
         destruct (promote_lb_keeps x) as (P1 & P2 & P3 & P4); generalize dependent (promote_lb x) end.
  all: intros hp P1 P2 P3 P4.
  all: cbn [pRedirectAsAnswer set_pRedirectCgi set_pUrl]; rewrite P1;
       cbn [pRedirectAsAnswer set_pRedirectCounter set_pHosts]; rewrite Ha.
  all: match goal with |- context [RewriteRequestRedirect ?a ?b ?c ?x] =>
         destruct (RewriteRequestRedirect_some a b c x sid ltac:(exact Hs))
           as (s1 & E & U & Hh & Sd & A & mid & F);
         rewrite E end.
  all: cbv beta iota; unfold RetryAndHandle, retry_state, emit, upd; cbn [hs fx alive].
  all: cbn [hs fx alive pUrl pRequest pHosts set_pHosts set_pUrl set_pRedirectCgi] in *.
  all: rewrite U, Sd, A, F, Hh.
  all: split; [reflexivity|split; [reflexivity|split; [reflexivity|split]]].
  all: [> exists mid; rewrite <- app_assoc; reflexivity
       | eexists; rewrite <- app_assoc; reflexivity
       | exists mid; rewrite <- app_assoc; reflexivity
       | eexists; rewrite <- app_assoc; reflexivity].
Qed.

Lemma OnIncoming_redirect_host_twice_witness :
  pRedirectCounter (hs (ex_state 16)) <> 0 /\ ex_urlok "srv2.example" 1094 = true /\
  pRedirectAsAnswer (hs (ex_state 16)) = false /\
  ex_sid (mkURL "srv2.example" 1094 true) = Some 7 /\
  let '(act, outs', s') :=
    OnIncoming ex_flags ex_flags ex_sid ex_urlok 0 10 []
               (mkRsp 1 (Rredirect 1094 "srv2.example" None) 0) (ex_state 16) in
  act = N.lor Take RemoveHandler /\ outs' = [] /\ alive s' = alive (ex_state 16) /\
  (exists pre, fx s' = fx (ex_state 16) ++ pre ++ [ESend (mkURL "srv2.example" 1094 true) 7 true]) /\
  (exists pre, pHosts (hs s') = pre ++ [host_of (mkURL "srv2.example" 1094 true);
                                        host_of (mkURL "srv2.example" 1094 true)]).
Proof.
  split; [discriminate|split; [reflexivity|split; [reflexivity|split; [reflexivity|]]]].
  apply (OnIncoming_redirect_host_twice ex_flags ex_flags ex_sid ex_urlok 0 10
           1094 "srv2.example" None 0 (ex_state 16) 7); [discriminate|reflexivity|reflexivity|reflexivity].
Defined.

(** X22. A failure reported to the handler on the main stream never
    drops the request silently. [OnStreamEvent] ignores [Ready] and
    events on other sub-streams (returning 0 and leaving the handler
    as it is); for any other event on sub-stream 0 it returns
    [RemoveHandler] and [HandleError] either delivers a failed status
    and deletes the handler, or ends with an accepted re-send. A failed
    send reported to [OnStatusReady] ends the same way; a successful one
    makes the handler wait for the answer in the in-queue. *)
Theorem OnStreamEvent_OnStatusReady_failures d now outs ev streamNum st s :
  IsOK st = false ->
  (let '(act, outs', s') := OnStreamEvent d now outs ev streamNum st s in
   match ev with
   | Ready => act = 0 /\ outs' = outs /\ s' = s
   | _ =>
     if N.eqb streamNum 0 then
       act = RemoveHandler /\
       ((alive s' = false /\
         exists mid st' hosts, IsOK st' = false /\ fx s' = fx s ++ mid ++ [EDeliver st' None hosts]) \/
        (alive s' = alive s /\
         exists mid u sid, fx s' = fx s ++ mid ++ [ESend u sid true]))
     else act = 0 /\ outs' = outs /\ s' = s
   end) /\
  (let '(outs', s') := OnStatusReady d now outs st s in
   (alive s' = false /\
    exists mid st' hosts, IsOK st' = false /\ fx s' = fx s ++ mid ++ [EDeliver st' None hosts]) \/
   (alive s' = alive s /\
    exists mid u sid, fx s' = fx s ++ mid ++ [ESend u sid true])) /\
  OnStatusReady d now outs StatusOK s = (outs, emit (EReceive (pUrl (hs s))) s).
Proof.
  intros Hok. split; [|split].
  - unfold OnStreamEvent.
    destruct ev; [repeat split|..];
      destruct (N.eqb streamNum 0); cbn [negb]; try (repeat split; fail).
    all: pose proof (HandleError_outcome d now outs st s Hok) as O;
         destruct (HandleError d now outs st s); split; [reflexivity|exact O].
  - unfold OnStatusReady. rewrite Hok. exact (HandleError_outcome d now outs st s Hok).
  - reflexivity.
Qed.

Lemma OnStreamEvent_OnStatusReady_failures_witness :
  IsOK ex_err = false /\
  (let '(act, outs', s') := OnStreamEvent 0 10 [ex_err] Broken 0 ex_err (ex_state 16) in
   match Broken with
   | Ready => act = 0 /\ outs' = [ex_err] /\ s' = ex_state 16
   | _ =>
     if N.eqb 0 0 then
       act = RemoveHandler /\
       ((alive s' = false /\
         exists mid st' hosts, IsOK st' = false /\
           fx s' = fx (ex_state 16) ++ mid ++ [EDeliver st' None hosts]) \/
        (alive s' = alive (ex_state 16) /\
         exists mid u sid, fx s' = fx (ex_state 16) ++ mid ++ [ESend u sid true]))
     else act = 0 /\ outs' = [ex_err] /\ s' = ex_state 16
   end) /\
  (let '(outs', s') := OnStatusReady 0 10 [ex_err] ex_err (ex_state 16) in
   (alive s' = false /\
    exists mid st' hosts, IsOK st' = false /\
      fx s' = fx (ex_state 16) ++ mid ++ [EDeliver st' None hosts]) \/
   (alive s' = alive (ex_state 16) /\
    exists mid u sid, fx s' = fx (ex_state 16) ++ mid ++ [ESend u sid true])) /\
  OnStatusReady 0 10 [ex_err] StatusOK (ex_state 16) =
    ([ex_err], emit (EReceive (pUrl (hs (ex_state 16)))) (ex_state 16)).
Proof.
  split; [reflexivity|].
  apply (OnStreamEvent_OnStatusReady_failures 0 10 [ex_err] Broken 0 ex_err (ex_state 16)).
  reflexivity.
Defined.

(** X23. Once the connection retries are used up ([pConnectionCount]
    has reached [pConnectionRetry]) and no resolved address is left,
    [OnConnectError] on sub-stream 0 neither reconnects nor schedules a
    new attempt, whether or not the connection window has elapsed: it
    empties every out-queue and fails each queued message, in queue
    order, with [stFatal]/[errConnectionError] (whatever error the
    socket reported), then reports a [FatalError] event to the in-queue
    and to the channel. *)
Theorem OnConnectError_gives_up now num EU GHA Conn CN win retry d err st :
  (retry <= pConnectionCount st)%N -> pAddresses st = [] ->
  let '(st', effs) := OnConnectError now num EU GHA Conn CN win retry d 0 err st in
  let fatal := mkStatus stFatal errConnectionError d in
  Forall (fun s => ss_outQueue s = []) (pSubStreams st') /\
  effs = map (fun e => SReport e fatal) (List.concat (map ss_outQueue (pSubStreams st)))
         ++ [SInQueueEvent FatalError num fatal; SChannelEvent ChannelFatalError fatal num] /\
  pSessionId st' = pSessionId st.
Proof.
  intros Hr Ha. unfold OnConnectError. cbn [N.eqb negb]. rewrite Ha.
  replace (N.ltb (pConnectionCount st) retry) with false
    by (symmetry; apply N.ltb_ge; exact Hr).
  destruct (_ <? win)%Z.
  all: pose proof (OnFatalError_spec now num 0 (StatusS d stFatal errConnectionError) st) as O;
       destruct (OnFatalError now num 0 _ st) as [st' effs];
       destruct O as (Q & E & _ & _ & S & _); cbn [code errNo StatusS] in E.
  all: split; [exact Q|split; [exact E|exact S]].
Qed.

Lemma OnConnectError_gives_up_witness :
  (2 <= pConnectionCount ex_connecting)%N /\ pAddresses ex_connecting = [] /\
  let '(st', effs) := OnConnectError 20 3 ex_uplink_ok ex_gha ex_connect ex_fatal 60 2 0 0
                                     ex_fatal ex_connecting in
  let fatal := mkStatus stFatal errConnectionError 0 in
  Forall (fun s => ss_outQueue s = []) (pSubStreams st') /\
  effs = map (fun e => SReport e fatal) (List.concat (map ss_outQueue (pSubStreams ex_connecting)))
         ++ [SInQueueEvent FatalError 3 fatal; SChannelEvent ChannelFatalError fatal 3] /\
  pSessionId st' = pSessionId ex_connecting.
Proof.
  split; [cbn; lia|split; [reflexivity|]].
  apply (OnConnectError_gives_up 20 3 ex_uplink_ok ex_gha ex_connect ex_fatal 60 2 0
           ex_fatal ex_connecting); [cbn; lia|reflexivity].
Defined.

Lemma nth_update_nth_eq {A} n (f : A -> A) (l : list A) d :
  (n < List.length l)%nat -> nth n (update_nth n f l) d = f (nth n l d).
Proof.
  revert n; induction l as [|x tl IH]; intros [|n] Hn; cbn in *; try lia; auto.
  apply IH. lia.
Qed.

Lemma nth_update_nth_neq {A} m n (f : A -> A) (l : list A) d :
  m <> n -> nth m (update_nth n f l) d = nth m l d.
Proof.
  revert m n; induction l as [|x tl IH]; intros [|m] [|n] Hmn; cbn; auto; try lia.
Qed.

(** X24. When a secondary sub-stream fails to connect while sub-stream 0
    is connected (and its uplink can be enabled) or still connecting,
    [OnConnectError] fails nothing: the secondary sub-stream is marked
    [Disconnected] and its queued messages move, in order, to the back
    of sub-stream 0's out-queue; sub-stream 0 keeps its state. *)
Theorem OnConnectError_secondary_hands_over now num EU GHA Conn CN win retry d subStream err st :
  subStream <> 0 -> (N.to_nat subStream < List.length (pSubStreams st))%nat ->
  (ss_status (sub st 0) = Connected /\ IsOK (EU 0) = true) \/ ss_status (sub st 0) = Connecting ->
  let '(st', effs) := OnConnectError now num EU GHA Conn CN win retry d subStream err st in
  effs = [] /\
  ss_outQueue (sub st' 0) = ss_outQueue (sub st 0) ++ ss_outQueue (sub st subStream) /\
  ss_status (sub st' 0) = ss_status (sub st 0) /\
  ss_outQueue (sub st' subStream) = [] /\ ss_status (sub st' subStream) = Disconnected /\
  pSessionId st' = pSessionId st.
Proof.
  intros Hs Hn H0.
  assert (Hn0 : N.to_nat subStream <> 0%nat) by lia.
  unfold OnConnectError. rewrite (proj2 (N.eqb_neq _ 0) Hs). cbn [negb].
  unfold sub, upd_sub, set_subs in *. cbn [pSubStreams pSessionId] in *.
  rewrite !(nth_update_nth_neq 0 (N.to_nat subStream)) by lia.
  change (N.to_nat 0) with 0%nat in *.
  rewrite !(nth_update_nth_eq (N.to_nat subStream)) by (rewrite ?length_update_nth; lia).
  rewrite !(nth_update_nth_eq 0) by (rewrite ?length_update_nth; lia).
  rewrite !(nth_update_nth_neq 0 (N.to_nat subStream)) by lia.
  cbn [ss_status ss_outQueue]. unfold GrabItems.
  destruct H0 as [[C E]|C]; rewrite C; cbn [socket_eqb]; [rewrite E; cbn [negb]|].
  all: cbv beta iota; cbn [pSubStreams pSessionId].
  all: repeat first
         [ rewrite (nth_update_nth_eq (N.to_nat subStream)) by (rewrite ?length_update_nth; lia)
         | rewrite (nth_update_nth_eq 0) by (rewrite ?length_update_nth; lia)
         | rewrite (nth_update_nth_neq 0 (N.to_nat subStream)) by lia
         | rewrite (nth_update_nth_neq (N.to_nat subStream) 0) by lia ].
  all: cbn [ss_status ss_outQueue]; rewrite ?C.
  all: repeat split.
Qed.

Lemma OnConnectError_secondary_hands_over_witness :
  1 <> 0 /\ (N.to_nat 1 < List.length (pSubStreams ex_two_subs))%nat /\
  ((ss_status (sub ex_two_subs 0) = Connected /\ IsOK (ex_uplink_ok 0) = true) \/
   ss_status (sub ex_two_subs 0) = Connecting) /\
  let '(st', effs) := OnConnectError 20 3 ex_uplink_ok ex_gha ex_connect ex_connect 60 2 0 1
                                     ex_fatal ex_two_subs in
  effs = [] /\
  ss_outQueue (sub st' 0) = ss_outQueue (sub ex_two_subs 0) ++ ss_outQueue (sub ex_two_subs 1) /\
  ss_status (sub st' 0) = ss_status (sub ex_two_subs 0) /\
  ss_outQueue (sub st' 1) = [] /\ ss_status (sub st' 1) = Disconnected /\
  pSessionId st' = pSessionId ex_two_subs.
Proof.
  split; [discriminate|split; [cbn; lia|split; [left; split; reflexivity|]]].
  apply (OnConnectError_secondary_hands_over 20 3 ex_uplink_ok ex_gha ex_connect ex_connect 60 2 0 1
           ex_fatal ex_two_subs); [discriminate|cbn; lia|left; split; reflexivity].
Defined.
